(** * MapboxService: a gateway over the Mapbox HTTP API

    A shallow embedding of [src/service/index.ts] together with the response
    types of [types/mapbox.types.ts], and the properties of the service that
    its specification states.

    The service is a class with a constructor and four asynchronous methods.
    Each method validates its argument, builds a URL, performs one or more
    [axios.get] calls through the retry interceptor that the constructor
    installs, reshapes the answer and logs the outcome.  The embedding makes
    the effects explicit: a method is a computation in the monad [Run], which
    yields a value or a thrown exception together with the trace of the
    effects performed (log events, requests put on the wire, back-off
    waits). *)

From Stdlib Require Import String Ascii List Arith ZArith Bool Lia QArith Lqa
  DecimalString.
Import ListNotations.
Local Open Scope string_scope.
Local Open Scope nat_scope.

(** ** ECMAScript numbers

    Coordinates and elevations are IEEE doubles.  The service never computes
    with them: it prints them into URLs and log lines and returns the literal
    [0].  The type, its [toString] and the constant are an interface. *)

Class JsNumber : Type := {
  number : Type;
  Number_toString : number -> string;
  Number_zero : number
}.

(** Template literals also print array lengths, retry counts and status
    codes, which are non-negative integers: decimal digits. *)
Definition nat_to_string (n : nat) : string :=
  NilEmpty.string_of_uint (Nat.to_uint n).

(** [Array.prototype.join] on an array of strings. *)
Definition join (sep : string) (parts : list string) : string :=
  String.concat sep parts.

(** ** Exceptions

    Everything thrown in the service is an object with a [message]; errors
    raised by axios also carry [code], [response] and [config].  One record
    with optional fields covers what is read of an error: [error.message]
    and [error.response?.status] by the [catch] blocks and the retry
    condition, [error.code], [error.config?.method] and
    [error.response?.headers['retry-after']] by the helpers of
    axios-retry. *)

(** The [Retry-After] header of a response, as [retryAfter] of axios-retry
    reads it: a number of seconds ([Number(header)]), or else a date, of which
    only the distance in milliseconds to the clock at the time of the read
    matters ([new Date(header).valueOf() - Date.now()], negative for a date
    in the past).  A header that is absent or empty is [None]; so is a value
    that is neither a number nor a date, for which the code computes
    [0 - Date.now()], a negative number like that of a date in the past. *)
Inductive RetryAfter : Type :=
| DelaySeconds (seconds : Q)
| HttpDate (ms_from_now : Q).

(** The response headers, of which the code path of the service reads one. *)
Record Headers : Type := {
  retry_after : option RetryAfter
}.

Definition no_headers : Headers := {| retry_after := None |}.

Record JsError : Type := mkJsError {
  err_name : string;
  err_message : string;
  err_code : option string;
  err_status : option nat;
  err_method : option string;
  err_retry_after : option RetryAfter
}.

(** [new Error(message)] *)
Definition Error (message : string) : JsError :=
  mkJsError "Error" message None None None None.

(** The exception the engine raises on a property read of [undefined]
    (wording of V8, the engine of the Node 20 image the service runs on). *)
Definition TypeError_undefined (property : string) : JsError :=
  mkJsError "TypeError"
    ("Cannot read properties of undefined (reading '" ++ property ++ "')")
    None None None None.

(** A method argument as it arrives at run time: the declared type says
    array, [Array.isArray] checks it.  The elements of an array have the
    declared element type [A].  A caller that escapes the type checker can
    pass an array with elements of another type (a number where a coordinate
    pair is declared, say); the methods on which that makes a difference
    have a second entry, on arrays of [Element], further down. *)
Inductive Arg (A : Type) : Type :=
| NotArray : Arg A
| ArrayOf (elements : list A) : Arg A.
Arguments NotArray {A}.
Arguments ArrayOf {A} elements.

Section Service.
Context `{JsNumber}.

(** ** Data model ([types/mapbox.types.ts]) *)

(** [[number, number]]: longitude first. *)
Definition Coordinate : Type := (number * number)%type.

Record Geometry : Type := {
  geometry_type : string;
  geometry_coordinates : Coordinate
}.

Record LineGeometry : Type := {
  line_coordinates : list Coordinate;
  line_type : string
}.

Record RouteWaypoint : Type := {
  waypoint_location : Coordinate;
  waypoint_name : string;
  trips_index : number;
  waypoint_index : number
}.

Record Trip : Type := {
  trip_geometry : LineGeometry;
  trip_duration : number;
  trip_distance : number;
  trip_weight : number;
  trip_weight_name : string
}.

Record OptimizedRouteResponse : Type := {
  route_code : string;
  route_waypoints : list RouteWaypoint;
  route_trips : list Trip
}.

Record ElevationProperties : Type := { ele : number }.

Record ElevationFeature : Type := {
  feature_type : string;
  properties : ElevationProperties;
  geometry : Geometry
}.

Record GeocodeProperties : Type := {
  short_code : option string;
  wikidata : option string
}.

Record GeocodeContext : Type := {
  context_id : string;
  context_text : string;
  context_short_code : option string;
  context_wikidata : option string
}.

Record GeocodeResult : Type := {
  result_type : string;
  result_id : string;
  place_name : string;
  place_type : list string;
  relevance : number;
  result_properties : GeocodeProperties;
  result_text : string;
  center : Coordinate;
  result_geometry : Geometry;
  context : option (list GeocodeContext)
}.

Record NamedLocation : Type := {
  location_name : string;
  location : Coordinate
}.

Record MatrixAnnotations : Type := {
  annotation_distance : option (list (list number));
  annotation_duration : option (list (list number));
  annotation_speed : option (list (list number))
}.

Record DistanceMatrixResponse : Type := {
  matrix_code : string;
  destinations : list NamedLocation;
  sources : list NamedLocation;
  distances : list (list number);
  durations : list (list number);
  annotations : option MatrixAnnotations
}.

(** A body with a [features] member, as the tile-query and geocoding
    endpoints send it.  [ElevationResponse] declares [features] as an array;
    the body is whatever JSON arrived, so at run time the member is either an
    array or missing ([None], the read yields [undefined]). *)
Record FeatureCollection (F : Type) : Type := {
  features : option (list F)
}.
Arguments features {F} _.

Definition ElevationResponse : Type := FeatureCollection ElevationFeature.

(** The geocoding body is untyped in the source ([axios.get] without a type
    argument); the method reads [data.features[0]] only. *)
Definition GeocodeResponse : Type := FeatureCollection GeocodeResult.

(** ** Effects *)

Inductive ParamValue : Type :=
| PString (s : string)
| PNumber (n : nat).

(** What [axios.get(url, { params })] puts on the wire. *)
Record AxiosRequestConfig : Type := {
  req_method : string;
  req_url : string;
  req_params : list (string * ParamValue)
}.

Inductive Level : Type := LevelError | LevelWarn | LevelInfo.

(** Values of the metadata object handed to the logger. *)
Inductive MetaValue : Type :=
| MetaUndefined
| MetaNumber (n : nat)
| MetaString (s : string)
| MetaCoordinates (l : list Coordinate).

(** [logger.<level>(message, meta)] *)
Record LogEvent : Type := {
  ev_level : Level;
  ev_message : string;
  ev_meta : list (string * MetaValue)
}.

(** An observable step of a call: a log event, an HTTP attempt ([slot] is
    the position of the [axios.get] call within the method, [attempt] counts
    from 0), or a wait of [ms] milliseconds before a retry. *)
Inductive Effect : Type :=
| Log (ev : LogEvent)
| Send (slot attempt : nat) (req : AxiosRequestConfig)
| Sleep (ms : Q).

(** A computation: the trace of its effects and a value or an exception. *)
Definition Run (A : Type) : Type := (list Effect * (A + JsError))%type.

Definition trace {A} (m : Run A) : list Effect := fst m.
Definition outcome {A} (m : Run A) : A + JsError := snd m.

Definition ret {A} (a : A) : Run A := ([], inl a).
Definition throw {A} (e : JsError) : Run A := ([], inr e).
Definition emit (eff : Effect) : Run unit := ([eff], inl tt).

Definition bind {A B} (m : Run A) (k : A -> Run B) : Run B :=
  match m with
  | (t, inl a) => let (t', r) := k a in ((t ++ t')%list, r)
  | (t, inr e) => (t, inr e)
  end.

(** [try { m } catch (error) { handler }] *)
Definition try_catch {A} (m : Run A) (handler : JsError -> Run A) : Run A :=
  match m with
  | (t, inl a) => (t, inl a)
  | (t, inr e) => let (t', r) := handler e in ((t ++ t')%list, r)
  end.

Definition logger (level : Level) (message : string)
    (meta : list (string * MetaValue)) : Run unit :=
  emit (Log {| ev_level := level; ev_message := message; ev_meta := meta |}).

End Service.

Arguments features {F} _.

Declare Scope run_scope.
Delimit Scope run_scope with run.
Notation "x <- m ;; k" := (bind m (fun x => k))
  (at level 61, m at next level, right associativity) : run_scope.
Notation "m ;; k" := (bind m (fun _ => k))
  (at level 61, right associativity) : run_scope.

(** ** The HTTP client: axios with the axios-retry interceptor

    Both are dependencies of the service, not part of its sources.  What
    follows models the parts of their behaviour that the service relies on,
    after the packages' code (axios 1, axios-retry 4): how axios settles an
    exchange, the helper predicates and the delay function of axios-retry
    that the constructor refers to, and the interceptor's retry loop, which
    is parameterised by the configuration object that the constructor
    passes. *)

(** The deny list of the [is-retry-allowed] package (DNS and certificate
    error codes), which [isNetworkError] consults.  It is an interface; no
    statement about the service depends on it
    ([isNetworkOrIdempotentRequestError_get]). *)
Class RetryAllowed : Type := isRetryAllowed : JsError -> bool.

Section Client.
Context `{JsNumber} `{RetryAllowed}.
Local Open Scope run_scope.

(** What the network gives back for one attempt: no response at all (the
    connection failed; Node's error code and message), or a response with a
    status, headers and a body. *)
Inductive HttpResult (B : Type) : Type :=
| NoResponse (code : option string) (message : string)
| Response (status : nat) (headers : Headers) (body : B).
Arguments NoResponse {B} code message.
Arguments Response {B} status headers body.

(** The world outside the service.  [exchange slot req attempt] is the
    answer to attempt number [attempt] of the [slot]-th [axios.get] call of a
    method; the answer depends on the call and the attempt, not on how
    concurrent calls interleave.  [Math_random slot n] is the draw that the
    delay function makes before retry [n] of that call, and [settle_order]
    lists the positions of concurrent calls in the order in which they
    settle. *)
Record Environment (B : Type) : Type := {
  exchange : nat -> AxiosRequestConfig -> nat -> HttpResult B;
  Math_random : nat -> nat -> Q;
  settle_order : list nat
}.
Arguments exchange {B} _ _ _ _.
Arguments Math_random {B} _ _ _.
Arguments settle_order {B} _.

Record AxiosResponse (B : Type) : Type := {
  status : nat;
  data : B
}.
Arguments status {B} _.
Arguments data {B} _.

(** axios's default [validateStatus]. *)
Definition validateStatus (status : nat) : bool :=
  (200 <=? status) && (status <? 300).

(** [AxiosError] as axios builds it when the status is not accepted
    (lib/core/settle.js).  The error keeps the response, and with it the
    headers.  The [code] is that of current releases of axios 1:
    [ERR_BAD_REQUEST] for 400 to 499 and [ERR_BAD_RESPONSE] otherwise
    (earlier releases index a two-element array with
    [Math.floor(status / 100) - 4] and leave the code undefined outside 400
    to 599).  Nothing on the code path of the service reads the code of an
    error that has a response. *)
Definition AxiosError_status (req : AxiosRequestConfig) (status : nat)
    (headers : Headers) : JsError :=
  {| err_name := "AxiosError";
     err_message := "Request failed with status code " ++ nat_to_string status;
     err_code := Some (if (400 <=? status) && (status <? 500)
                       then "ERR_BAD_REQUEST" else "ERR_BAD_RESPONSE");
     err_status := Some status;
     err_method := Some (req_method req);
     err_retry_after := retry_after headers |}.

Definition AxiosError_network (req : AxiosRequestConfig)
    (code : option string) (message : string) : JsError :=
  {| err_name := "AxiosError";
     err_message := message;
     err_code := code;
     err_status := None;
     err_method := Some (req_method req);
     err_retry_after := None |}.

(** The promise of one attempt: fulfilled with the response or rejected. *)
Definition settle {B} (req : AxiosRequestConfig) (r : HttpResult B)
  : AxiosResponse B + JsError :=
  match r with
  | NoResponse code message => inr (AxiosError_network req code message)
  | Response status headers body =>
      if (status =? 0) || validateStatus status
      then inl {| status := status; data := body |}
      else inr (AxiosError_status req status headers)
  end.

(** *** axios-retry *)

Definition SAFE_HTTP_METHODS : list string := ["get"; "head"; "options"].
Definition IDEMPOTENT_HTTP_METHODS : list string :=
  (SAFE_HTTP_METHODS ++ ["put"; "delete"])%list.

Definition includes (l : list string) (s : string) : bool :=
  existsb (String.eqb s) l.

Definition code_is (error : JsError) (c : string) : bool :=
  match err_code error with
  | Some c' => String.eqb c' c
  | None => false
  end.

Definition isNetworkError (error : JsError) : bool :=
  match err_status error, err_code error with
  | Some _, _ => false
  | None, None => false
  | None, Some c =>
      if String.eqb c "" then false
      else if includes ["ERR_CANCELED"; "ECONNABORTED"] c then false
      else isRetryAllowed error
  end.

Definition isRetryableError (error : JsError) : bool :=
  negb (code_is error "ECONNABORTED") &&
  match err_status error with
  | None => true
  | Some status => (status =? 429) || ((500 <=? status) && (status <=? 599))
  end.

Definition isIdempotentRequestError (error : JsError) : bool :=
  match err_method error with
  | None => false
  | Some method => isRetryableError error && includes IDEMPOTENT_HTTP_METHODS method
  end.

Definition isNetworkOrIdempotentRequestError (error : JsError) : bool :=
  isNetworkError error || isIdempotentRequestError error.

(** [Math.max] of two numbers. *)
Definition Math_max (a b : Q) : Q :=
  if Qle_bool a b then b else a.

(** [retryAfter(error)]: the wait in milliseconds that the [Retry-After]
    header of the rejected response asks for, [0] without a response or
    without the header, and never negative. *)
Definition retryAfter (error : JsError) : Q :=
  match err_retry_after error with
  | None => 0
  | Some (DelaySeconds seconds) => Math_max 0 (seconds * inject_Z 1000)
  | Some (HttpDate ms_from_now) => Math_max 0 ms_from_now
  end%Q.

(** [exponentialDelay(retryNumber, error)], default factor 100 ms:
    [calculatedDelay = 2 ** retryNumber * 100],
    [delay = Math.max(calculatedDelay, retryAfter(error))], and the result
    is [delay + delay * 0.2 * Math.random()].  [rnd] is the value of the
    draw; arithmetic is exact. *)
Definition exponentialDelay (rnd : Q) (retryNumber : nat) (error : JsError) : Q :=
  let calculatedDelay := inject_Z (2 ^ Z.of_nat retryNumber * 100) in
  let delay := Math_max calculatedDelay (retryAfter error) in
  (delay + delay * (2 # 10) * rnd)%Q.

(** The options object handed to [axiosRetry].  The interceptor calls
    [retryDelay(retryCount, error)]. *)
Record IAxiosRetryConfig : Type := {
  retries : nat;
  retryDelay : Q -> nat -> JsError -> Q;
  retryCondition : JsError -> bool;
  onRetry : nat -> JsError -> Run unit
}.

(** The interceptor.  An attempt goes on the wire; when it is rejected, the
    request is retried if [retryCount < retries] and [retryCondition] accepts
    the error: the count is incremented, [onRetry] runs, the delay passes and
    the same request is sent again.  [retries_left] is
    [retries - retryCount]. *)
Fixpoint request {B} (cfg : IAxiosRetryConfig) (env : Environment B)
    (slot : nat) (req : AxiosRequestConfig) (retries_left retryCount : nat)
  : Run (AxiosResponse B) :=
  emit (Send slot retryCount req) ;;
  match settle req (exchange env slot req retryCount) with
  | inl response => ret response
  | inr error =>
      match retries_left with
      | 0 => throw error
      | S retries_left' =>
          if retryCondition cfg error then
            let retryCount' := S retryCount in
            onRetry cfg retryCount' error ;;
            emit (Sleep (retryDelay cfg (Math_random env slot retryCount')
                           retryCount' error)) ;;
            request cfg env slot req retries_left' retryCount'
          else throw error
      end
  end.

(** [axios.get(url, { params })] on an instance that carries the
    interceptor configured with [cfg]. *)
Definition axios_get {B} (cfg : IAxiosRetryConfig) (env : Environment B)
    (slot : nat) (url : string) (params : list (string * ParamValue))
  : Run (AxiosResponse B) :=
  request cfg env slot
    {| req_method := "get"; req_url := url; req_params := params |}
    (retries cfg) 0.

(** *** Promise.all

    The combined promise is fulfilled with all values, in the order of the
    input promises, when none is rejected, and rejected with the reason of
    the promise that is rejected first in time.  [order] gives the order in
    which the promises settle (positions not listed settle afterwards, in
    input order).  The trace lists the effects of the calls one call after
    the other, each call's effects in its own order.  It is not a
    chronology: how the calls interleave in real time is not modelled, and
    the effects of a call come before what the caller does on the rejection
    of the combined promise although that call may still be retrying then.
    Properties of the trace are therefore stated per call or as counts. *)
Fixpoint first_rejection {A} (ps : list (Run A)) : option JsError :=
  match ps with
  | [] => None
  | p :: ps' =>
      match outcome p with
      | inr e => Some e
      | inl _ => first_rejection ps'
      end
  end.

Fixpoint earliest_rejection {A} (order : list nat) (ps : list (Run A))
  : option JsError :=
  match order with
  | [] => None
  | i :: order' =>
      match nth_error ps i with
      | Some (_, inr e) => Some e
      | _ => earliest_rejection order' ps
      end
  end.

Definition fulfilled_values {A} (ps : list (Run A)) : list A :=
  flat_map (fun p => match outcome p with inl a => [a] | inr _ => [] end) ps.

Definition Promise_all {A} (order : list nat) (ps : list (Run A)) : Run (list A) :=
  (concat (map trace ps),
   match earliest_rejection order ps with
   | Some e => inr e
   | None =>
       match first_rejection ps with
       | Some e => inr e
       | None => inl (fulfilled_values ps)
       end
   end).

(** [array.map(callback)], the callback also told the position. *)
Fixpoint map_from {A B} (f : nat -> A -> B) (i : nat) (l : list A) : list B :=
  match l with
  | [] => []
  | x :: l' => f i x :: map_from f (S i) l'
  end.

End Client.

Arguments NoResponse {B} code message.
Arguments Response {B} status headers body.
Arguments exchange {B} _ _ _ _.
Arguments Math_random {B} _ _ _.
Arguments settle_order {B} _.
Arguments status {B} _.
Arguments data {B} _.

(** ** The service ([src/service/index.ts]) *)

Section MapboxService.
Context `{JsNumber} `{RetryAllowed}.
Local Open Scope run_scope.

Record MapboxService : Type := {
  MAPBOX_BASE_URL : string;
  accessToken : string
}.

(** The [retryCondition] arrow function of the constructor. *)
Definition mapbox_retryCondition (error : JsError) : bool :=
  isNetworkOrIdempotentRequestError error ||
  match err_status error with
  | Some status => status =? 429
  | None => false
  end.

(** The [onRetry] arrow function of the constructor. *)
Definition mapbox_onRetry (retryCount : nat) (error : JsError) : Run unit :=
  logger LevelWarn
    ("Retry attempt " ++ nat_to_string retryCount ++ " for Mapbox API call") [].

(** The object literal passed to [axiosRetry(axios, ...)]. *)
Definition mapbox_retry : IAxiosRetryConfig :=
  {| retries := 3;
     retryDelay := exponentialDelay;
     retryCondition := mapbox_retryCondition;
     onRetry := mapbox_onRetry |}.

(** [new MapboxService(accessToken)].  [!accessToken] holds for an absent
    token ([undefined]) and for the empty string.  On success the shared
    axios instance carries the interceptor configured with [mapbox_retry];
    the methods below go through it.  The model is of a process that
    constructs the service once, so that one interceptor is installed. *)
Definition constructor (accessToken : option string) : Run MapboxService :=
  let not_provided : Run MapboxService :=
    logger LevelError "Mapbox access token not provided" [] ;;
    throw (Error "Mapbox access token is required") in
  match accessToken with
  | None => not_provided
  | Some token =>
      if String.eqb token "" then not_provided
      else ret {| MAPBOX_BASE_URL := "https://api.mapbox.com";
                  accessToken := token |}
  end.

(** [error.response?.status] as a metadata value. *)
Definition status_meta (error : JsError) : MetaValue :=
  match err_status error with
  | Some status => MetaNumber status
  | None => MetaUndefined
  end.

(** [coord.join(',')] on a [[number, number]]. *)
Definition coord_join (coord : Coordinate) : string :=
  join "," [Number_toString (fst coord); Number_toString (snd coord)].

(** [waypoints.map((coord) => coord.join(',')).join(';')] *)
Definition coordinates_path (waypoints : list Coordinate) : string :=
  join ";" (map coord_join waypoints).

Definition getOptimizedRoute (this : MapboxService)
    (env : Environment OptimizedRouteResponse) (waypoints : Arg Coordinate)
  : Run OptimizedRouteResponse :=
  match waypoints with
  | NotArray => throw (Error "Invalid waypoints. Minimum 2 coordinates required.")
  | ArrayOf waypoints =>
      if length waypoints <? 2 then
        throw (Error "Invalid waypoints. Minimum 2 coordinates required.")
      else
        let coordinates := coordinates_path waypoints in
        let url := MAPBOX_BASE_URL this ++ "/optimized-trips/v1/mapbox/driving/"
                   ++ coordinates in
        try_catch
          (response <- axios_get mapbox_retry env 0 url
                         [("access_token", PString (accessToken this));
                          ("geometries", PString "geojson")] ;;
           logger LevelInfo
             ("Route optimized for " ++ nat_to_string (length waypoints)
              ++ " waypoints") [] ;;
           ret (data response))
          (fun error =>
             logger LevelError
               ("Route optimization error: " ++ err_message error)
               [("waypoints", MetaCoordinates waypoints);
                ("status", status_meta error)] ;;
             throw (Error "Failed to optimize route"))
  end.

Definition getElevation (this : MapboxService)
    (env : Environment ElevationResponse) (longitude latitude : number)
  : Run number :=
  let url := MAPBOX_BASE_URL this ++ "/v4/mapbox.mapbox-terrain-v2/tilequery/"
             ++ Number_toString longitude ++ "," ++ Number_toString latitude
             ++ ".json" in
  try_catch
    (response <- axios_get mapbox_retry env 0 url
                   [("access_token", PString (accessToken this));
                    ("layers", PString "contour");
                    ("limit", PNumber 1)] ;;
     match features (data response) with
     | None => throw (TypeError_undefined "length")
     | Some features =>
         if 0 <? length features then
           match nth_error features 0 with
           | Some feature => ret (ele (properties feature))
           | None => throw (TypeError_undefined "properties")
           end
         else
           logger LevelWarn
             ("No elevation data for coordinates: " ++ Number_toString longitude
              ++ ", " ++ Number_toString latitude) [] ;;
           ret Number_zero
     end)
    (fun error =>
       logger LevelError
         ("Elevation fetch error: " ++ err_message error)
         [("coordinates", MetaString (Number_toString longitude ++ ", "
                                      ++ Number_toString latitude));
          ("status", status_meta error)] ;;
       throw (Error "Failed to fetch elevation")).

(** [response.data.features[0]] *)
Definition first_feature {F} (body : FeatureCollection F) : Run (option F) :=
  match features body with
  | None => throw (TypeError_undefined "0")
  | Some features => ret (nth_error features 0)
  end.

Definition batchGeocode (this : MapboxService)
    (env : Environment GeocodeResponse) (locations : Arg string)
  : Run (list (option GeocodeResult)) :=
  match locations with
  | NotArray => throw (Error "Invalid locations. Non-empty array required.")
  | ArrayOf locations =>
      if length locations =? 0 then
        throw (Error "Invalid locations. Non-empty array required.")
      else
        let url := MAPBOX_BASE_URL this ++ "/geocoding/v5/mapbox.places-permanent" in
        try_catch
          (let geocodePromises :=
             map_from (fun slot location =>
               response <- axios_get mapbox_retry env slot url
                             [("access_token", PString (accessToken this));
                              ("q", PString location);
                              ("limit", PNumber 1)] ;;
               first_feature (data response)) 0 locations in
           results <- Promise_all (settle_order env) geocodePromises ;;
           logger LevelInfo
             ("Geocoded " ++ nat_to_string (length results) ++ " locations") [] ;;
           ret results)
          (fun error =>
             logger LevelError
               ("Batch geocoding error: " ++ err_message error)
               [("locationCount", MetaNumber (length locations));
                ("status", status_meta error)] ;;
             throw (Error "Failed to geocode locations"))
  end.

Definition getDistanceMatrix (this : MapboxService)
    (env : Environment DistanceMatrixResponse) (points : Arg Coordinate)
  : Run DistanceMatrixResponse :=
  match points with
  | NotArray => throw (Error "Invalid points. Minimum 2 coordinates required.")
  | ArrayOf points =>
      if length points <? 2 then
        throw (Error "Invalid points. Minimum 2 coordinates required.")
      else
        let coordinates := coordinates_path points in
        let url := MAPBOX_BASE_URL this ++ "/distances/v1/mapbox/driving/"
                   ++ coordinates in
        try_catch
          (response <- axios_get mapbox_retry env 0 url
                         [("access_token", PString (accessToken this));
                          ("annotations", PString "duration,distance")] ;;
           logger LevelInfo
             ("Distance matrix calculated for " ++ nat_to_string (length points)
              ++ " points") [] ;;
           ret (data response))
          (fun error =>
             logger LevelError
               ("Distance matrix error: " ++ err_message error)
               [("pointCount", MetaNumber (length points));
                ("status", status_meta error)] ;;
             throw (Error "Failed to fetch distance matrix"))
  end.

(** ** Arguments that escape the declared types

    The signatures declare arrays of coordinate pairs; a caller that is not
    type-checked can pass an array with any elements.  [getOptimizedRoute]
    and [getDistanceMatrix] use the elements once, in [coord.join(',')], and
    that expression is evaluated after the guard and before the [try] block
    is entered: on an element without a [join] method it throws the
    engine's [TypeError], which no [catch] block of the service handles.
    ([batchGeocode] passes its elements on as the query parameter [q] and
    [getElevation] interpolates its arguments into the URL; neither throws
    on a value of another type.) *)

(** An element of the array at run time: a coordinate pair, [null] or
    [undefined], or another value without a [join] method (a number, a
    string, a boolean, a plain object).  An array of another shape, on which
    [join] succeeds like on a pair, is not modelled. *)
Inductive Element : Type :=
| Pair (coord : Coordinate)
| Nullish (null : bool)
| NoJoin.

(** The exceptions of [coord.join(',')] (wording of V8). *)
Definition TypeError_nullish (null : bool) (property : string) : JsError :=
  mkJsError "TypeError"
    ("Cannot read properties of " ++ (if null then "null" else "undefined")
     ++ " (reading '" ++ property ++ "')")
    None None None None.

Definition TypeError_not_a_function (callee : string) : JsError :=
  mkJsError "TypeError" (callee ++ " is not a function") None None None None.

(** The callback of [map] runs on the elements in order; the first
    exception ends the loop.  When none is thrown the elements are coordinate
    pairs. *)
Fixpoint typed (elements : list Element) : list Coordinate + JsError :=
  match elements with
  | [] => inl []
  | Pair coord :: rest =>
      match typed rest with
      | inl coords => inl (coord :: coords)
      | inr error => inr error
      end
  | Nullish null :: _ => inr (TypeError_nullish null "join")
  | NoJoin :: _ => inr (TypeError_not_a_function "coord.join")
  end.

(** [getOptimizedRoute] on an array of any elements: the guard, which
    looks at the length only, then [coord.join] on every element, then the
    rest of the method as above. *)
Definition getOptimizedRoute_untyped (this : MapboxService)
    (env : Environment OptimizedRouteResponse) (waypoints : list Element)
  : Run OptimizedRouteResponse :=
  if length waypoints <? 2 then
    throw (Error "Invalid waypoints. Minimum 2 coordinates required.")
  else
    match typed waypoints with
    | inr error => throw error
    | inl waypoints => getOptimizedRoute this env (ArrayOf waypoints)
    end.

(** [getDistanceMatrix] on an array of any elements. *)
Definition getDistanceMatrix_untyped (this : MapboxService)
    (env : Environment DistanceMatrixResponse) (points : list Element)
  : Run DistanceMatrixResponse :=
  if length points <? 2 then
    throw (Error "Invalid points. Minimum 2 coordinates required.")
  else
    match typed points with
    | inr error => throw error
    | inl points => getDistanceMatrix this env (ArrayOf points)
    end.

End MapboxService.

(** * Vocabulary of the properties *)

Section Vocabulary.
Context `{JsNumber} `{RetryAllowed}.

(** ** Observations on a trace *)

(** The requests put on the wire, in order. *)
Definition sent (t : list Effect) : list AxiosRequestConfig :=
  flat_map (fun eff => match eff with Send _ _ req => [req] | _ => [] end) t.

(** The log events, in order. *)
Definition logged (t : list Effect) : list LogEvent :=
  flat_map (fun eff => match eff with Log ev => [ev] | _ => [] end) t.

(** The back-off waits, in order. *)
Definition waits (t : list Effect) : list Q :=
  flat_map (fun eff => match eff with Sleep ms => [ms] | _ => [] end) t.

(** The event that the [onRetry] callback of the constructor logs. *)
Definition retry_event (retryCount : nat) : LogEvent :=
  {| ev_level := LevelWarn;
     ev_message := "Retry attempt " ++ nat_to_string retryCount
                   ++ " for Mapbox API call";
     ev_meta := [] |}.

(** [s.startsWith(p)] *)
Fixpoint starts_with (p s : string) : bool :=
  match p with
  | EmptyString => true
  | String a p' =>
      match s with
      | EmptyString => false
      | String b s' => Ascii.eqb a b && starts_with p' s'
      end
  end.

(** The retry events of a trace: the warnings that say "Retry attempt". *)
Definition is_retry_event (ev : LogEvent) : bool :=
  match ev_level ev with
  | LevelWarn => starts_with "Retry attempt " (ev_message ev)
  | _ => false
  end.

Definition retry_events (t : list Effect) : list LogEvent :=
  filter is_retry_event (logged t).

(** ** The retry policy *)

(** The GET request of [axios.get(url, { params })]. *)
Definition get (url : string) (params : list (string * ParamValue))
  : AxiosRequestConfig :=
  {| req_method := "get"; req_url := url; req_params := params |}.

(** Whether the interceptor asks for a retry on the answer [r] to an attempt
    of [req]: the attempt is rejected and the constructor's [retryCondition]
    accepts the error. *)
Definition retried {B} (req : AxiosRequestConfig) (r : HttpResult B) : bool :=
  match settle req r with
  | inl _ => false
  | inr error => mapbox_retryCondition error
  end.

(** The error with which axios rejects an attempt of [req] that is
    answered by [r], when it rejects it. *)
Definition rejection {B} (req : AxiosRequestConfig) (r : HttpResult B) : JsError :=
  match r with
  | NoResponse code message => AxiosError_network req code message
  | Response status headers _ => AxiosError_status req status headers
  end.

(** The answers on which a GET is retried, in terms of the exchange: no
    response and an error code other than [ECONNABORTED], or a response with
    status 429 or 5xx.  ([ECONNABORTED] is the code axios gives to a request
    it aborts, as when its own [timeout] option expires; the service sets no
    such option.  A timeout of the connection reported by Node, code
    [ETIMEDOUT], is in the class.) *)
Definition retry_class {B} (r : HttpResult B) : bool :=
  match r with
  | NoResponse code _ =>
      match code with
      | Some c => negb (String.eqb c "ECONNABORTED")
      | None => true
      end
  | Response status _ _ => (status =? 429) || ((500 <=? status) && (status <=? 599))
  end.

(** The retry condition as the specification words it: a failure on the
    network level (no response), or status 429. *)
Definition spec_retry_class {B} (r : HttpResult B) : bool :=
  match r with
  | NoResponse _ _ => true
  | Response status _ _ => status =? 429
  end.

(** What the interceptor adds to the trace for retries [from], ...,
    [from + n - 1]: the warning, the wait, the next attempt.  The wait
    before retry [k] is computed from the error of the attempt before it. *)
Definition retry_steps {B} (env : Environment B) (slot : nat)
    (req : AxiosRequestConfig) (from n : nat) : list Effect :=
  flat_map (fun k => [Log (retry_event k);
                      Sleep (exponentialDelay (Math_random env slot k) k
                               (rejection req (exchange env slot req (pred k))));
                      Send slot k req])
           (seq from n).

(** ** The calls and the log events of the methods *)

Definition route_url (this : MapboxService) (waypoints : list Coordinate) : string :=
  MAPBOX_BASE_URL this ++ "/optimized-trips/v1/mapbox/driving/"
  ++ coordinates_path waypoints.

Definition route_params (this : MapboxService) : list (string * ParamValue) :=
  [("access_token", PString (accessToken this)); ("geometries", PString "geojson")].

Definition route_call (this : MapboxService)
    (env : Environment OptimizedRouteResponse) (waypoints : list Coordinate)
  : Run (AxiosResponse OptimizedRouteResponse) :=
  axios_get mapbox_retry env 0 (route_url this waypoints) (route_params this).

Definition matrix_url (this : MapboxService) (points : list Coordinate) : string :=
  MAPBOX_BASE_URL this ++ "/distances/v1/mapbox/driving/" ++ coordinates_path points.

Definition matrix_params (this : MapboxService) : list (string * ParamValue) :=
  [("access_token", PString (accessToken this));
   ("annotations", PString "duration,distance")].

Definition matrix_call (this : MapboxService)
    (env : Environment DistanceMatrixResponse) (points : list Coordinate)
  : Run (AxiosResponse DistanceMatrixResponse) :=
  axios_get mapbox_retry env 0 (matrix_url this points) (matrix_params this).

Definition elevation_url (this : MapboxService) (longitude latitude : number) : string :=
  MAPBOX_BASE_URL this ++ "/v4/mapbox.mapbox-terrain-v2/tilequery/"
  ++ Number_toString longitude ++ "," ++ Number_toString latitude ++ ".json".

Definition elevation_params (this : MapboxService) : list (string * ParamValue) :=
  [("access_token", PString (accessToken this));
   ("layers", PString "contour");
   ("limit", PNumber 1)].

Definition elevation_call (this : MapboxService)
    (env : Environment ElevationResponse) (longitude latitude : number)
  : Run (AxiosResponse ElevationResponse) :=
  axios_get mapbox_retry env 0 (elevation_url this longitude latitude)
    (elevation_params this).

Definition geocode_url (this : MapboxService) : string :=
  MAPBOX_BASE_URL this ++ "/geocoding/v5/mapbox.places-permanent".

Definition geocode_params (this : MapboxService) (location : string)
  : list (string * ParamValue) :=
  [("access_token", PString (accessToken this));
   ("q", PString location);
   ("limit", PNumber 1)].

(** The provider call for the location at position [slot]. *)
Definition geocode_call (this : MapboxService) (env : Environment GeocodeResponse)
    (slot : nat) (location : string) : Run (AxiosResponse GeocodeResponse) :=
  axios_get mapbox_retry env slot (geocode_url this) (geocode_params this location).

(** The promise that the [map] callback of [batchGeocode] returns. *)
Definition geocode_promise (this : MapboxService) (env : Environment GeocodeResponse)
    (slot : nat) (location : string) : Run (option GeocodeResult) :=
  bind (geocode_call this env slot location)
       (fun response => first_feature (data response)).

(** The log events of the methods. *)
Definition info_event (message : string) : LogEvent :=
  {| ev_level := LevelInfo; ev_message := message; ev_meta := [] |}.

Definition failure_event (operation : string) (error : JsError)
    (summary : string * MetaValue) : LogEvent :=
  {| ev_level := LevelError;
     ev_message := operation ++ ": " ++ err_message error;
     ev_meta := [summary; ("status", status_meta error)] |}.

Definition coordinates_text (longitude latitude : number) : string :=
  Number_toString longitude ++ ", " ++ Number_toString latitude.

Definition no_elevation_event (longitude latitude : number) : LogEvent :=
  {| ev_level := LevelWarn;
     ev_message := "No elevation data for coordinates: "
                   ++ coordinates_text longitude latitude;
     ev_meta := [] |}.

(** ** Scenarios and arguments *)

(** The answers to the first two attempts carry status 429 and the answer
    to the third is accepted. *)
Definition rate_limited_twice {B} (env : Environment B) (slot : nat)
    (req : AxiosRequestConfig) (response : AxiosResponse B) : Prop :=
  (exists headers body, exchange env slot req 0 = Response 429 headers body) /\
  (exists headers body, exchange env slot req 1 = Response 429 headers body) /\
  (exists headers,
     exchange env slot req 2 = Response (status response) headers (data response)) /\
  validateStatus (status response) = true.

(** An argument that is not an array, or an array of fewer than [n]
    elements. *)
Definition shorter_than {A} (n : nat) (arg : Arg A) : Prop :=
  match arg with
  | NotArray => True
  | ArrayOf elements => length elements < n
  end.

(** The value of query parameter [name] of a request. *)
Definition param (name : string) (req : AxiosRequestConfig) : option ParamValue :=
  option_map snd (find (fun kv => String.eqb (fst kv) name) (req_params req)).

(** ** Serialisation of coordinates *)

(** The path segment as the specification words it: for each coordinate in
    turn the text of the longitude, a comma and the text of the latitude,
    with a semicolon between consecutive coordinates. *)
Fixpoint lonlat_path (coords : list Coordinate) : string :=
  match coords with
  | [] => ""
  | (lon, lat) :: rest =>
      let pair := Number_toString lon ++ "," ++ Number_toString lat in
      match rest with
      | [] => pair
      | _ :: _ => pair ++ ";" ++ lonlat_path rest
      end
  end.

(** Reading a path segment back: [s.split(sep)] for a one-character
    separator, and the segment as a list of longitude and latitude texts. *)
Fixpoint split_on (sep : ascii) (s : string) : list string :=
  match s with
  | EmptyString => [EmptyString]
  | String c s' =>
      if Ascii.eqb c sep then EmptyString :: split_on sep s'
      else match split_on sep s' with
           | [] => [String c EmptyString]
           | piece :: pieces => String c piece :: pieces
           end
  end.

Fixpoint free_of (sep : ascii) (s : string) : bool :=
  match s with
  | EmptyString => true
  | String c s' => negb (Ascii.eqb c sep) && free_of sep s'
  end.

Definition parse_pair (s : string) : option (string * string) :=
  match split_on "," s with
  | [lon; lat] => Some (lon, lat)
  | _ => None
  end.

Definition parse_path (s : string) : list (option (string * string)) :=
  map parse_pair (split_on ";" s).

Definition lonlat_texts (coord : Coordinate) : string * string :=
  (Number_toString (fst coord), Number_toString (snd coord)).

(** The texts of both numbers contain neither separator (as the texts of
    ECMAScript numbers do). *)
Definition plain (coord : Coordinate) : bool :=
  free_of "," (Number_toString (fst coord)) && free_of ";" (Number_toString (fst coord))
  && free_of "," (Number_toString (snd coord)) && free_of ";" (Number_toString (snd coord)).

(** ** Failure reporting *)

(** The input summary as the specification words it, counts and not
    payloads: every entry of the metadata other than [status] is a number. *)
Definition summary_is_count (ev : LogEvent) : bool :=
  forallb (fun kv => String.eqb (fst kv) "status"
                     || match snd kv with MetaNumber _ => true | _ => false end)
          (ev_meta ev).

(** ** Further observations on a trace *)

Definition is_error_event (ev : LogEvent) : bool :=
  match ev_level ev with
  | LevelError => true
  | _ => false
  end.

(** The error-level events of a trace. *)
Definition errors_logged (t : list Effect) : list LogEvent :=
  filter is_error_event (logged t).

(** The requests of the call at position [slot]. *)
Definition sent_at (slot : nat) (t : list Effect) : list AxiosRequestConfig :=
  flat_map (fun eff => match eff with
                       | Send s _ req => if s =? slot then [req] else []
                       | _ => []
                       end) t.

(** The sum of the back-off waits, in milliseconds. *)
Definition total_wait (t : list Effect) : Q :=
  fold_right Qplus 0%Q (waits t).

(** No response of the provider carries a [Retry-After] header. *)
Definition no_retry_after {B} (env : Environment B) : Prop :=
  forall slot req attempt status headers body,
    exchange env slot req attempt = Response status headers body ->
    retry_after headers = None.

(** ** The credential and what is observable *)

(** A trace without its requests: the log events and the waits, in order. *)
Definition without_requests (t : list Effect) : list Effect :=
  filter (fun eff => match eff with Send _ _ _ => false | _ => true end) t.

(** The provider's answer to an attempt depends on the method and the URL
    of the request, not on its query parameters (the token among them). *)
Definition answers_by_url {B} (env : Environment B) : Prop :=
  forall slot req req' attempt,
    req_method req = req_method req' -> req_url req = req_url req' ->
    exchange env slot req attempt = exchange env slot req' attempt.

(** The environment [env] with the concurrent calls settling in [order]. *)
Definition with_order {B} (env : Environment B) (order : list nat) : Environment B :=
  {| exchange := exchange env;
     Math_random := Math_random env;
     settle_order := order |}.

End Vocabulary.

(** * Sample data for concrete runs *)

Module Sample.

(** Integer-valued numbers, printed in decimal. *)
#[export] Instance integers : JsNumber :=
  {| number := Z;
     Number_toString := fun z => NilEmpty.string_of_int (Z.to_int z);
     Number_zero := 0%Z |}.

(** A deny list with the two DNS error codes. *)
#[export] Instance deny_dns : RetryAllowed :=
  fun error =>
    match err_code error with
    | Some c => negb (includes ["ENOTFOUND"; "ENETUNREACH"] c)
    | None => true
    end.

Definition sample_service : MapboxService :=
  {| MAPBOX_BASE_URL := "https://api.mapbox.com"; accessToken := "pk.sample" |}.

(** An environment given by the answers per call and attempt; the random
    draw is always one half. *)
Definition sample_env {B} (answers : nat -> nat -> HttpResult B) (order : list nat)
  : Environment B :=
  {| exchange := fun slot _ attempt => answers slot attempt;
     Math_random := fun _ _ => (1 # 2)%Q;
     settle_order := order |}.

Definition sample_route : OptimizedRouteResponse :=
  {| route_code := "Ok"; route_waypoints := []; route_trips := [] |}.

Definition sample_matrix : DistanceMatrixResponse :=
  {| matrix_code := "Ok"; destinations := []; sources := [];
     distances := [[0; 7]; [7; 0]]%Z; durations := [[0; 3]; [3; 0]]%Z;
     annotations := None |}.

Definition sample_feature : ElevationFeature :=
  {| feature_type := "Feature";
     properties := {| ele := 120%Z |};
     geometry := {| geometry_type := "Point"; geometry_coordinates := (2, 49)%Z |} |}.

Definition paris : GeocodeResult :=
  {| result_type := "Feature";
     result_id := "place.1";
     place_name := "Paris, France";
     place_type := ["place"];
     relevance := 1%Z;
     result_properties := {| short_code := None; wikidata := Some "Q90" |};
     result_text := "Paris";
     center := (2, 49)%Z;
     result_geometry := {| geometry_type := "Point";
                           geometry_coordinates := (2, 49)%Z |};
     context := None |}.

Definition two_waypoints : list Coordinate := [(2, 49); (-3, 40)]%Z.
Definition one_waypoint : list Coordinate := [(2, 49)]%Z.
Definition sample_longitude : @number integers := 2%Z.
Definition sample_latitude : @number integers := 49%Z.

(** Status 429 twice, then 200. *)
Definition env_429_429_200 {B} (body : B) : Environment B :=
  sample_env (fun _ attempt => if attempt <? 2 then Response 429 no_headers body
                               else Response 200 no_headers body) [].

(** The same status on every attempt. *)
Definition env_status {B} (status : nat) (body : B) : Environment B :=
  sample_env (fun _ _ => Response status no_headers body) [].

(** Status 503 once, then 200. *)
Definition env_503_200 {B} (body : B) : Environment B :=
  sample_env (fun _ attempt => if attempt <? 1 then Response 503 no_headers body
                               else Response 200 no_headers body) [].

(** Status 429 with [Retry-After: 1] twice, then 200. *)
Definition env_retry_after {B} (body : B) : Environment B :=
  sample_env (fun _ attempt =>
                if attempt <? 2
                then Response 429 {| retry_after := Some (DelaySeconds 1) |} body
                else Response 200 no_headers body) [].

(** Every attempt ends without a response, the connection aborted. *)
Definition env_aborted {B} : Environment B :=
  sample_env (fun _ _ => NoResponse (Some "ECONNABORTED") "read ECONNABORTED") [].

(** The connection times out once (Node's [ETIMEDOUT]), then 200. *)
Definition env_timed_out_200 {B} (body : B) : Environment B :=
  sample_env (fun _ attempt =>
                if attempt <? 1
                then NoResponse (Some "ETIMEDOUT") "connect ETIMEDOUT 151.101.0.1:443"
                else Response 200 no_headers body) [].

(** Geocoding: Paris is found, the other location is not (empty array).
    The second call settles first. *)
Definition env_paris : Environment GeocodeResponse :=
  sample_env (fun slot _ => match slot with
                            | 0 => Response 200 no_headers {| features := Some [paris] |}
                            | _ => Response 200 no_headers {| features := Some [] |}
                            end) [1; 0].

(** Geocoding: the call for the second location is answered with 404. *)
Definition env_second_fails : Environment GeocodeResponse :=
  sample_env (fun slot _ => match slot with
                            | 0 => Response 200 no_headers {| features := Some [paris] |}
                            | _ => Response 404 no_headers {| features := None |}
                            end) [1; 0].

(** Geocoding: the body for the second location has no [features] member. *)
Definition env_missing_features : Environment GeocodeResponse :=
  sample_env (fun slot _ => match slot with
                            | 0 => Response 200 no_headers {| features := Some [paris] |}
                            | _ => Response 200 no_headers {| features := None |}
                            end) [0; 1].

(** The sample service with another token. *)
Definition other_service : MapboxService :=
  {| MAPBOX_BASE_URL := "https://api.mapbox.com"; accessToken := "pk.other" |}.

End Sample.

(** * Properties *)

Section Properties.
Context `{JsNumber} `{RetryAllowed}.

(** ** Traces and the monad *)

Lemma sent_app (t1 t2 : list Effect) : sent (t1 ++ t2) = (sent t1 ++ sent t2)%list.
Proof. apply flat_map_app. Qed.

Lemma logged_app (t1 t2 : list Effect) :
  logged (t1 ++ t2) = (logged t1 ++ logged t2)%list.
Proof. apply flat_map_app. Qed.

Lemma waits_app (t1 t2 : list Effect) : waits (t1 ++ t2) = (waits t1 ++ waits t2)%list.
Proof. apply flat_map_app. Qed.

Lemma retry_events_app (t1 t2 : list Effect) :
  retry_events (t1 ++ t2) = (retry_events t1 ++ retry_events t2)%list.
Proof. unfold retry_events. rewrite logged_app. apply filter_app. Qed.

Lemma is_retry_event_retry_event (k : nat) : is_retry_event (retry_event k) = true.
Proof. reflexivity. Qed.

Lemma trace_bind {A B} (m : Run A) (k : A -> Run B) :
  trace (bind m k) =
  match outcome m with
  | inl a => (trace m ++ trace (k a))%list
  | inr _ => trace m
  end.
Proof.
  destruct m as [t [a | e]]; simpl; [ | reflexivity ].
  destruct (k a); reflexivity.
Qed.

Lemma outcome_bind {A B} (m : Run A) (k : A -> Run B) :
  outcome (bind m k) =
  match outcome m with
  | inl a => outcome (k a)
  | inr e => inr e
  end.
Proof.
  destruct m as [t [a | e]]; simpl; [ | reflexivity ].
  destruct (k a); reflexivity.
Qed.

Lemma trace_try_catch {A} (m : Run A) (handler : JsError -> Run A) :
  trace (try_catch m handler) =
  match outcome m with
  | inl _ => trace m
  | inr e => (trace m ++ trace (handler e))%list
  end.
Proof.
  destruct m as [t [a | e]]; simpl; [ reflexivity | ].
  destruct (handler e); reflexivity.
Qed.

Lemma outcome_try_catch {A} (m : Run A) (handler : JsError -> Run A) :
  outcome (try_catch m handler) =
  match outcome m with
  | inl a => inl a
  | inr e => outcome (handler e)
  end.
Proof.
  destruct m as [t [a | e]]; simpl; [ reflexivity | ].
  destruct (handler e); reflexivity.
Qed.

(** ** The retry condition and the retry loop *)

(** On a request with an idempotent method the deny list plays no role:
    every error that [isNetworkError] accepts is accepted by
    [isIdempotentRequestError] as well. *)
Lemma isNetworkOrIdempotentRequestError_get (error : JsError) :
  err_method error = Some "get" ->
  isNetworkOrIdempotentRequestError error = isRetryableError error.
Proof.
  intros Hm. unfold isNetworkOrIdempotentRequestError, isIdempotentRequestError.
  rewrite Hm. change (includes IDEMPOTENT_HTTP_METHODS "get") with true.
  rewrite andb_true_r.
  destruct (isRetryableError error) eqn:Hr; [ apply orb_true_r | ].
  rewrite orb_false_r. revert Hr.
  unfold isNetworkError, isRetryableError, code_is.
  destruct (err_status error) as [s | ]; [ reflexivity | ].
  destruct (err_code error) as [c | ]; [ | reflexivity ].
  rewrite andb_true_r. intros Hc. apply negb_false_iff in Hc.
  apply String.eqb_eq in Hc. subst c. reflexivity.
Qed.

Lemma AxiosError_status_not_aborted (req : AxiosRequestConfig) (status : nat)
    (headers : Headers) :
  code_is (AxiosError_status req status headers) "ECONNABORTED" = false.
Proof.
  unfold code_is, AxiosError_status; cbn [err_code].
  destruct ((400 <=? status) && (status <? 500)); reflexivity.
Qed.

(** A rejected attempt is rejected with [rejection]. *)
Lemma settle_rejection {B} (req : AxiosRequestConfig) (r : HttpResult B)
    (error : JsError) :
  settle req r = inr error -> error = rejection req r.
Proof.
  unfold settle, rejection. destruct r as [code message | status headers body].
  - congruence.
  - destruct ((status =? 0) || validateStatus status); congruence.
Qed.

Lemma retried_retry_class {B} (req : AxiosRequestConfig) (r : HttpResult B) :
  req_method req = "get" -> retried req r = retry_class r.
Proof.
  intros Hm. unfold retried, mapbox_retryCondition, settle.
  destruct r as [code message | status headers body]; cbn [retry_class].
  - rewrite isNetworkOrIdempotentRequestError_get
      by (unfold AxiosError_network; cbn [err_method]; congruence).
    unfold isRetryableError, code_is, AxiosError_network; cbn [err_status err_code].
    rewrite orb_false_r, andb_true_r. destruct code; reflexivity.
  - destruct ((status =? 0) || validateStatus status) eqn:Hok.
    + apply orb_true_iff in Hok. unfold validateStatus in Hok.
      rewrite andb_true_iff, Nat.eqb_eq, Nat.leb_le, Nat.ltb_lt in Hok.
      symmetry. apply orb_false_iff. split.
      * apply Nat.eqb_neq. lia.
      * apply andb_false_iff. left. apply Nat.leb_gt. lia.
    + rewrite isNetworkOrIdempotentRequestError_get
        by (unfold AxiosError_status; cbn [err_method]; congruence).
      unfold isRetryableError. rewrite AxiosError_status_not_aborted.
      unfold AxiosError_status; cbn [err_status negb andb].
      destruct (status =? 429); destruct ((500 <=? status) && (status <=? 599));
        reflexivity.
Qed.

Lemma request_mapbox_retry {B} (env : Environment B) (slot : nat)
    (req : AxiosRequestConfig) (retries_left retryCount : nat) :
  request mapbox_retry env slot req retries_left retryCount =
  match settle req (exchange env slot req retryCount) with
  | inl response => ([Send slot retryCount req], inl response)
  | inr error =>
      match retries_left with
      | 0 => ([Send slot retryCount req], inr error)
      | S retries_left' =>
          if mapbox_retryCondition error then
            let next := request mapbox_retry env slot req retries_left' (S retryCount) in
            (Send slot retryCount req
             :: Log (retry_event (S retryCount))
             :: Sleep (exponentialDelay (Math_random env slot (S retryCount))
                         (S retryCount) error)
             :: trace next,
             outcome next)
          else ([Send slot retryCount req], inr error)
      end
  end.
Proof.
  destruct retries_left as [ | retries_left'];
    cbn [request bind emit mapbox_retry retryCondition onRetry retryDelay];
    destruct (settle req (exchange env slot req retryCount)) as [response | error];
    cbn [ret throw app]; try reflexivity.
  destruct (mapbox_retryCondition error); cbn [throw app]; [ | reflexivity ].
  unfold mapbox_onRetry, logger, emit. cbn [bind app].
  destruct (request mapbox_retry env slot req retries_left' (S retryCount)) as [t o].
  reflexivity.
Qed.

(** The run of one call, for any budget and any count so far: [n] retries
    are made, where [n] is the number of leading answers of the retry class,
    capped by the budget. *)
Lemma request_run {B} (env : Environment B) (slot : nat) (req : AxiosRequestConfig) :
  req_method req = "get" ->
  forall retries_left retryCount,
  exists n,
    n <= retries_left /\
    (forall j, j < n -> retry_class (exchange env slot req (retryCount + j)) = true) /\
    (n < retries_left ->
     retry_class (exchange env slot req (retryCount + n)) = false) /\
    trace (request mapbox_retry env slot req retries_left retryCount) =
      Send slot retryCount req :: retry_steps env slot req (S retryCount) n /\
    outcome (request mapbox_retry env slot req retries_left retryCount) =
      settle req (exchange env slot req (retryCount + n)).
Proof.
  intros Hget retries_left.
  induction retries_left as [ | retries_left' IH]; intros retryCount;
    rewrite request_mapbox_retry;
    pose proof (retried_retry_class req (exchange env slot req retryCount) Hget) as Hclass;
    unfold retried in Hclass;
    destruct (settle req (exchange env slot req retryCount)) as [response | error] eqn:Hsettle.
  - exists 0. rewrite Nat.add_0_r, Hsettle. repeat split; try lia.
  - exists 0. rewrite Nat.add_0_r, Hsettle. repeat split; try lia.
  - exists 0. rewrite Nat.add_0_r, Hsettle. repeat split; try lia.
    intros _. congruence.
  - destruct (mapbox_retryCondition error) eqn:Hretry.
    + destruct (IH (S retryCount)) as (n & Hle & Hall & Hstop & Htrace & Hout).
      exists (S n). cbn [trace outcome fst snd]. repeat split.
      * lia.
      * intros [ | j] Hj.
        -- rewrite Nat.add_0_r. congruence.
        -- rewrite <- Nat.add_succ_comm. apply Hall. lia.
      * intros Hn. rewrite <- Nat.add_succ_comm. apply Hstop. lia.
      * rewrite Htrace. unfold retry_steps. cbn [seq flat_map pred app].
        rewrite (settle_rejection _ _ _ Hsettle). reflexivity.
      * rewrite <- Nat.add_succ_comm. exact Hout.
    + exists 0. rewrite Nat.add_0_r, Hsettle. repeat split; try lia.
      intros _. congruence.
Qed.

Lemma sent_retry_steps {B} (env : Environment B) slot req from n :
  sent (retry_steps env slot req from n) = repeat req n.
Proof.
  revert from. induction n as [ | n IH]; intros from; [ reflexivity | ].
  unfold retry_steps in *. cbn [seq flat_map]. rewrite sent_app, IH. reflexivity.
Qed.

Lemma logged_retry_steps {B} (env : Environment B) slot req from n :
  logged (retry_steps env slot req from n) = map retry_event (seq from n).
Proof.
  revert from. induction n as [ | n IH]; intros from; [ reflexivity | ].
  unfold retry_steps in *. cbn [seq flat_map]. rewrite logged_app, IH. reflexivity.
Qed.

Lemma waits_retry_steps {B} (env : Environment B) slot req from n :
  waits (retry_steps env slot req from n) =
  map (fun k => exponentialDelay (Math_random env slot k) k
                  (rejection req (exchange env slot req (pred k))))
      (seq from n).
Proof.
  revert from. induction n as [ | n IH]; intros from; [ reflexivity | ].
  unfold retry_steps in *. cbn [seq flat_map]. rewrite waits_app, IH. reflexivity.
Qed.

Lemma retry_events_retry_steps {B} (env : Environment B) slot req from n :
  retry_events (retry_steps env slot req from n) = map retry_event (seq from n).
Proof.
  unfold retry_events. rewrite logged_retry_steps.
  induction (seq from n) as [ | k l IH]; [ reflexivity | ].
  cbn [map filter]. rewrite is_retry_event_retry_event, IH. reflexivity.
Qed.

(** [Math.max] is one of its arguments and not below either. *)
Lemma Math_max_ge_l (a b : Q) : (a <= Math_max a b)%Q.
Proof.
  unfold Math_max. destruct (Qle_bool a b) eqn:Hle.
  - apply Qle_bool_iff. exact Hle.
  - apply Qle_refl.
Qed.

Lemma Math_max_ge_r (a b : Q) : (b <= Math_max a b)%Q.
Proof.
  unfold Math_max. destruct (Qle_bool a b) eqn:Hle.
  - apply Qle_refl.
  - apply Qlt_le_weak, Qnot_le_lt. intros Hab.
    apply Qle_bool_iff in Hab. congruence.
Qed.

Lemma calculatedDelay_pos (k : nat) : (0 < inject_Z (2 ^ Z.of_nat k * 100))%Q.
Proof.
  assert (Hpos : (0 < 2 ^ Z.of_nat k)%Z) by (apply Z.pow_pos_nonneg; lia).
  unfold Qlt, inject_Z. cbn [Qnum Qden]. lia.
Qed.

(** [retryAfter] is never negative, and [0] without the header. *)
Lemma retryAfter_nonneg (error : JsError) : (0 <= retryAfter error)%Q.
Proof.
  unfold retryAfter. destruct (err_retry_after error) as [[seconds | ms] | ].
  - apply Math_max_ge_l.
  - apply Math_max_ge_l.
  - apply Qle_refl.
Qed.

Lemma retryAfter_None (error : JsError) :
  err_retry_after error = None -> retryAfter error = 0%Q.
Proof. intros Hnone. unfold retryAfter. rewrite Hnone. reflexivity. Qed.

(** Without a [Retry-After] header the delay is the calculated one plus
    the jitter. *)
Lemma exponentialDelay_None (rnd : Q) (k : nat) (error : JsError) :
  err_retry_after error = None ->
  exponentialDelay rnd k error =
  (inject_Z (2 ^ Z.of_nat k * 100)
   + inject_Z (2 ^ Z.of_nat k * 100) * (2 # 10) * rnd)%Q.
Proof.
  intros Hnone. unfold exponentialDelay. rewrite (retryAfter_None _ Hnone).
  cbv zeta. unfold Math_max.
  destruct (Qle_bool (inject_Z (2 ^ Z.of_nat k * 100)) 0) eqn:Hle; [ | reflexivity ].
  apply Qle_bool_iff in Hle. pose proof (calculatedDelay_pos k) as Hpos.
  exfalso. exact (Qlt_not_le _ _ Hpos Hle).
Qed.

(** The delay before retry [k] is at least [100 * 2^k] milliseconds and at
    least what the [Retry-After] header of the rejected response asks for. *)
Lemma exponentialDelay_lower (rnd : Q) (k : nat) (error : JsError) :
  (0 <= rnd)%Q ->
  (inject_Z (100 * 2 ^ Z.of_nat k) <= exponentialDelay rnd k error)%Q /\
  (retryAfter error <= exponentialDelay rnd k error)%Q.
Proof.
  intros Hlo. unfold exponentialDelay. cbv zeta.
  pose proof (Math_max_ge_l (inject_Z (2 ^ Z.of_nat k * 100)) (retryAfter error)) as Hl.
  pose proof (Math_max_ge_r (inject_Z (2 ^ Z.of_nat k * 100)) (retryAfter error)) as Hr.
  pose proof (calculatedDelay_pos k) as Hpos.
  set (delay := Math_max (inject_Z (2 ^ Z.of_nat k * 100)) (retryAfter error)) in *.
  assert (Hjitter : (0 <= delay * (2 # 10) * rnd)%Q).
  { apply Qmult_le_0_compat; [ | exact Hlo ].
    apply Qmult_le_0_compat; [ | discriminate ].
    apply Qle_trans with (inject_Z (2 ^ Z.of_nat k * 100));
      [ apply Qlt_le_weak; exact Hpos | exact Hl ]. }
  replace (100 * 2 ^ Z.of_nat k)%Z with (2 ^ Z.of_nat k * 100)%Z by lia.
  split; lra.
Qed.

(** Without a [Retry-After] header the delay before retry [k] lies between
    [100 * 2^k] and [120 * 2^k] milliseconds and doubles from one retry to
    the next. *)
Lemma exponentialDelay_bounds (rnd : Q) (k : nat) (error : JsError) :
  err_retry_after error = None ->
  (0 <= rnd)%Q -> (rnd <= 1)%Q ->
  (inject_Z (100 * 2 ^ Z.of_nat k) <= exponentialDelay rnd k error)%Q /\
  (exponentialDelay rnd k error <= inject_Z (120 * 2 ^ Z.of_nat k))%Q.
Proof.
  intros Hnone Hlo Hhi. rewrite (exponentialDelay_None _ _ _ Hnone).
  assert (Hpos : (0 < 2 ^ Z.of_nat k)%Z) by (apply Z.pow_pos_nonneg; lia).
  set (p := (2 ^ Z.of_nat k)%Z) in *.
  destruct rnd as [a b]. unfold Qle, Qplus, Qmult, inject_Z in *.
  cbn [Qnum Qden] in *. rewrite ?Pos2Z.inj_mul.
  change (Z.pos 1) with 1%Z. change (Z.pos 10) with 10%Z.
  split; nia.
Qed.

Lemma exponentialDelay_doubles (rnd : Q) (k : nat) (error error' : JsError) :
  err_retry_after error = None -> err_retry_after error' = None ->
  (exponentialDelay rnd (S k) error' == 2 * exponentialDelay rnd k error)%Q.
Proof.
  intros Hnone Hnone'.
  rewrite (exponentialDelay_None _ _ _ Hnone), (exponentialDelay_None _ _ _ Hnone').
  rewrite Nat2Z.inj_succ, Z.pow_succ_r by lia.
  set (p := (2 ^ Z.of_nat k)%Z).
  replace (2 * p * 100)%Z with (2 * (p * 100))%Z by lia.
  rewrite inject_Z_mult. ring.
Qed.

(** ** The runs of the four methods

    Each method, on an argument that passes validation, is its outbound
    call (or calls) followed by one log event; the equations below say which,
    by the outcome of the call. *)

Lemma getOptimizedRoute_run (this : MapboxService)
    (env : Environment OptimizedRouteResponse) (waypoints : list Coordinate) :
  2 <= length waypoints ->
  getOptimizedRoute this env (ArrayOf waypoints) =
  let call := route_call this env waypoints in
  match outcome call with
  | inl response =>
      ((trace call
        ++ [Log (info_event ("Route optimized for "
                             ++ nat_to_string (length waypoints) ++ " waypoints"))])%list,
       inl (data response))
  | inr error =>
      ((trace call
        ++ [Log (failure_event "Route optimization error" error
                   ("waypoints", MetaCoordinates waypoints))])%list,
       inr (Error "Failed to optimize route"))
  end.
Proof.
  intros Hlen. unfold getOptimizedRoute.
  destruct (Nat.ltb_spec (length waypoints) 2) as [Hlt | _]; [ lia | ].
  unfold route_call, route_url, route_params.
  destruct (axios_get mapbox_retry env 0 _ _) as [t [response | error]]; reflexivity.
Qed.

Lemma getDistanceMatrix_run (this : MapboxService)
    (env : Environment DistanceMatrixResponse) (points : list Coordinate) :
  2 <= length points ->
  getDistanceMatrix this env (ArrayOf points) =
  let call := matrix_call this env points in
  match outcome call with
  | inl response =>
      ((trace call
        ++ [Log (info_event ("Distance matrix calculated for "
                             ++ nat_to_string (length points) ++ " points"))])%list,
       inl (data response))
  | inr error =>
      ((trace call
        ++ [Log (failure_event "Distance matrix error" error
                   ("pointCount", MetaNumber (length points)))])%list,
       inr (Error "Failed to fetch distance matrix"))
  end.
Proof.
  intros Hlen. unfold getDistanceMatrix.
  destruct (Nat.ltb_spec (length points) 2) as [Hlt | _]; [ lia | ].
  unfold matrix_call, matrix_url, matrix_params.
  destruct (axios_get mapbox_retry env 0 _ _) as [t [response | error]]; reflexivity.
Qed.

Lemma getElevation_run (this : MapboxService) (env : Environment ElevationResponse)
    (longitude latitude : number) :
  getElevation this env longitude latitude =
  let call := elevation_call this env longitude latitude in
  let failed error :=
    ((trace call
      ++ [Log (failure_event "Elevation fetch error" error
                 ("coordinates", MetaString (coordinates_text longitude latitude)))])%list,
     inr (Error "Failed to fetch elevation")) in
  match outcome call with
  | inl response =>
      match features (data response) with
      | Some (feature :: _) => (trace call, inl (ele (properties feature)))
      | Some [] =>
          ((trace call ++ [Log (no_elevation_event longitude latitude)])%list,
           inl Number_zero)
      | None => failed (TypeError_undefined "length")
      end
  | inr error => failed error
  end.
Proof.
  unfold getElevation, elevation_call, elevation_url, elevation_params.
  destruct (axios_get mapbox_retry env 0 _ _) as [t [response | error]];
    [ | reflexivity ].
  cbn [bind try_catch outcome trace fst snd].
  destruct (features (data response)) as [[ | feature fs] | ]; cbn; 
    rewrite ?app_nil_r; reflexivity.
Qed.

Lemma batchGeocode_run (this : MapboxService) (env : Environment GeocodeResponse)
    (locations : list string) :
  locations <> [] ->
  batchGeocode this env (ArrayOf locations) =
  let all := Promise_all (settle_order env)
               (map_from (geocode_promise this env) 0 locations) in
  match outcome all with
  | inl results =>
      ((trace all
        ++ [Log (info_event ("Geocoded " ++ nat_to_string (length results)
                             ++ " locations"))])%list,
       inl results)
  | inr error =>
      ((trace all
        ++ [Log (failure_event "Batch geocoding error" error
                   ("locationCount", MetaNumber (length locations)))])%list,
       inr (Error "Failed to geocode locations"))
  end.
Proof.
  intros Hne. unfold batchGeocode.
  destruct locations as [ | location locations']; [ congruence | ].
  cbn [length Nat.eqb].
  change (map_from _ 0 (location :: locations'))
    with (map_from (geocode_promise this env) 0 (location :: locations')).
  destruct (Promise_all (settle_order env) _) as [t [results | error]]; reflexivity.
Qed.

(** ** Promise.all *)

Lemma nth_error_map_from {A B} (f : nat -> A -> B) (l : list A) (from i : nat) :
  nth_error (map_from f from l) i = option_map (f (from + i)) (nth_error l i).
Proof.
  revert from i. induction l as [ | x l IH]; intros from [ | i]; cbn; try reflexivity.
  - rewrite Nat.add_0_r. reflexivity.
  - rewrite IH. rewrite Nat.add_succ_comm. reflexivity.
Qed.

Lemma length_map_from {A B} (f : nat -> A -> B) (l : list A) (from : nat) :
  length (map_from f from l) = length l.
Proof.
  revert from. induction l as [ | x l IH]; intros from; cbn; [ | rewrite IH ]; reflexivity.
Qed.

Lemma first_rejection_None {A} (ps : list (Run A)) :
  first_rejection ps = None <->
  forall i p, nth_error ps i = Some p -> exists a, outcome p = inl a.
Proof.
  induction ps as [ | p ps IH]; cbn [first_rejection].
  - split; [ intros _ [ | i] q Hq; discriminate | reflexivity ].
  - destruct (outcome p) as [a | e] eqn:Hp.
    + rewrite IH. split.
      * intros Hall [ | i] q Hq; cbn in Hq.
        -- injection Hq as <-. eauto.
        -- eauto.
      * intros Hall i q Hq. apply (Hall (S i) q). exact Hq.
    + split; [ discriminate | ].
      intros Hall. destruct (Hall 0 p eq_refl) as [a Ha]. congruence.
Qed.

Lemma earliest_rejection_Some {A} (order : list nat) (ps : list (Run A)) (e : JsError) :
  earliest_rejection order ps = Some e ->
  exists i p, nth_error ps i = Some p /\ outcome p = inr e.
Proof.
  induction order as [ | i order IH]; cbn [earliest_rejection]; [ discriminate | ].
  destruct (nth_error ps i) as [[t [a | e']] | ] eqn:Hi; try exact IH.
  intros [= ->]. exists i, (t, inr e). split; [ exact Hi | reflexivity ].
Qed.

Lemma first_rejection_Some {A} (ps : list (Run A)) (e : JsError) :
  first_rejection ps = Some e ->
  exists i p, nth_error ps i = Some p /\ outcome p = inr e.
Proof.
  induction ps as [ | p ps IH]; cbn [first_rejection]; [ discriminate | ].
  destruct (outcome p) as [a | e'] eqn:Hp.
  - intros Hr. destruct (IH Hr) as (i & q & Hq & Ho). exists (S i), q. auto.
  - intros [= ->]. exists 0, p. auto.
Qed.

Lemma nth_error_fulfilled_values {A} (ps : list (Run A)) :
  first_rejection ps = None ->
  forall i p a, nth_error ps i = Some p -> outcome p = inl a ->
  nth_error (fulfilled_values ps) i = Some a.
Proof.
  induction ps as [ | p ps IH]; cbn [first_rejection]; intros Hnone [ | i] q a Hq Ha;
    cbn in Hq; try discriminate.
  - injection Hq as <-. unfold fulfilled_values. cbn [flat_map]. rewrite Ha. reflexivity.
  - unfold fulfilled_values. cbn [flat_map]. revert Hnone.
    destruct (outcome p) as [b | e]; intros Hnone; [ | discriminate ].
    cbn [app nth_error]. exact (IH Hnone i q a Hq Ha).
Qed.

Lemma length_fulfilled_values {A} (ps : list (Run A)) :
  first_rejection ps = None -> length (fulfilled_values ps) = length ps.
Proof.
  induction ps as [ | p ps IH]; cbn [first_rejection]; [ reflexivity | ].
  unfold fulfilled_values. cbn [flat_map].
  destruct (outcome p) as [b | e]; intros Hnone; [ | discriminate ].
  cbn [app length]. f_equal. apply IH. exact Hnone.
Qed.

(** The combined promise is rejected as soon as one of its inputs is, with
    the reason of one of the rejected inputs. *)
Lemma Promise_all_rejected {A} (order : list nat) (ps : list (Run A))
    (i : nat) (p : Run A) (e : JsError) :
  nth_error ps i = Some p -> outcome p = inr e ->
  exists j q e',
    nth_error ps j = Some q /\ outcome q = inr e' /\
    outcome (Promise_all order ps) = inr e'.
Proof.
  intros Hp He. unfold Promise_all. cbn [outcome snd].
  destruct (earliest_rejection order ps) as [e1 | ] eqn:Hearly.
  - destruct (earliest_rejection_Some _ _ _ Hearly) as (j & q & Hq & Ho).
    exists j, q, e1. auto.
  - destruct (first_rejection ps) as [e2 | ] eqn:Hfirst.
    + destruct (first_rejection_Some _ _ Hfirst) as (j & q & Hq & Ho).
      exists j, q, e2. auto.
    + rewrite first_rejection_None in Hfirst.
      destruct (Hfirst i p Hp) as [a Ha]. congruence.
Qed.

(** It is fulfilled when all of its inputs are, with their values in the
    order of the inputs. *)
Lemma Promise_all_fulfilled {A} (order : list nat) (ps : list (Run A)) :
  (forall i p, nth_error ps i = Some p -> exists a, outcome p = inl a) ->
  outcome (Promise_all order ps) = inl (fulfilled_values ps) /\
  length (fulfilled_values ps) = length ps /\
  forall i p a, nth_error ps i = Some p -> outcome p = inl a ->
    nth_error (fulfilled_values ps) i = Some a.
Proof.
  intros Hall. pose proof (proj2 (first_rejection_None ps) Hall) as Hfirst.
  unfold Promise_all. cbn [outcome snd].
  destruct (earliest_rejection order ps) as [e1 | ] eqn:Hearly.
  - destruct (earliest_rejection_Some _ _ _ Hearly) as (j & q & Hq & Ho).
    destruct (Hall j q Hq) as [a Ha]. congruence.
  - rewrite Hfirst. split; [ reflexivity | ]. split.
    + apply length_fulfilled_values. exact Hfirst.
    + apply nth_error_fulfilled_values. exact Hfirst.
Qed.

(** ** Calls through the interceptor *)

Lemma retried_429 {B} (req : AxiosRequestConfig) (headers : Headers) (body : B) :
  settle req (Response 429 headers body) = inr (AxiosError_status req 429 headers) /\
  mapbox_retryCondition (AxiosError_status req 429 headers) = true.
Proof.
  split; [ reflexivity | ].
  unfold mapbox_retryCondition. apply orb_true_r.
Qed.

Lemma axios_get_rate_limited_twice {B} (env : Environment B) (slot : nat)
    (url : string) (params : list (string * ParamValue))
    (response : AxiosResponse B) :
  rate_limited_twice env slot (get url params) response ->
  axios_get mapbox_retry env slot url params =
  (Send slot 0 (get url params) :: retry_steps env slot (get url params) 1 2,
   inl response).
Proof.
  intros ((h0 & b0 & H0') & (h1 & b1 & H1') & [h2 H2'] & Hok).
  unfold axios_get, retry_steps. fold (get url params).
  cbn [mapbox_retry retries seq flat_map pred app].
  rewrite request_mapbox_retry, H0'.
  destruct (retried_429 (get url params) h0 b0) as [-> ->].
  cbn [trace outcome fst snd].
  rewrite request_mapbox_retry, H1'.
  destruct (retried_429 (get url params) h1 b1) as [-> ->].
  cbn [trace outcome fst snd].
  rewrite request_mapbox_retry, H2'. unfold settle. rewrite Hok, orb_true_r.
  destruct response as [s b]. reflexivity.
Qed.

Lemma axios_get_run {B} (env : Environment B) (slot : nat)
    (url : string) (params : list (string * ParamValue)) :
  let req := get url params in
  let run := axios_get mapbox_retry env slot url params in
  exists n,
    n <= 3 /\
    (forall j, j < n -> retry_class (exchange env slot req j) = true) /\
    (n < 3 -> retry_class (exchange env slot req n) = false) /\
    trace run = Send slot 0 req :: retry_steps env slot req 1 n /\
    outcome run = settle req (exchange env slot req n).
Proof.
  exact (request_run env slot (get url params) eq_refl 3 0).
Qed.

Lemma sent_axios_get {B} (env : Environment B) (slot : nat)
    (url : string) (params : list (string * ParamValue)) :
  exists n, n <= 3 /\
    sent (trace (axios_get mapbox_retry env slot url params)) =
    repeat (get url params) (S n).
Proof.
  destruct (axios_get_run env slot url params) as (n & Hn & _ & _ & Ht & _).
  exists n. split; [ exact Hn | ]. rewrite Ht.
  change (Send slot 0 (get url params) :: ?t) with ([Send slot 0 (get url params)] ++ t)%list.
  rewrite sent_app, sent_retry_steps. reflexivity.
Qed.

(** ** Batch geocoding *)

Lemma outcome_geocode_promise (this : MapboxService)
    (env : Environment GeocodeResponse) (slot : nat) (location : string) :
  outcome (geocode_promise this env slot location) =
  match outcome (geocode_call this env slot location) with
  | inl response =>
      match features (data response) with
      | Some fs => inl (nth_error fs 0)
      | None => inr (TypeError_undefined "0")
      end
  | inr error => inr error
  end.
Proof.
  unfold geocode_promise. rewrite outcome_bind.
  destruct (outcome (geocode_call this env slot location)) as [response | error];
    [ | reflexivity ].
  unfold first_feature. destruct (features (data response)); reflexivity.
Qed.

Lemma trace_geocode_promise (this : MapboxService)
    (env : Environment GeocodeResponse) (slot : nat) (location : string) :
  trace (geocode_promise this env slot location) =
  trace (geocode_call this env slot location).
Proof.
  unfold geocode_promise. rewrite trace_bind.
  destruct (outcome (geocode_call this env slot location)) as [response | error];
    [ | reflexivity ].
  unfold first_feature. destruct (features (data response)); apply app_nil_r.
Qed.

(** C2. For every non-empty list of locations, if the provider call for one
    of the locations ends in a failure (its retries exhausted, or a failure
    that is not retried), [batchGeocode] throws the error with the message
    "Failed to geocode locations" (the specification's GeocodingError) and
    returns no array, whatever the other calls give. *)
Theorem batchGeocode_all_or_nothing (this : MapboxService)
    (env : Environment GeocodeResponse) (locations : list string)
    (i : nat) (location : string) (error : JsError) :
  locations <> [] ->
  nth_error locations i = Some location ->
  outcome (geocode_call this env i location) = inr error ->
  outcome (batchGeocode this env (ArrayOf locations)) =
    inr (Error "Failed to geocode locations") /\
  forall results, outcome (batchGeocode this env (ArrayOf locations)) <> inl results.
Proof.
  intros Hne Hi Hfail.
  assert (Hthrown : outcome (batchGeocode this env (ArrayOf locations)) =
                    inr (Error "Failed to geocode locations")).
  { rewrite batchGeocode_run by exact Hne. cbv zeta.
    destruct (Promise_all_rejected (settle_order env)
                (map_from (geocode_promise this env) 0 locations)
                i (geocode_promise this env i location) error)
      as (j & q & e' & _ & _ & Hall).
    - rewrite nth_error_map_from, Hi. reflexivity.
    - rewrite outcome_geocode_promise, Hfail. reflexivity.
    - rewrite Hall. reflexivity. }
  split; [ exact Hthrown | ].
  intros results Hresults. rewrite Hthrown in Hresults. discriminate.
Qed.

(** When every promise of the batch is fulfilled, so is the batch, slot by
    slot. *)
Lemma batchGeocode_fulfilled (this : MapboxService)
    (env : Environment GeocodeResponse) (locations : list string) :
  locations <> [] ->
  (forall i location, nth_error locations i = Some location ->
   exists response fs,
     outcome (geocode_call this env i location) = inl response /\
     features (data response) = Some fs) ->
  exists results,
    outcome (batchGeocode this env (ArrayOf locations)) = inl results /\
    length results = length locations /\
    forall i location response fs,
      nth_error locations i = Some location ->
      outcome (geocode_call this env i location) = inl response ->
      features (data response) = Some fs ->
      nth_error results i = Some (nth_error fs 0).
Proof.
  intros Hne Hall.
  set (ps := map_from (geocode_promise this env) 0 locations).
  assert (Hps : forall i p, nth_error ps i = Some p -> exists a, outcome p = inl a).
  { intros i p Hp. unfold ps in Hp. rewrite nth_error_map_from in Hp.
    destruct (nth_error locations i) as [location | ] eqn:Hi; [ | discriminate ].
    injection Hp as <-.
    destruct (Hall i location Hi) as (response & fs & Hcall & Hfs).
    exists (nth_error fs 0). cbn [Nat.add].
    rewrite outcome_geocode_promise, Hcall, Hfs. reflexivity. }
  destruct (Promise_all_fulfilled (settle_order env) ps Hps) as (Hout & Hlen & Hnth).
  exists (fulfilled_values ps). split; [ | split ].
  - rewrite batchGeocode_run by exact Hne. cbv zeta. fold ps. rewrite Hout. reflexivity.
  - rewrite Hlen. apply length_map_from.
  - intros i location response fs Hi Hcall Hfs.
    apply (Hnth i (geocode_promise this env i location)).
    + unfold ps. rewrite nth_error_map_from, Hi. reflexivity.
    + rewrite outcome_geocode_promise, Hcall, Hfs. reflexivity.
Qed.

(** C5. For every non-empty list of locations, when the provider call for
    every location succeeds with a body that has a [features] array,
    [batchGeocode] returns an array of the length of the input whose element
    at position [i] is the first feature of the response for location [i],
    or [undefined] ([None]) when that array is empty: positions correspond
    and no slot is removed. *)
Theorem batchGeocode_positional (this : MapboxService)
    (env : Environment GeocodeResponse) (locations : list string) :
  locations <> [] ->
  (forall i location, nth_error locations i = Some location ->
   exists response fs,
     outcome (geocode_call this env i location) = inl response /\
     features (data response) = Some fs) ->
  exists results,
    outcome (batchGeocode this env (ArrayOf locations)) = inl results /\
    length results = length locations /\
    forall i location response fs,
      nth_error locations i = Some location ->
      outcome (geocode_call this env i location) = inl response ->
      features (data response) = Some fs ->
      nth_error results i = Some (nth_error fs 0).
Proof.
  exact (batchGeocode_fulfilled this env locations).
Qed.

(** ** Elevation *)

(** C4. For every coordinate, when the provider's answer to the elevation
    request is accepted and its [features] array is empty, [getElevation]
    returns 0 and the last thing it does is log a warning; when the array has
    a first feature, it returns that feature's [properties.ele]. *)
Theorem getElevation_features (this : MapboxService)
    (env : Environment ElevationResponse) (longitude latitude : number)
    (response : AxiosResponse ElevationResponse) :
  outcome (elevation_call this env longitude latitude) = inl response ->
  (features (data response) = Some [] ->
   outcome (getElevation this env longitude latitude) = inl Number_zero /\
   trace (getElevation this env longitude latitude) =
     (trace (elevation_call this env longitude latitude)
      ++ [Log {| ev_level := LevelWarn;
                 ev_message := "No elevation data for coordinates: "
                               ++ Number_toString longitude ++ ", "
                               ++ Number_toString latitude;
                 ev_meta := [] |}])%list) /\
  (forall feature rest,
   features (data response) = Some (feature :: rest) ->
   outcome (getElevation this env longitude latitude) =
     inl (ele (properties feature))).
Proof.
  intros Hcall. rewrite getElevation_run. cbv zeta. rewrite Hcall. split.
  - intros ->. split; reflexivity.
  - intros feature rest ->. reflexivity.
Qed.

(** C10. When the provider's answer to the elevation request is accepted
    but its body has no [features] member, [getElevation] does not return
    the default 0: reading [features.length] raises a TypeError inside the
    [try] block, the [catch] block logs it and the call throws the error with
    the message "Failed to fetch elevation" (the specification's
    ElevationLookupError). *)
Theorem getElevation_missing_features (this : MapboxService)
    (env : Environment ElevationResponse) (longitude latitude : number)
    (response : AxiosResponse ElevationResponse) :
  outcome (elevation_call this env longitude latitude) = inl response ->
  features (data response) = None ->
  outcome (getElevation this env longitude latitude) =
    inr (Error "Failed to fetch elevation") /\
  outcome (getElevation this env longitude latitude) <> inl Number_zero /\
  trace (getElevation this env longitude latitude) =
    (trace (elevation_call this env longitude latitude)
     ++ [Log {| ev_level := LevelError;
                ev_message := "Elevation fetch error: "
                              ++ err_message (TypeError_undefined "length");
                ev_meta := [("coordinates",
                             MetaString (Number_toString longitude ++ ", "
                                         ++ Number_toString latitude));
                            ("status", MetaUndefined)] |}])%list.
Proof.
  intros Hcall Hnone. rewrite getElevation_run. cbv zeta. rewrite Hcall, Hnone.
  split; [ reflexivity | ]. split; [ discriminate | reflexivity ].
Qed.

(** ** Validation *)

(** C6. For every argument that is not an array or has fewer than 2
    elements, [getOptimizedRoute] and [getDistanceMatrix] throw their
    validation error (the specification's ValidationError) with an empty
    trace: no request is sent and nothing else happens before the throw. *)
Theorem coordinates_validation (this : MapboxService)
    (envR : Environment OptimizedRouteResponse)
    (envM : Environment DistanceMatrixResponse) (arg : Arg Coordinate) :
  shorter_than 2 arg ->
  getOptimizedRoute this envR arg =
    ([], inr (Error "Invalid waypoints. Minimum 2 coordinates required.")) /\
  getDistanceMatrix this envM arg =
    ([], inr (Error "Invalid points. Minimum 2 coordinates required.")).
Proof.
  destruct arg as [ | elements]; cbn [shorter_than]; intros Hshort.
  - split; reflexivity.
  - unfold getOptimizedRoute, getDistanceMatrix.
    destruct (Nat.ltb_spec (length elements) 2) as [_ | Hge]; [ | lia ].
    split; reflexivity.
Qed.

(** C7. For every argument that is not an array or is the empty array,
    [batchGeocode] throws its validation error (the specification's
    ValidationError) with an empty trace: no request is sent. *)
Theorem locations_validation (this : MapboxService)
    (env : Environment GeocodeResponse) (arg : Arg string) :
  shorter_than 1 arg ->
  batchGeocode this env arg =
    ([], inr (Error "Invalid locations. Non-empty array required.")).
Proof.
  destruct arg as [ | [ | location locations]]; cbn [shorter_than length]; intros Hshort.
  - reflexivity.
  - reflexivity.
  - lia.
Qed.

(** ** The requests of each method *)

Lemma sent_log (t : list Effect) (ev : LogEvent) : sent (t ++ [Log ev]) = sent t.
Proof. rewrite sent_app. apply app_nil_r. Qed.

Lemma sent_getOptimizedRoute (this : MapboxService)
    (env : Environment OptimizedRouteResponse) (waypoints : list Coordinate) :
  2 <= length waypoints ->
  exists n, n <= 3 /\
    sent (trace (getOptimizedRoute this env (ArrayOf waypoints))) =
    repeat (get (route_url this waypoints) (route_params this)) (S n).
Proof.
  intros Hlen. rewrite getOptimizedRoute_run by exact Hlen. cbv zeta.
  unfold route_call.
  destruct (sent_axios_get env 0 (route_url this waypoints) (route_params this))
    as (n & Hn & Hsent).
  exists n. split; [ exact Hn | ].
  destruct (outcome (axios_get mapbox_retry env 0 _ _)); cbn [trace fst];
    rewrite sent_log; exact Hsent.
Qed.

Lemma sent_getDistanceMatrix (this : MapboxService)
    (env : Environment DistanceMatrixResponse) (points : list Coordinate) :
  2 <= length points ->
  exists n, n <= 3 /\
    sent (trace (getDistanceMatrix this env (ArrayOf points))) =
    repeat (get (matrix_url this points) (matrix_params this)) (S n).
Proof.
  intros Hlen. rewrite getDistanceMatrix_run by exact Hlen. cbv zeta.
  unfold matrix_call.
  destruct (sent_axios_get env 0 (matrix_url this points) (matrix_params this))
    as (n & Hn & Hsent).
  exists n. split; [ exact Hn | ].
  destruct (outcome (axios_get mapbox_retry env 0 _ _)); cbn [trace fst];
    rewrite sent_log; exact Hsent.
Qed.

Lemma sent_getElevation (this : MapboxService) (env : Environment ElevationResponse)
    (longitude latitude : number) :
  exists n, n <= 3 /\
    sent (trace (getElevation this env longitude latitude)) =
    repeat (get (elevation_url this longitude latitude) (elevation_params this)) (S n).
Proof.
  rewrite getElevation_run. cbv zeta. unfold elevation_call.
  destruct (sent_axios_get env 0 (elevation_url this longitude latitude)
              (elevation_params this)) as (n & Hn & Hsent).
  exists n. split; [ exact Hn | ].
  destruct (outcome (axios_get mapbox_retry env 0 _ _)) as [response | error];
    [ destruct (features (data response)) as [[ | feature fs] | ] | ];
    cbn [trace fst]; rewrite ?sent_log; exact Hsent.
Qed.

Lemma sent_geocode_promises (this : MapboxService) (env : Environment GeocodeResponse)
    (locations : list string) (from : nat) (req : AxiosRequestConfig) :
  In req (sent (concat (map trace (map_from (geocode_promise this env) from locations)))) ->
  exists location,
    In location locations /\
    req = get (geocode_url this) (geocode_params this location).
Proof.
  revert from. induction locations as [ | location locations IH]; intros from;
    cbn [map_from map concat].
  - intros [].
  - rewrite sent_app, in_app_iff, trace_geocode_promise. intros [Hhere | Hlater].
    + unfold geocode_call in Hhere.
      destruct (sent_axios_get env from (geocode_url this)
                  (geocode_params this location)) as (n & _ & Hsent).
      rewrite Hsent in Hhere. apply repeat_spec in Hhere.
      exists location. split; [ left; reflexivity | exact Hhere ].
    + destruct (IH (S from) Hlater) as (l & Hin & Hreq).
      exists l. split; [ right; exact Hin | exact Hreq ].
Qed.

Lemma sent_batchGeocode (this : MapboxService) (env : Environment GeocodeResponse)
    (arg : Arg string) (req : AxiosRequestConfig) :
  In req (sent (trace (batchGeocode this env arg))) ->
  exists locations location,
    arg = ArrayOf locations /\ In location locations /\
    req = get (geocode_url this) (geocode_params this location).
Proof.
  destruct arg as [ | locations]; [ intros [] | ].
  destruct locations as [ | l0 ls] eqn:Hlocs; [ intros [] | ].
  rewrite <- Hlocs. assert (Hne : locations <> []) by (subst; discriminate).
  rewrite batchGeocode_run by exact Hne. cbv zeta.
  intros Hin.
  assert (Hall : In req (sent (trace (Promise_all (settle_order env)
                   (map_from (geocode_promise this env) 0 locations))))).
  { destruct (outcome (Promise_all _ _)); cbn [trace fst] in Hin;
      rewrite sent_log in Hin; exact Hin. }
  destruct (sent_geocode_promises this env locations 0 req Hall) as (l & Hl & Hreq).
  exists locations, l. auto.
Qed.

(** C9. Constructing the service throws the error with the message "Mapbox
    access token is required" (the specification's ConfigurationError) if and
    only if the credential is absent or the empty string.  With a non-empty
    credential the constructor returns a service that stores it, and every
    request that any of the four methods of that service sends, first
    attempts and retries alike, carries it as the [access_token] query
    parameter. *)
Theorem credential_required (credential : option string) :
  (outcome (constructor credential) = inr (Error "Mapbox access token is required")
   <-> credential = None \/ credential = Some "") /\
  (forall token, credential = Some token -> token <> "" ->
   exists this,
     outcome (constructor credential) = inl this /\
     accessToken this = token /\
     (forall env arg req,
        In req (sent (trace (getOptimizedRoute this env arg))) ->
        param "access_token" req = Some (PString token)) /\
     (forall env longitude latitude req,
        In req (sent (trace (getElevation this env longitude latitude))) ->
        param "access_token" req = Some (PString token)) /\
     (forall env arg req,
        In req (sent (trace (batchGeocode this env arg))) ->
        param "access_token" req = Some (PString token)) /\
     (forall env arg req,
        In req (sent (trace (getDistanceMatrix this env arg))) ->
        param "access_token" req = Some (PString token))).
Proof.
  split.
  - destruct credential as [token | ]; cbn [constructor].
    + destruct (String.eqb_spec token "") as [-> | Hne].
      * split; [ intros _; right; reflexivity | reflexivity ].
      * split; [ discriminate | ].
        intros [Habs | Habs]; [ discriminate | congruence ].
    + split; [ intros _; left; reflexivity | reflexivity ].
  - intros token -> Hne. cbn [constructor].
    destruct (String.eqb_spec token "") as [Heq | _]; [ contradiction | ].
    set (this := {| MAPBOX_BASE_URL := "https://api.mapbox.com";
                    accessToken := token |}).
    exists this. split; [ reflexivity | ].
    split; [ reflexivity | ]. repeat split.
    + intros env [ | waypoints] req; [ intros [] | ].
      destruct (Nat.lt_ge_cases (length waypoints) 2) as [Hlt | Hge].
      * unfold getOptimizedRoute.
        destruct (Nat.ltb_spec (length waypoints) 2); [ intros [] | lia ].
      * destruct (sent_getOptimizedRoute this env waypoints Hge) as (n & _ & ->).
        intros Hin. apply repeat_spec in Hin. subst req. reflexivity.
    + intros env longitude latitude req.
      destruct (sent_getElevation this env longitude latitude) as (n & _ & ->).
      intros Hin. apply repeat_spec in Hin. subst req. reflexivity.
    + intros env arg req Hin.
      destruct (sent_batchGeocode this env arg req Hin) as (ls & l & _ & _ & ->).
      reflexivity.
    + intros env [ | points] req; [ intros [] | ].
      destruct (Nat.lt_ge_cases (length points) 2) as [Hlt | Hge].
      * unfold getDistanceMatrix.
        destruct (Nat.ltb_spec (length points) 2); [ intros [] | lia ].
      * destruct (sent_getDistanceMatrix this env points Hge) as (n & _ & ->).
        intros Hin. apply repeat_spec in Hin. subst req. reflexivity.
Qed.

(** ** Serialisation of coordinates *)

Lemma coordinates_path_lonlat_path (coords : list Coordinate) :
  coordinates_path coords = lonlat_path coords.
Proof.
  unfold coordinates_path, join.
  induction coords as [ | [lon lat] rest IH]; [ reflexivity | ].
  cbn [map String.concat lonlat_path].
  destruct rest as [ | coord rest']; [ reflexivity | ].
  cbn [map] in *. rewrite IH. reflexivity.
Qed.

Lemma split_on_free (sep : ascii) (s : string) :
  free_of sep s = true -> split_on sep s = [s].
Proof.
  induction s as [ | c s IH]; cbn [free_of split_on]; [ reflexivity | ].
  intros Hfree. apply andb_true_iff in Hfree. destruct Hfree as [Hc Hs].
  apply negb_true_iff in Hc. rewrite Hc, (IH Hs). reflexivity.
Qed.

Lemma split_on_app (sep : ascii) (a b : string) :
  free_of sep a = true ->
  split_on sep (a ++ String sep b) = a :: split_on sep b.
Proof.
  induction a as [ | c a IH]; cbn [free_of split_on String.append].
  - intros _. rewrite Ascii.eqb_refl. reflexivity.
  - intros Hfree. apply andb_true_iff in Hfree. destruct Hfree as [Hc Ha].
    apply negb_true_iff in Hc. rewrite Hc, (IH Ha). reflexivity.
Qed.

Lemma free_of_app (sep : ascii) (a b : string) :
  free_of sep (a ++ b) = free_of sep a && free_of sep b.
Proof.
  induction a as [ | c a IH]; cbn [free_of String.append]; [ reflexivity | ].
  rewrite IH. apply andb_assoc.
Qed.

Lemma parse_pair_lonlat (lon lat : string) :
  free_of "," lon = true -> free_of "," lat = true ->
  parse_pair (lon ++ "," ++ lat) = Some (lon, lat).
Proof.
  intros Hlon Hlat. unfold parse_pair.
  change (lon ++ "," ++ lat) with (lon ++ String "," lat).
  rewrite (split_on_app _ _ _ Hlon), (split_on_free _ _ Hlat). reflexivity.
Qed.

Lemma parse_path_lonlat_path (coords : list Coordinate) :
  coords <> [] -> forallb plain coords = true ->
  parse_path (lonlat_path coords) = map (fun coord => Some (lonlat_texts coord)) coords.
Proof.
  induction coords as [ | [lon lat] rest IH]; [ congruence | ].
  intros _ Hplain. cbn [forallb] in Hplain.
  apply andb_true_iff in Hplain. destruct Hplain as [Hhere Hrest].
  unfold plain in Hhere. cbn [fst snd] in Hhere.
  repeat (apply andb_true_iff in Hhere; destruct Hhere as [Hhere ?]).
  assert (Hpair : free_of ";" (Number_toString lon ++ "," ++ Number_toString lat) = true).
  { rewrite !free_of_app. repeat (apply andb_true_iff; split); auto. }
  cbn [lonlat_path map]. unfold parse_path in *.
  destruct rest as [ | coord rest'].
  - rewrite (split_on_free _ _ Hpair). cbn [map].
    rewrite parse_pair_lonlat by assumption. reflexivity.
  - change ((Number_toString lon ++ "," ++ Number_toString lat) ++ ";"
            ++ lonlat_path (coord :: rest'))
      with ((Number_toString lon ++ "," ++ Number_toString lat)
            ++ String ";" (lonlat_path (coord :: rest'))).
    rewrite (split_on_app _ _ _ Hpair). cbn [map].
    rewrite parse_pair_lonlat by assumption.
    rewrite IH by (try discriminate; exact Hrest). reflexivity.
Qed.

(** C8. For every coordinate sequence of length at least 2, every request
    that [getOptimizedRoute] and [getDistanceMatrix] send (at least one, at
    most four) has as its path the endpoint prefix followed by the
    coordinates as [lon,lat] pairs joined by [;].  The pairs stand in input
    order, none added and none dropped: when the texts of the numbers contain
    no separator, splitting the segment at [;] and each piece at [,] gives
    back the texts of the input coordinates, position by position. *)
Theorem coordinates_serialisation (this : MapboxService)
    (envR : Environment OptimizedRouteResponse)
    (envM : Environment DistanceMatrixResponse) (coords : list Coordinate) :
  2 <= length coords ->
  (exists n, n <= 3 /\
     sent (trace (getOptimizedRoute this envR (ArrayOf coords))) =
     repeat (get (MAPBOX_BASE_URL this ++ "/optimized-trips/v1/mapbox/driving/"
                  ++ lonlat_path coords)
                 (route_params this)) (S n)) /\
  (exists n, n <= 3 /\
     sent (trace (getDistanceMatrix this envM (ArrayOf coords))) =
     repeat (get (MAPBOX_BASE_URL this ++ "/distances/v1/mapbox/driving/"
                  ++ lonlat_path coords)
                 (matrix_params this)) (S n)) /\
  (forallb plain coords = true ->
   parse_path (lonlat_path coords) = map (fun coord => Some (lonlat_texts coord)) coords).
Proof.
  intros Hlen. split; [ | split ].
  - destruct (sent_getOptimizedRoute this envR coords Hlen) as (n & Hn & Hsent).
    exists n. split; [ exact Hn | ]. rewrite Hsent. unfold route_url.
    rewrite coordinates_path_lonlat_path. reflexivity.
  - destruct (sent_getDistanceMatrix this envM coords Hlen) as (n & Hn & Hsent).
    exists n. split; [ exact Hn | ]. rewrite Hsent. unfold matrix_url.
    rewrite coordinates_path_lonlat_path. reflexivity.
  - apply parse_path_lonlat_path. destruct coords; [ cbn in Hlen; lia | discriminate ].
Qed.

(** ** Failure reporting *)

(** C3 (amended). For every method and every failure of its provider call,
    the method logs, as its last step, an error-level event whose message
    starts with the name of the operation and whose metadata carries the
    upstream status code if there is one ([undefined] otherwise), and throws
    an error whose message is a fixed string per method, the same for all
    upstream failures.  The input summary in the metadata is the number of
    locations for [batchGeocode], the number of points for
    [getDistanceMatrix] and the text of the coordinate pair for
    [getElevation]; for [getOptimizedRoute] the statement leaves it open.
    For [batchGeocode] the failure reported is the one that rejects the
    combined promise. *)
Theorem failure_reporting (this : MapboxService) :
  (forall env waypoints error,
     2 <= length waypoints ->
     outcome (route_call this env waypoints) = inr error ->
     outcome (getOptimizedRoute this env (ArrayOf waypoints)) =
       inr (Error "Failed to optimize route") /\
     exists summary,
       trace (getOptimizedRoute this env (ArrayOf waypoints)) =
       (trace (route_call this env waypoints)
        ++ [Log {| ev_level := LevelError;
                   ev_message := "Route optimization error: " ++ err_message error;
                   ev_meta := [summary; ("status", status_meta error)] |}])%list) /\
  (forall env longitude latitude error,
     outcome (elevation_call this env longitude latitude) = inr error ->
     outcome (getElevation this env longitude latitude) =
       inr (Error "Failed to fetch elevation") /\
     trace (getElevation this env longitude latitude) =
       (trace (elevation_call this env longitude latitude)
        ++ [Log {| ev_level := LevelError;
                   ev_message := "Elevation fetch error: " ++ err_message error;
                   ev_meta := [("coordinates",
                                MetaString (Number_toString longitude ++ ", "
                                            ++ Number_toString latitude));
                               ("status", status_meta error)] |}])%list) /\
  (forall env locations i location error,
     nth_error locations i = Some location ->
     outcome (geocode_call this env i location) = inr error ->
     outcome (batchGeocode this env (ArrayOf locations)) =
       inr (Error "Failed to geocode locations") /\
     exists j location' reason t,
       nth_error locations j = Some location' /\
       outcome (geocode_promise this env j location') = inr reason /\
       trace (batchGeocode this env (ArrayOf locations)) =
       (t ++ [Log {| ev_level := LevelError;
                     ev_message := "Batch geocoding error: " ++ err_message reason;
                     ev_meta := [("locationCount", MetaNumber (length locations));
                                 ("status", status_meta reason)] |}])%list) /\
  (forall env points error,
     2 <= length points ->
     outcome (matrix_call this env points) = inr error ->
     outcome (getDistanceMatrix this env (ArrayOf points)) =
       inr (Error "Failed to fetch distance matrix") /\
     trace (getDistanceMatrix this env (ArrayOf points)) =
       (trace (matrix_call this env points)
        ++ [Log {| ev_level := LevelError;
                   ev_message := "Distance matrix error: " ++ err_message error;
                   ev_meta := [("pointCount", MetaNumber (length points));
                               ("status", status_meta error)] |}])%list).
Proof.
  split; [ | split; [ | split ] ].
  - intros env waypoints error Hlen Hfail.
    rewrite getOptimizedRoute_run by exact Hlen. cbv zeta. rewrite Hfail.
    split; [ reflexivity | ].
    exists ("waypoints", MetaCoordinates waypoints). reflexivity.
  - intros env longitude latitude error Hfail.
    rewrite getElevation_run. cbv zeta. rewrite Hfail. split; reflexivity.
  - intros env locations i location error Hi Hfail.
    assert (Hne : locations <> []) by (destruct locations; [ destruct i | ]; discriminate).
    rewrite batchGeocode_run by exact Hne. cbv zeta.
    destruct (Promise_all_rejected (settle_order env)
                (map_from (geocode_promise this env) 0 locations)
                i (geocode_promise this env i location) error)
      as (j & q & reason & Hq & Hreason & Hall).
    + rewrite nth_error_map_from, Hi. reflexivity.
    + rewrite outcome_geocode_promise, Hfail. reflexivity.
    + rewrite Hall. split; [ reflexivity | ].
      rewrite nth_error_map_from in Hq. cbn [Nat.add] in Hq.
      destruct (nth_error locations j) as [location' | ] eqn:Hj; [ | discriminate ].
      injection Hq as <-.
      exists j, location', reason, (trace (Promise_all (settle_order env)
                 (map_from (geocode_promise this env) 0 locations))).
      split; [ exact Hj | ]. split; [ exact Hreason | reflexivity ].
  - intros env points error Hlen Hfail.
    rewrite getDistanceMatrix_run by exact Hlen. cbv zeta. rewrite Hfail.
    split; reflexivity.
Qed.

(** ** The retry policy, method by method *)

Lemma retry_events_rate_limited_twice {B} (env : Environment B) (slot : nat)
    (req : AxiosRequestConfig) :
  retry_events (Send slot 0 req :: retry_steps env slot req 1 2) =
  [retry_event 1; retry_event 2].
Proof.
  change (Send slot 0 req :: ?t) with ([Send slot 0 req] ++ t)%list.
  rewrite retry_events_app, retry_events_retry_steps. reflexivity.
Qed.

Lemma retry_events_log (t : list Effect) (ev : LogEvent) :
  is_retry_event ev = false -> retry_events (t ++ [Log ev]) = retry_events t.
Proof.
  intros Hev. rewrite retry_events_app. unfold retry_events at 2.
  cbn [logged flat_map app filter]. rewrite Hev. apply app_nil_r.
Qed.

Lemma getOptimizedRoute_rate_limited_twice (this : MapboxService)
    (env : Environment OptimizedRouteResponse) (waypoints : list Coordinate)
    (response : AxiosResponse OptimizedRouteResponse) :
  2 <= length waypoints ->
  rate_limited_twice env 0 (get (route_url this waypoints) (route_params this)) response ->
  outcome (getOptimizedRoute this env (ArrayOf waypoints)) = inl (data response) /\
  retry_events (trace (getOptimizedRoute this env (ArrayOf waypoints))) =
    [retry_event 1; retry_event 2].
Proof.
  intros Hlen Hlimited. rewrite getOptimizedRoute_run by exact Hlen. cbv zeta.
  unfold route_call. rewrite (axios_get_rate_limited_twice _ _ _ _ _ Hlimited).
  cbn [outcome trace fst snd]. split; [ reflexivity | ].
  rewrite retry_events_log by reflexivity. apply retry_events_rate_limited_twice.
Qed.

Lemma getDistanceMatrix_rate_limited_twice (this : MapboxService)
    (env : Environment DistanceMatrixResponse) (points : list Coordinate)
    (response : AxiosResponse DistanceMatrixResponse) :
  2 <= length points ->
  rate_limited_twice env 0 (get (matrix_url this points) (matrix_params this)) response ->
  outcome (getDistanceMatrix this env (ArrayOf points)) = inl (data response) /\
  retry_events (trace (getDistanceMatrix this env (ArrayOf points))) =
    [retry_event 1; retry_event 2].
Proof.
  intros Hlen Hlimited. rewrite getDistanceMatrix_run by exact Hlen. cbv zeta.
  unfold matrix_call. rewrite (axios_get_rate_limited_twice _ _ _ _ _ Hlimited).
  cbn [outcome trace fst snd]. split; [ reflexivity | ].
  rewrite retry_events_log by reflexivity. apply retry_events_rate_limited_twice.
Qed.

Lemma getElevation_rate_limited_twice (this : MapboxService)
    (env : Environment ElevationResponse) (longitude latitude : number)
    (response : AxiosResponse ElevationResponse) (fs : list ElevationFeature) :
  rate_limited_twice env 0
    (get (elevation_url this longitude latitude) (elevation_params this)) response ->
  features (data response) = Some fs ->
  outcome (getElevation this env longitude latitude) =
    inl (match fs with
         | feature :: _ => ele (properties feature)
         | [] => Number_zero
         end) /\
  retry_events (trace (getElevation this env longitude latitude)) =
    [retry_event 1; retry_event 2].
Proof.
  intros Hlimited Hfs. rewrite getElevation_run. cbv zeta.
  unfold elevation_call. rewrite (axios_get_rate_limited_twice _ _ _ _ _ Hlimited).
  cbn [outcome trace fst snd]. rewrite Hfs.
  destruct fs as [ | feature rest]; cbn [outcome trace fst snd];
    (split; [ reflexivity | ]).
  - rewrite retry_events_log by reflexivity. apply retry_events_rate_limited_twice.
  - apply retry_events_rate_limited_twice.
Qed.

Lemma retry_events_geocode_promises (this : MapboxService)
    (env : Environment GeocodeResponse) (locations : list string) (from : nat)
    (evs : list LogEvent) :
  (forall i location, nth_error locations i = Some location ->
   retry_events (trace (geocode_promise this env (from + i) location)) = evs) ->
  retry_events (concat (map trace (map_from (geocode_promise this env) from locations))) =
  flat_map (fun _ => evs) locations.
Proof.
  revert from. induction locations as [ | location locations IH]; intros from Hall;
    [ reflexivity | ].
  cbn [map_from map concat flat_map]. rewrite retry_events_app. f_equal.
  - specialize (Hall 0 location eq_refl). rewrite Nat.add_0_r in Hall. exact Hall.
  - apply IH. intros i l Hi. rewrite Nat.add_succ_comm. apply (Hall (S i) l Hi).
Qed.

Lemma batchGeocode_rate_limited_twice (this : MapboxService)
    (env : Environment GeocodeResponse) (locations : list string) :
  locations <> [] ->
  (forall i location, nth_error locations i = Some location ->
   exists response fs,
     rate_limited_twice env i
       (get (geocode_url this) (geocode_params this location)) response /\
     features (data response) = Some fs) ->
  (exists results, outcome (batchGeocode this env (ArrayOf locations)) = inl results) /\
  retry_events (trace (batchGeocode this env (ArrayOf locations))) =
    flat_map (fun _ => [retry_event 1; retry_event 2]) locations.
Proof.
  intros Hne Hall.
  assert (Hcalls : forall i location, nth_error locations i = Some location ->
            exists response fs,
              geocode_call this env i location =
                (Send i 0 (get (geocode_url this) (geocode_params this location))
                 :: retry_steps env i
                      (get (geocode_url this) (geocode_params this location)) 1 2,
                 inl response) /\
              features (data response) = Some fs).
  { intros i location Hi. destruct (Hall i location Hi) as (response & fs & Hl & Hfs).
    exists response, fs. split; [ | exact Hfs ].
    apply axios_get_rate_limited_twice. exact Hl. }
  destruct (batchGeocode_fulfilled this env locations Hne) as (results & Hout & _).
  { intros i location Hi. destruct (Hcalls i location Hi) as (response & fs & Hc & Hfs).
    exists response, fs. rewrite Hc. split; [ reflexivity | exact Hfs ]. }
  split; [ exists results; exact Hout | ].
  rewrite batchGeocode_run in Hout |- * by exact Hne. cbv zeta in Hout |- *.
  destruct (outcome (Promise_all (settle_order env)
              (map_from (geocode_promise this env) 0 locations)))
    as [results' | error]; [ | discriminate ].
  cbn [trace fst]. rewrite retry_events_log by reflexivity.
  unfold Promise_all. cbn [trace fst].
  apply retry_events_geocode_promises.
  intros i location Hi. destruct (Hcalls i location Hi) as (response & fs & Hc & _).
  rewrite trace_geocode_promise. cbn [Nat.add]. rewrite Hc. cbn [trace fst].
  apply retry_events_rate_limited_twice.
Qed.

(** C1 (amended).  Every outbound call of every method is
    [axios.get] through the interceptor configured by the constructor, and
    for every such call:
    - an attempt is followed by a retry if and only if fewer than 3
      retries have been made and the attempt failed either with no response
      and an error code other than ECONNABORTED, or with status 429, or with
      a status from 500 to 599 (all requests being GET, hence idempotent);
      so a call makes at most 4 attempts;
    - each retry is the warning event "Retry attempt k for Mapbox API
      call" with the number k of the retry, then a wait of
      [exponentialDelay] for k and the error of the attempt before, then the
      attempt; the backoff is exponential: the wait before retry k is at
      least [100 * 2^k] milliseconds and at least what the [Retry-After]
      header of the rejected response asks for, and when that response has
      no such header the wait is at most [120 * 2^k] milliseconds and its
      value doubles with k;
    - when the first two attempts are answered with status 429 and the third
      is accepted, the call succeeds and exactly two retry events are
      logged, and so for each of the four methods (for [getElevation] and
      [batchGeocode] given bodies with a [features] array; for
      [batchGeocode] two events per location);
    - an attempt answered with a status outside the retry class which axios
      rejects, such as 400, is not retried: it is the only attempt, and the
      call fails with an error that carries that status and the message
      "Request failed with status code" with the status. *)
Theorem retry_policy :
  (forall B (env : Environment B) (slot : nat) (url : string)
          (params : list (string * ParamValue)),
     let req := get url params in
     let run := axios_get mapbox_retry env slot url params in
     (forall r : HttpResult B, retried req r = retry_class r) /\
     (exists n,
        n <= 3 /\
        (forall j, j < n -> retried req (exchange env slot req j) = true) /\
        (n < 3 -> retried req (exchange env slot req n) = false) /\
        trace run = Send slot 0 req :: retry_steps env slot req 1 n /\
        outcome run = settle req (exchange env slot req n)) /\
     (forall response,
        rate_limited_twice env slot req response ->
        outcome run = inl response /\
        retry_events (trace run) = [retry_event 1; retry_event 2]) /\
     (forall s headers body,
        exchange env slot req 0 = Response s headers body ->
        s <> 0 -> validateStatus s = false ->
        retry_class (Response s headers body) = false ->
        trace run = [Send slot 0 req] /\
        exists error,
          outcome run = inr error /\
          err_status error = Some s /\
          err_message error =
            "Request failed with status code " ++ nat_to_string s)) /\
  (forall rnd k error,
     (0 <= rnd)%Q -> (rnd <= 1)%Q ->
     (inject_Z (100 * 2 ^ Z.of_nat k) <= exponentialDelay rnd k error)%Q /\
     (retryAfter error <= exponentialDelay rnd k error)%Q /\
     (err_retry_after error = None ->
      (exponentialDelay rnd k error <= inject_Z (120 * 2 ^ Z.of_nat k))%Q /\
      forall error',
        err_retry_after error' = None ->
        (exponentialDelay rnd (S k) error' == 2 * exponentialDelay rnd k error)%Q)) /\
  (forall this env waypoints response,
     2 <= length waypoints ->
     rate_limited_twice env 0 (get (route_url this waypoints) (route_params this))
       response ->
     outcome (getOptimizedRoute this env (ArrayOf waypoints)) = inl (data response) /\
     retry_events (trace (getOptimizedRoute this env (ArrayOf waypoints))) =
       [retry_event 1; retry_event 2]) /\
  (forall this env longitude latitude response fs,
     rate_limited_twice env 0
       (get (elevation_url this longitude latitude) (elevation_params this))
       response ->
     features (data response) = Some fs ->
     (exists elevation,
        outcome (getElevation this env longitude latitude) = inl elevation) /\
     retry_events (trace (getElevation this env longitude latitude)) =
       [retry_event 1; retry_event 2]) /\
  (forall this env locations,
     locations <> [] ->
     (forall i location, nth_error locations i = Some location ->
      exists response fs,
        rate_limited_twice env i
          (get (geocode_url this) (geocode_params this location)) response /\
        features (data response) = Some fs) ->
     (exists results,
        outcome (batchGeocode this env (ArrayOf locations)) = inl results) /\
     retry_events (trace (batchGeocode this env (ArrayOf locations))) =
       flat_map (fun _ => [retry_event 1; retry_event 2]) locations) /\
  (forall this env points response,
     2 <= length points ->
     rate_limited_twice env 0 (get (matrix_url this points) (matrix_params this))
       response ->
     outcome (getDistanceMatrix this env (ArrayOf points)) = inl (data response) /\
     retry_events (trace (getDistanceMatrix this env (ArrayOf points))) =
       [retry_event 1; retry_event 2]).
Proof.
  split; [ | split; [ | split; [ | split; [ | split ] ] ] ].
  - intros B env slot url params req run.
    assert (Hclass : forall r : HttpResult B, retried req r = retry_class r)
      by (intros r; apply retried_retry_class; reflexivity).
    split; [ exact Hclass | ]. split; [ | split ].
    + destruct (axios_get_run env slot url params)
        as (n & Hn & Hall & Hstop & Htrace & Hout).
      exists n. split; [ exact Hn | ]. split; [ | split; [ | split ] ].
      * intros j Hj. rewrite Hclass. apply Hall. exact Hj.
      * intros Hlt. rewrite Hclass. apply Hstop. exact Hlt.
      * exact Htrace.
      * exact Hout.
    + intros response Hlimited. subst run.
      rewrite (axios_get_rate_limited_twice _ _ _ _ _ Hlimited).
      split; [ reflexivity | apply retry_events_rate_limited_twice ].
    + intros s headers body Hfirst Hnz Hrejected Hclass0.
      destruct (axios_get_run env slot url params)
        as (n & Hn & Hall & Hstop & Htrace & Hout).
      fold req in Hall, Hstop, Htrace, Hout. fold run in Htrace, Hout.
      destruct n as [ | n].
      * split; [ exact Htrace | ].
        exists (AxiosError_status req s headers).
        rewrite Hout, Hfirst. unfold settle.
        apply Nat.eqb_neq in Hnz. rewrite Hnz, Hrejected.
        repeat split; reflexivity.
      * specialize (Hall 0 (Nat.lt_0_succ n)). rewrite Hfirst in Hall. congruence.
  - intros rnd k error Hlo Hhi.
    destruct (exponentialDelay_lower rnd k error Hlo) as [Hlower Hheader].
    split; [ exact Hlower | ]. split; [ exact Hheader | ].
    intros Hnone. split.
    + apply exponentialDelay_bounds; assumption.
    + intros error' Hnone'. apply exponentialDelay_doubles; assumption.
  - intros this env waypoints response.
    apply getOptimizedRoute_rate_limited_twice.
  - intros this env longitude latitude response fs Hlimited Hfs.
    destruct (getElevation_rate_limited_twice this env longitude latitude response fs
                Hlimited Hfs) as [Hout Hevents].
    split; [ eexists; exact Hout | exact Hevents ].
  - intros this env locations. apply batchGeocode_rate_limited_twice.
  - intros this env points response.
    apply getDistanceMatrix_rate_limited_twice.
Qed.

(** ** The error surface of the methods *)

Lemma errors_logged_app (t1 t2 : list Effect) :
  errors_logged (t1 ++ t2) = (errors_logged t1 ++ errors_logged t2)%list.
Proof. unfold errors_logged. rewrite logged_app. apply filter_app. Qed.

Lemma errors_logged_retry_steps {B} (env : Environment B) slot req from n :
  errors_logged (retry_steps env slot req from n) = [].
Proof.
  unfold errors_logged. rewrite logged_retry_steps.
  induction (seq from n) as [ | k l IH]; [ reflexivity | exact IH ].
Qed.

Lemma errors_logged_axios_get {B} (env : Environment B) (slot : nat)
    (url : string) (params : list (string * ParamValue)) :
  errors_logged (trace (axios_get mapbox_retry env slot url params)) = [].
Proof.
  destruct (axios_get_run env slot url params) as (n & _ & _ & _ & Ht & _).
  rewrite Ht.
  change (Send slot 0 (get url params) :: ?t) with ([Send slot 0 (get url params)] ++ t)%list.
  rewrite errors_logged_app, errors_logged_retry_steps. reflexivity.
Qed.

Lemma errors_logged_geocode_promises (this : MapboxService)
    (env : Environment GeocodeResponse) (locations : list string) (from : nat) :
  errors_logged (concat (map trace (map_from (geocode_promise this env) from locations))) = [].
Proof.
  revert from. induction locations as [ | location locations IH]; intros from;
    [ reflexivity | ].
  cbn [map_from map concat]. rewrite errors_logged_app, trace_geocode_promise.
  unfold geocode_call. rewrite errors_logged_axios_get. apply IH.
Qed.

Lemma getOptimizedRoute_throws (this : MapboxService)
    (env : Environment OptimizedRouteResponse) (arg : Arg Coordinate) :
  (outcome (getOptimizedRoute this env arg) =
     inr (Error "Invalid waypoints. Minimum 2 coordinates required.")
   <-> shorter_than 2 arg) /\
  (forall e, outcome (getOptimizedRoute this env arg) = inr e ->
     e = Error "Invalid waypoints. Minimum 2 coordinates required." \/
     e = Error "Failed to optimize route").
Proof.
  destruct arg as [ | waypoints]; cbn [shorter_than].
  - split; [ split; [ intros _; exact I | reflexivity ] | ].
    intros e [= <-]. left. reflexivity.
  - destruct (Nat.lt_ge_cases (length waypoints) 2) as [Hlt | Hge].
    + unfold getOptimizedRoute.
      destruct (Nat.ltb_spec (length waypoints) 2); [ | lia ].
      split; [ split; [ intros _; exact Hlt | reflexivity ] | ].
      intros e [= <-]. left. reflexivity.
    + rewrite getOptimizedRoute_run by exact Hge. cbv zeta.
      destruct (outcome (route_call this env waypoints)); cbn [outcome snd].
      * split; [ split; [ discriminate | lia ] | discriminate ].
      * split; [ split; [ discriminate | lia ] | ].
        intros e [= <-]. right. reflexivity.
Qed.

Lemma getDistanceMatrix_throws (this : MapboxService)
    (env : Environment DistanceMatrixResponse) (arg : Arg Coordinate) :
  (outcome (getDistanceMatrix this env arg) =
     inr (Error "Invalid points. Minimum 2 coordinates required.")
   <-> shorter_than 2 arg) /\
  (forall e, outcome (getDistanceMatrix this env arg) = inr e ->
     e = Error "Invalid points. Minimum 2 coordinates required." \/
     e = Error "Failed to fetch distance matrix").
Proof.
  destruct arg as [ | points]; cbn [shorter_than].
  - split; [ split; [ intros _; exact I | reflexivity ] | ].
    intros e [= <-]. left. reflexivity.
  - destruct (Nat.lt_ge_cases (length points) 2) as [Hlt | Hge].
    + unfold getDistanceMatrix.
      destruct (Nat.ltb_spec (length points) 2); [ | lia ].
      split; [ split; [ intros _; exact Hlt | reflexivity ] | ].
      intros e [= <-]. left. reflexivity.
    + rewrite getDistanceMatrix_run by exact Hge. cbv zeta.
      destruct (outcome (matrix_call this env points)); cbn [outcome snd].
      * split; [ split; [ discriminate | lia ] | discriminate ].
      * split; [ split; [ discriminate | lia ] | ].
        intros e [= <-]. right. reflexivity.
Qed.

(** [coord.join] throws on the first element that is not a pair, a
    [TypeError], and on no other array. *)
Lemma typed_pairs (waypoints : list Coordinate) :
  typed (map Pair waypoints) = inl waypoints.
Proof.
  induction waypoints as [ | coord waypoints IH]; [ reflexivity | ].
  cbn [map typed]. rewrite IH. reflexivity.
Qed.

Lemma typed_inl (elements : list Element) (waypoints : list Coordinate) :
  typed elements = inl waypoints -> elements = map Pair waypoints.
Proof.
  revert waypoints. induction elements as [ | element elements IH]; intros waypoints.
  - intros [= <-]. reflexivity.
  - destruct element as [coord | null | ]; cbn [typed]; try discriminate.
    destruct (typed elements) as [coords | error]; [ | discriminate ].
    intros [= <-]. cbn [map]. rewrite <- (IH coords eq_refl). reflexivity.
Qed.

Lemma typed_inr (elements : list Element) (error : JsError) :
  typed elements = inr error ->
  err_name error = "TypeError" /\
  exists element, In element elements /\ forall coord, element <> Pair coord.
Proof.
  induction elements as [ | element elements IH]; [ discriminate | ].
  destruct element as [coord | null | ]; cbn [typed].
  - destruct (typed elements) as [coords | error']; [ discriminate | ].
    intros [= <-]. destruct (IH eq_refl) as (Hname & element & Hin & Hnot).
    split; [ exact Hname | ]. exists element. split; [ right; exact Hin | exact Hnot ].
  - intros [= <-]. split; [ reflexivity | ].
    exists (Nullish null). split; [ left; reflexivity | discriminate ].
  - intros [= <-]. split; [ reflexivity | ].
    exists NoJoin. split; [ left; reflexivity | discriminate ].
Qed.

(** X1. What a caller can catch.  On an argument that is not an array, or
    an array whose elements have the declared type, each method either
    returns or throws one of its own fixed errors; an error of the transport
    or of the extraction never escapes.  [getOptimizedRoute],
    [getDistanceMatrix] and [batchGeocode] throw their validation error
    exactly on an argument that fails the guard, and otherwise only their
    operation error; [getElevation] has no validation and throws only its
    operation error.  One exception of the engine does escape: on an array
    of two or more elements of which one has no [join] method,
    [getOptimizedRoute] and [getDistanceMatrix] throw the [TypeError] of
    [coord.join], evaluated before the [try] block, and nothing is sent or
    logged; on arrays of pairs the untyped entry is the typed one. *)
Theorem error_surface (this : MapboxService) :
  (forall env arg,
     (outcome (getOptimizedRoute this env arg) =
        inr (Error "Invalid waypoints. Minimum 2 coordinates required.")
      <-> shorter_than 2 arg) /\
     (forall e, outcome (getOptimizedRoute this env arg) = inr e ->
        e = Error "Invalid waypoints. Minimum 2 coordinates required." \/
        e = Error "Failed to optimize route")) /\
  (forall env longitude latitude e,
     outcome (getElevation this env longitude latitude) = inr e ->
     e = Error "Failed to fetch elevation") /\
  (forall env arg,
     (outcome (batchGeocode this env arg) =
        inr (Error "Invalid locations. Non-empty array required.")
      <-> shorter_than 1 arg) /\
     (forall e, outcome (batchGeocode this env arg) = inr e ->
        e = Error "Invalid locations. Non-empty array required." \/
        e = Error "Failed to geocode locations")) /\
  (forall env arg,
     (outcome (getDistanceMatrix this env arg) =
        inr (Error "Invalid points. Minimum 2 coordinates required.")
      <-> shorter_than 2 arg) /\
     (forall e, outcome (getDistanceMatrix this env arg) = inr e ->
        e = Error "Invalid points. Minimum 2 coordinates required." \/
        e = Error "Failed to fetch distance matrix")) /\
  (forall env elements,
     (forall waypoints,
        elements = map Pair waypoints ->
        getOptimizedRoute_untyped this env elements =
        getOptimizedRoute this env (ArrayOf waypoints)) /\
     (forall e,
        2 <= length elements -> typed elements = inr e ->
        getOptimizedRoute_untyped this env elements = ([], inr e) /\
        err_name e = "TypeError") /\
     (forall e,
        outcome (getOptimizedRoute_untyped this env elements) = inr e ->
        e = Error "Invalid waypoints. Minimum 2 coordinates required." \/
        e = Error "Failed to optimize route" \/
        (2 <= length elements /\ typed elements = inr e /\
         exists element, In element elements /\ forall coord, element <> Pair coord))) /\
  (forall env elements,
     (forall points,
        elements = map Pair points ->
        getDistanceMatrix_untyped this env elements =
        getDistanceMatrix this env (ArrayOf points)) /\
     (forall e,
        2 <= length elements -> typed elements = inr e ->
        getDistanceMatrix_untyped this env elements = ([], inr e) /\
        err_name e = "TypeError") /\
     (forall e,
        outcome (getDistanceMatrix_untyped this env elements) = inr e ->
        e = Error "Invalid points. Minimum 2 coordinates required." \/
        e = Error "Failed to fetch distance matrix" \/
        (2 <= length elements /\ typed elements = inr e /\
         exists element, In element elements /\ forall coord, element <> Pair coord))).
Proof.
  split; [ | split; [ | split; [ | split; [ | split ] ] ] ].
  - intros env arg. apply getOptimizedRoute_throws.
  - intros env longitude latitude e. rewrite getElevation_run. cbv zeta.
    destruct (outcome (elevation_call this env longitude latitude)) as [response | error];
      [ destruct (features (data response)) as [[ | feature fs] | ] | ];
      cbn [outcome snd]; intros Hout; try discriminate;
      injection Hout as <-; reflexivity.
  - intros env [ | locations]; cbn [shorter_than].
    + split; [ split; [ intros _; exact I | reflexivity ] | ].
      intros e [= <-]. left. reflexivity.
    + destruct locations as [ | l0 ls] eqn:Hlocs.
      * split; [ split; [ intros _; cbn; lia | reflexivity ] | ].
        intros e [= <-]. left. reflexivity.
      * rewrite <- Hlocs.
        assert (Hne : locations <> []) by (subst; discriminate).
        assert (Hlen : ~ length locations < 1) by (subst; cbn; lia).
        rewrite batchGeocode_run by exact Hne. cbv zeta.
        destruct (outcome (Promise_all _ _)); cbn [outcome snd].
        -- split; [ split; [ discriminate | contradiction ] | discriminate ].
        -- split; [ split; [ discriminate | contradiction ] | ].
           intros e [= <-]. right. reflexivity.
  - intros env arg. apply getDistanceMatrix_throws.
  - intros env elements. unfold getOptimizedRoute_untyped.
    split; [ | split ].
    + intros waypoints ->. rewrite length_map, typed_pairs.
      destruct (Nat.ltb_spec (length waypoints) 2) as [Hlt | Hge]; [ | reflexivity ].
      unfold getOptimizedRoute.
      destruct (Nat.ltb_spec (length waypoints) 2); [ reflexivity | lia ].
    + intros e Hlen Htyped.
      destruct (Nat.ltb_spec (length elements) 2); [ lia | ].
      rewrite Htyped. split; [ reflexivity | ].
      exact (proj1 (typed_inr elements e Htyped)).
    + intros e.
      destruct (Nat.ltb_spec (length elements) 2) as [Hlt | Hge].
      * intros [= <-]. left. reflexivity.
      * destruct (typed elements) as [waypoints | error] eqn:Htyped.
        -- intros Hout.
           destruct (proj2 (getOptimizedRoute_throws this env (ArrayOf waypoints))
                       e Hout) as [-> | ->];
             [ left | right; left ]; reflexivity.
        -- intros [= <-]. right. right.
           split; [ exact Hge | ]. split; [ reflexivity | ].
           exact (proj2 (typed_inr elements error Htyped)).
  - intros env elements. unfold getDistanceMatrix_untyped.
    split; [ | split ].
    + intros points ->. rewrite length_map, typed_pairs.
      destruct (Nat.ltb_spec (length points) 2) as [Hlt | Hge]; [ | reflexivity ].
      unfold getDistanceMatrix.
      destruct (Nat.ltb_spec (length points) 2); [ reflexivity | lia ].
    + intros e Hlen Htyped.
      destruct (Nat.ltb_spec (length elements) 2); [ lia | ].
      rewrite Htyped. split; [ reflexivity | ].
      exact (proj1 (typed_inr elements e Htyped)).
    + intros e.
      destruct (Nat.ltb_spec (length elements) 2) as [Hlt | Hge].
      * intros [= <-]. left. reflexivity.
      * destruct (typed elements) as [points | error] eqn:Htyped.
        -- intros Hout.
           destruct (proj2 (getDistanceMatrix_throws this env (ArrayOf points))
                       e Hout) as [-> | ->];
             [ left | right; left ]; reflexivity.
        -- intros [= <-]. right. right.
           split; [ exact Hge | ]. split; [ reflexivity | ].
           exact (proj2 (typed_inr elements error Htyped)).
Qed.

Lemma errors_logged_log (t : list Effect) (ev : LogEvent) :
  errors_logged t = [] ->
  errors_logged (t ++ [Log ev]) = if is_error_event ev then [ev] else [].
Proof.
  intros Ht. rewrite errors_logged_app, Ht. unfold errors_logged.
  cbn [logged flat_map app filter]. destruct (is_error_event ev); reflexivity.
Qed.

(** X2. An error-level event is logged exactly when a method throws its
    operation error, and then exactly one: a success logs none, a validation
    failure logs none, and the retries of a call log warnings only. *)
Theorem failure_logged_once (this : MapboxService) :
  (forall env arg,
     (outcome (getOptimizedRoute this env arg) = inr (Error "Failed to optimize route")
      <-> length (errors_logged (trace (getOptimizedRoute this env arg))) = 1) /\
     length (errors_logged (trace (getOptimizedRoute this env arg))) <= 1) /\
  (forall env longitude latitude,
     (outcome (getElevation this env longitude latitude) =
        inr (Error "Failed to fetch elevation")
      <-> length (errors_logged (trace (getElevation this env longitude latitude))) = 1) /\
     length (errors_logged (trace (getElevation this env longitude latitude))) <= 1) /\
  (forall env arg,
     (outcome (batchGeocode this env arg) = inr (Error "Failed to geocode locations")
      <-> length (errors_logged (trace (batchGeocode this env arg))) = 1) /\
     length (errors_logged (trace (batchGeocode this env arg))) <= 1) /\
  (forall env arg,
     (outcome (getDistanceMatrix this env arg) =
        inr (Error "Failed to fetch distance matrix")
      <-> length (errors_logged (trace (getDistanceMatrix this env arg))) = 1) /\
     length (errors_logged (trace (getDistanceMatrix this env arg))) <= 1).
Proof.
  split; [ | split; [ | split ] ].
  - intros env [ | waypoints].
    + cbn. split; [ split; discriminate | lia ].
    + destruct (Nat.lt_ge_cases (length waypoints) 2) as [Hlt | Hge].
      * unfold getOptimizedRoute.
        destruct (Nat.ltb_spec (length waypoints) 2); [ | lia ].
        cbn. split; [ split; discriminate | lia ].
      * rewrite getOptimizedRoute_run by exact Hge. cbv zeta. unfold route_call.
        destruct (outcome (axios_get mapbox_retry env 0 _ _)); cbn [outcome trace fst snd];
          rewrite errors_logged_log by apply errors_logged_axios_get; cbn.
        -- split; [ split; discriminate | lia ].
        -- split; [ split; reflexivity | lia ].
  - intros env longitude latitude. rewrite getElevation_run. cbv zeta.
    unfold elevation_call.
    destruct (outcome (axios_get mapbox_retry env 0 _ _)) as [response | error];
      [ destruct (features (data response)) as [[ | feature fs] | ] | ];
      cbn [outcome trace fst snd];
      rewrite ?errors_logged_log by apply errors_logged_axios_get;
      rewrite ?errors_logged_axios_get; cbn;
      (split; [ split; (discriminate || reflexivity) | lia ]).
  - intros env [ | locations].
    + cbn. split; [ split; discriminate | lia ].
    + destruct locations as [ | l0 ls] eqn:Hlocs.
      * cbn. split; [ split; discriminate | lia ].
      * rewrite <- Hlocs.
        assert (Hne : locations <> []) by (subst; discriminate).
        rewrite batchGeocode_run by exact Hne. cbv zeta.
        assert (Hall : errors_logged (trace (Promise_all (settle_order env)
                          (map_from (geocode_promise this env) 0 locations))) = [])
          by apply errors_logged_geocode_promises.
        destruct (outcome (Promise_all _ _)); cbn [outcome trace fst snd];
          rewrite errors_logged_log by exact Hall; cbn.
        -- split; [ split; discriminate | lia ].
        -- split; [ split; reflexivity | lia ].
  - intros env [ | points].
    + cbn. split; [ split; discriminate | lia ].
    + destruct (Nat.lt_ge_cases (length points) 2) as [Hlt | Hge].
      * unfold getDistanceMatrix.
        destruct (Nat.ltb_spec (length points) 2); [ | lia ].
        cbn. split; [ split; discriminate | lia ].
      * rewrite getDistanceMatrix_run by exact Hge. cbv zeta. unfold matrix_call.
        destruct (outcome (axios_get mapbox_retry env 0 _ _)); cbn [outcome trace fst snd];
          rewrite errors_logged_log by apply errors_logged_axios_get; cbn.
        -- split; [ split; discriminate | lia ].
        -- split; [ split; reflexivity | lia ].
Qed.

(** ** Requests, warnings and waits *)

Lemma waits_log (t : list Effect) (ev : LogEvent) : waits (t ++ [Log ev]) = waits t.
Proof. rewrite waits_app. apply app_nil_r. Qed.

Lemma axios_get_accounting {B} (env : Environment B) (slot : nat)
    (url : string) (params : list (string * ParamValue)) :
  let t := trace (axios_get mapbox_retry env slot url params) in
  exists n, n <= 3 /\
    sent t = repeat (get url params) (S n) /\
    retry_events t = map retry_event (seq 1 n) /\
    waits t = map (fun k => exponentialDelay (Math_random env slot k) k
                              (rejection (get url params)
                                 (exchange env slot (get url params) (pred k))))
                  (seq 1 n).
Proof.
  destruct (axios_get_run env slot url params) as (n & Hn & _ & _ & Ht & _).
  exists n. split; [ exact Hn | ]. cbv zeta. rewrite Ht.
  change (Send slot 0 (get url params) :: ?t) with ([Send slot 0 (get url params)] ++ t)%list.
  rewrite sent_app, retry_events_app, waits_app.
  rewrite sent_retry_steps, retry_events_retry_steps, waits_retry_steps.
  repeat split.
Qed.

(** The counts that go with [axios_get_accounting]. *)
Lemma axios_get_counts {B} (env : Environment B) (slot : nat)
    (url : string) (params : list (string * ParamValue)) :
  let t := trace (axios_get mapbox_retry env slot url params) in
  1 <= length (sent t) <= 4 /\
  length (retry_events t) + 1 = length (sent t) /\
  length (waits t) = length (retry_events t).
Proof.
  destruct (axios_get_accounting env slot url params) as (n & Hn & Hs & Hr & Hw).
  cbv zeta. rewrite Hs, Hr, Hw, repeat_length, !length_map, length_seq. lia.
Qed.

(** X3. The three methods that make one provider call send, on an argument
    that passes validation, between one and four requests; every request
    after the first is announced by one retry warning and preceded by one
    wait, and nothing else is announced as a retry. *)
Theorem attempts_accounting (this : MapboxService) :
  (forall env waypoints,
     2 <= length waypoints ->
     let t := trace (getOptimizedRoute this env (ArrayOf waypoints)) in
     1 <= length (sent t) <= 4 /\
     length (retry_events t) + 1 = length (sent t) /\
     length (waits t) = length (retry_events t)) /\
  (forall env longitude latitude,
     let t := trace (getElevation this env longitude latitude) in
     1 <= length (sent t) <= 4 /\
     length (retry_events t) + 1 = length (sent t) /\
     length (waits t) = length (retry_events t)) /\
  (forall env points,
     2 <= length points ->
     let t := trace (getDistanceMatrix this env (ArrayOf points)) in
     1 <= length (sent t) <= 4 /\
     length (retry_events t) + 1 = length (sent t) /\
     length (waits t) = length (retry_events t)).
Proof.
  split; [ | split ].
  - intros env waypoints Hlen. rewrite getOptimizedRoute_run by exact Hlen.
    cbv zeta. unfold route_call.
    pose proof (axios_get_counts env 0 (route_url this waypoints) (route_params this))
      as Hcounts. cbv zeta in Hcounts.
    destruct (outcome (axios_get mapbox_retry env 0 _ _)); cbn [trace fst];
      rewrite sent_log, waits_log, retry_events_log by reflexivity; exact Hcounts.
  - intros env longitude latitude. rewrite getElevation_run. cbv zeta.
    unfold elevation_call.
    pose proof (axios_get_counts env 0 (elevation_url this longitude latitude)
                  (elevation_params this)) as Hcounts. cbv zeta in Hcounts.
    destruct (outcome (axios_get mapbox_retry env 0 _ _)) as [response | error];
      [ destruct (features (data response)) as [[ | feature fs] | ] | ];
      cbn [trace fst];
      rewrite ?sent_log, ?waits_log, ?retry_events_log by reflexivity; exact Hcounts.
  - intros env points Hlen. rewrite getDistanceMatrix_run by exact Hlen.
    cbv zeta. unfold matrix_call.
    pose proof (axios_get_counts env 0 (matrix_url this points) (matrix_params this))
      as Hcounts. cbv zeta in Hcounts.
    destruct (outcome (axios_get mapbox_retry env 0 _ _)); cbn [trace fst];
      rewrite sent_log, waits_log, retry_events_log by reflexivity; exact Hcounts.
Qed.

(** X4. [getElevation] performs no validation: for every pair of numbers
    it sends at least one request, and every request it sends, retries
    included, is the same GET of the tile-query path [lon,lat.json],
    longitude first, with the token, the layer [contour] and the limit 1. *)
Theorem getElevation_requests (this : MapboxService)
    (env : Environment ElevationResponse) (longitude latitude : number) :
  sent (trace (getElevation this env longitude latitude)) <> [] /\
  forall req,
    In req (sent (trace (getElevation this env longitude latitude))) ->
    req = {| req_method := "get";
             req_url := MAPBOX_BASE_URL this
                        ++ "/v4/mapbox.mapbox-terrain-v2/tilequery/"
                        ++ Number_toString longitude ++ ","
                        ++ Number_toString latitude ++ ".json";
             req_params := [("access_token", PString (accessToken this));
                            ("layers", PString "contour");
                            ("limit", PNumber 1)] |}.
Proof.
  destruct (sent_getElevation this env longitude latitude) as (n & _ & ->).
  split; [ discriminate | ].
  intros req Hin. apply repeat_spec in Hin. exact Hin.
Qed.

(** ** Batch geocoding: rejection, success, requests *)

(** A rejected promise of the batch rejects the batch; the failure event
    reports the reason of one of the rejected promises. *)
Lemma batchGeocode_rejected (this : MapboxService) (env : Environment GeocodeResponse)
    (locations : list string) (i : nat) (location : string) (e : JsError) :
  nth_error locations i = Some location ->
  outcome (geocode_promise this env i location) = inr e ->
  outcome (batchGeocode this env (ArrayOf locations)) =
    inr (Error "Failed to geocode locations") /\
  exists j location' reason,
    nth_error locations j = Some location' /\
    outcome (geocode_promise this env j location') = inr reason /\
    trace (batchGeocode this env (ArrayOf locations)) =
    (trace (Promise_all (settle_order env)
              (map_from (geocode_promise this env) 0 locations))
     ++ [Log (failure_event "Batch geocoding error" reason
                ("locationCount", MetaNumber (length locations)))])%list.
Proof.
  intros Hi Hfail.
  assert (Hne : locations <> []) by (destruct locations; [ destruct i | ]; discriminate).
  rewrite batchGeocode_run by exact Hne. cbv zeta.
  destruct (Promise_all_rejected (settle_order env)
              (map_from (geocode_promise this env) 0 locations)
              i (geocode_promise this env i location) e)
    as (j & q & reason & Hq & Hreason & Hall).
  - rewrite nth_error_map_from, Hi. reflexivity.
  - exact Hfail.
  - rewrite Hall. split; [ reflexivity | ].
    rewrite nth_error_map_from in Hq. cbn [Nat.add] in Hq.
    destruct (nth_error locations j) as [location' | ] eqn:Hj; [ | discriminate ].
    injection Hq as <-. exists j, location', reason.
    split; [ exact Hj | ]. split; [ exact Hreason | reflexivity ].
Qed.

(** X5. The geocoding analogue of the missing [features] member: when the
    provider call for one location succeeds with a body that has no
    [features] member, reading [features[0]] raises inside the promise and
    the whole batch fails with the geocoding error, although no provider call
    failed. *)
Theorem batchGeocode_missing_features (this : MapboxService)
    (env : Environment GeocodeResponse) (locations : list string)
    (i : nat) (location : string) (response : AxiosResponse GeocodeResponse) :
  nth_error locations i = Some location ->
  outcome (geocode_call this env i location) = inl response ->
  features (data response) = None ->
  outcome (batchGeocode this env (ArrayOf locations)) =
    inr (Error "Failed to geocode locations").
Proof.
  intros Hi Hcall Hnone.
  apply (batchGeocode_rejected this env locations i location (TypeError_undefined "0") Hi).
  rewrite outcome_geocode_promise, Hcall, Hnone. reflexivity.
Qed.

(** X6. When exactly one promise of the batch is rejected, the failure
    event reports that rejection, its message and its status, whatever the
    order in which the calls settle. *)
Theorem batchGeocode_reports_the_failure (this : MapboxService)
    (env : Environment GeocodeResponse) (locations : list string)
    (i : nat) (location : string) (e : JsError) :
  nth_error locations i = Some location ->
  outcome (geocode_promise this env i location) = inr e ->
  (forall j location', j <> i -> nth_error locations j = Some location' ->
   exists value, outcome (geocode_promise this env j location') = inl value) ->
  exists t,
    trace (batchGeocode this env (ArrayOf locations)) =
    (t ++ [Log {| ev_level := LevelError;
                  ev_message := "Batch geocoding error: " ++ err_message e;
                  ev_meta := [("locationCount", MetaNumber (length locations));
                              ("status", status_meta e)] |}])%list.
Proof.
  intros Hi Hfail Hothers.
  destruct (batchGeocode_rejected this env locations i location e Hi Hfail)
    as (_ & j & location' & reason & Hj & Hreason & Htrace).
  destruct (Nat.eq_dec j i) as [-> | Hneq].
  - rewrite Hi in Hj. injection Hj as <-. rewrite Hfail in Hreason.
    injection Hreason as <-. eexists. exact Htrace.
  - destruct (Hothers j location' Hneq Hj) as [value Hvalue]. congruence.
Qed.

(** X7. On a non-empty list, [batchGeocode] returns an array if and only
    if the provider call for every location succeeds with a body that has a
    [features] array; it then ends with the info event that counts the
    locations of the input. *)
Theorem batchGeocode_succeeds_iff (this : MapboxService)
    (env : Environment GeocodeResponse) (locations : list string) :
  locations <> [] ->
  ((exists results, outcome (batchGeocode this env (ArrayOf locations)) = inl results)
   <-> (forall i location, nth_error locations i = Some location ->
        exists response fs,
          outcome (geocode_call this env i location) = inl response /\
          features (data response) = Some fs)) /\
  (forall results,
     outcome (batchGeocode this env (ArrayOf locations)) = inl results ->
     exists t,
       trace (batchGeocode this env (ArrayOf locations)) =
       (t ++ [Log {| ev_level := LevelInfo;
                     ev_message := "Geocoded " ++ nat_to_string (length locations)
                                   ++ " locations";
                     ev_meta := [] |}])%list).
Proof.
  intros Hne. split; [ split | ].
  - intros [results Hout] i location Hi.
    pose proof (outcome_geocode_promise this env i location) as Hp.
    destruct (outcome (geocode_promise this env i location)) as [value | e] eqn:Hpromise.
    + destruct (outcome (geocode_call this env i location)) as [response | error];
        [ | discriminate ].
      destruct (features (data response)) as [fs | ] eqn:Hfs; [ | discriminate ].
      exists response, fs. split; [ reflexivity | exact Hfs ].
    + destruct (batchGeocode_rejected this env locations i location e Hi Hpromise)
        as [Hthrown _].
      rewrite Hthrown in Hout. discriminate.
  - intros Hall.
    destruct (batchGeocode_fulfilled this env locations Hne Hall) as (results & Hout & _).
    exists results. exact Hout.
  - intros results Hout.
    assert (Hlen : length results = length locations).
    { set (ps := map_from (geocode_promise this env) 0 locations).
      rewrite batchGeocode_run in Hout by exact Hne. cbv zeta in Hout. fold ps in Hout.
      assert (Hps : forall i p, nth_error ps i = Some p -> exists a, outcome p = inl a).
      { intros i p Hp. destruct (outcome p) as [a | e] eqn:Ho; [ eauto | ].
        destruct (Promise_all_rejected (settle_order env) ps i p e Hp Ho)
          as (j & q & e' & _ & _ & Hall).
        rewrite Hall in Hout. discriminate. }
      destruct (Promise_all_fulfilled (settle_order env) ps Hps) as (Hall & Hl & _).
      rewrite Hall in Hout. cbn [outcome snd] in Hout. injection Hout as <-.
      rewrite Hl. apply length_map_from. }
    rewrite batchGeocode_run in Hout |- * by exact Hne. cbv zeta in Hout |- *.
    destruct (outcome (Promise_all _ _)) as [results' | error]; [ | discriminate ].
    cbn [outcome snd] in Hout. injection Hout as ->.
    eexists. cbn [trace fst]. unfold info_event. rewrite Hlen. reflexivity.
Qed.

Lemma sent_at_app (i : nat) (t1 t2 : list Effect) :
  sent_at i (t1 ++ t2) = (sent_at i t1 ++ sent_at i t2)%list.
Proof. apply flat_map_app. Qed.

Lemma sent_at_log (i : nat) (t : list Effect) (ev : LogEvent) :
  sent_at i (t ++ [Log ev]) = sent_at i t.
Proof. rewrite sent_at_app. apply app_nil_r. Qed.

Lemma sent_at_retry_steps {B} (env : Environment B) slot req from n (i : nat) :
  sent_at i (retry_steps env slot req from n) =
  if slot =? i then repeat req n else [].
Proof.
  revert from. induction n as [ | n IH]; intros from.
  - destruct (slot =? i); reflexivity.
  - unfold retry_steps in *. cbn [seq flat_map]. rewrite sent_at_app, IH.
    cbn [sent_at flat_map app]. destruct (slot =? i); reflexivity.
Qed.

Lemma sent_at_axios_get {B} (env : Environment B) (slot : nat)
    (url : string) (params : list (string * ParamValue)) :
  exists n, n <= 3 /\
    forall i, sent_at i (trace (axios_get mapbox_retry env slot url params)) =
              if slot =? i then repeat (get url params) (S n) else [].
Proof.
  destruct (axios_get_run env slot url params) as (n & Hn & _ & _ & Ht & _).
  exists n. split; [ exact Hn | ]. intros i. rewrite Ht.
  change (Send slot 0 (get url params) :: ?t) with ([Send slot 0 (get url params)] ++ t)%list.
  rewrite sent_at_app, sent_at_retry_steps. cbn [sent_at flat_map app].
  destruct (slot =? i); reflexivity.
Qed.

Lemma sent_at_geocode_promises (this : MapboxService) (env : Environment GeocodeResponse)
    (locations : list string) (from : nat) :
  let t := concat (map trace (map_from (geocode_promise this env) from locations)) in
  (forall i, i < from -> sent_at i t = []) /\
  (forall k location, nth_error locations k = Some location ->
   exists n, n <= 3 /\
     sent_at (from + k) t =
     repeat (get (geocode_url this) (geocode_params this location)) (S n)) /\
  (forall k, length locations <= k -> sent_at (from + k) t = []).
Proof.
  revert from. induction locations as [ | location locations IH]; intros from; cbv zeta.
  - split; [ reflexivity | ]. split; [ | reflexivity ].
    intros [ | k] l Hk; discriminate.
  - cbn [map_from map concat]. rewrite trace_geocode_promise. unfold geocode_call.
    destruct (sent_at_axios_get env from (geocode_url this)
                (geocode_params this location)) as (n & Hn & Hhere).
    destruct (IH (S from)) as (Hbefore & Hat & Hafter). cbv zeta in Hbefore, Hat, Hafter.
    split; [ | split ].
    + intros i Hi. rewrite sent_at_app, Hhere.
      destruct (Nat.eqb_spec from i); [ lia | ]. apply Hbefore. lia.
    + intros [ | k] l Hk; cbn [nth_error] in Hk.
      * injection Hk as <-. exists n. split; [ exact Hn | ].
        rewrite Nat.add_0_r, sent_at_app, Hhere, Nat.eqb_refl.
        rewrite Hbefore by lia. apply app_nil_r.
      * destruct (Hat k l Hk) as (m & Hm & Hsent). exists m. split; [ exact Hm | ].
        rewrite sent_at_app, Hhere.
        destruct (Nat.eqb_spec from (from + S k)); [ lia | ].
        rewrite <- Nat.add_succ_comm. exact Hsent.
    + intros [ | k] Hk; cbn [length] in Hk; [ lia | ].
      rewrite sent_at_app, Hhere.
      destruct (Nat.eqb_spec from (from + S k)); [ lia | ].
      rewrite <- Nat.add_succ_comm. apply Hafter. lia.
Qed.

Lemma counts_geocode_promises (this : MapboxService) (env : Environment GeocodeResponse)
    (locations : list string) (from : nat) :
  let t := concat (map trace (map_from (geocode_promise this env) from locations)) in
  length locations <= length (sent t) <= 4 * length locations /\
  length (retry_events t) + length locations = length (sent t).
Proof.
  revert from. induction locations as [ | location locations IH]; intros from; cbv zeta.
  - cbn. lia.
  - cbn [map_from map concat length]. rewrite trace_geocode_promise. unfold geocode_call.
    pose proof (axios_get_counts env from (geocode_url this)
                  (geocode_params this location)) as Hhere.
    specialize (IH (S from)). cbv zeta in Hhere, IH.
    rewrite sent_app, retry_events_app, !length_app. lia.
Qed.

(** X8. On a non-empty list, [batchGeocode] makes one provider call per
    location, duplicates included: the requests of the call at position [i]
    are between one and four copies of the GET of the geocoding endpoint with
    the token, [q] set to the location at position [i] and the limit 1; no
    other call is made.  In all it sends between N and 4N requests, and every
    request beyond the first of a call is announced by one retry warning. *)
Theorem batchGeocode_requests (this : MapboxService)
    (env : Environment GeocodeResponse) (locations : list string) :
  locations <> [] ->
  let t := trace (batchGeocode this env (ArrayOf locations)) in
  (forall i location, nth_error locations i = Some location ->
   exists n, n <= 3 /\
     sent_at i t =
     repeat {| req_method := "get";
               req_url := MAPBOX_BASE_URL this
                          ++ "/geocoding/v5/mapbox.places-permanent";
               req_params := [("access_token", PString (accessToken this));
                              ("q", PString location);
                              ("limit", PNumber 1)] |} (S n)) /\
  (forall i, length locations <= i -> sent_at i t = []) /\
  length locations <= length (sent t) <= 4 * length locations /\
  length (retry_events t) + length locations = length (sent t).
Proof.
  intros Hne. cbv zeta.
  assert (Htrace : exists ev,
            is_retry_event ev = false /\
            trace (batchGeocode this env (ArrayOf locations)) =
            (concat (map trace (map_from (geocode_promise this env) 0 locations))
             ++ [Log ev])%list).
  { rewrite batchGeocode_run by exact Hne. cbv zeta.
    destruct (outcome (Promise_all _ _)); cbn [trace fst Promise_all];
      eexists; (split; [ | reflexivity ]); reflexivity. }
  destruct Htrace as (ev & Hev & ->).
  destruct (sent_at_geocode_promises this env locations 0) as (_ & Hat & Hafter).
  destruct (counts_geocode_promises this env locations 0) as (Hbounds & Hevents).
  cbv zeta in Hat, Hafter, Hbounds, Hevents.
  split; [ | split; [ | split ] ].
  - intros i location Hi. rewrite sent_at_log. exact (Hat i location Hi).
  - intros i Hi. rewrite sent_at_log. exact (Hafter i Hi).
  - rewrite sent_log. exact Hbounds.
  - rewrite sent_log, retry_events_log by exact Hev. exact Hevents.
Qed.

(** ** Exhausted retries, first-attempt success, the back-off budget *)

Lemma axios_get_exhausted {B} (env : Environment B) (slot : nat)
    (url : string) (params : list (string * ParamValue)) :
  (forall j, j <= 3 -> retry_class (exchange env slot (get url params) j) = true) ->
  exists error,
    settle (get url params) (exchange env slot (get url params) 3) = inr error /\
    axios_get mapbox_retry env slot url params =
    (Send slot 0 (get url params) :: retry_steps env slot (get url params) 1 3,
     inr error).
Proof.
  intros Hall.
  destruct (axios_get_run env slot url params) as (n & Hn & _ & Hstop & Ht & Ho).
  assert (n = 3) as ->.
  { destruct (Nat.eq_dec n 3) as [Heq | Hneq]; [ exact Heq | ].
    rewrite Hall in Hstop by lia. assert (n < 3) as Hlt by lia.
    specialize (Hstop Hlt). discriminate. }
  pose proof (retried_retry_class (get url params)
                (exchange env slot (get url params) 3) eq_refl) as Hretried.
  rewrite Hall in Hretried by lia. unfold retried in Hretried.
  destruct (settle (get url params) (exchange env slot (get url params) 3))
    as [response | error]; [ discriminate | ].
  exists error. split; [ reflexivity | ].
  destruct (axios_get mapbox_retry env slot url params) as [t o].
  cbn [trace outcome fst snd] in Ht, Ho. rewrite Ht, Ho. reflexivity.
Qed.

(** X9. When the answers to all four attempts of a call are in the retry
    class, the call makes exactly four attempts with three retry warnings and
    fails with the error of the fourth, the last, attempt; the method then
    logs that error and throws its operation error. *)
Theorem retries_exhausted (this : MapboxService) :
  (forall env waypoints,
     2 <= length waypoints ->
     let req := get (route_url this waypoints) (route_params this) in
     (forall j, j <= 3 -> retry_class (exchange env 0 req j) = true) ->
     exists error,
       settle req (exchange env 0 req 3) = inr error /\
       getOptimizedRoute this env (ArrayOf waypoints) =
       ((Send 0 0 req :: retry_steps env 0 req 1 3)
        ++ [Log {| ev_level := LevelError;
                   ev_message := "Route optimization error: " ++ err_message error;
                   ev_meta := [("waypoints", MetaCoordinates waypoints);
                               ("status", status_meta error)] |}],
        inr (Error "Failed to optimize route"))%list) /\
  (forall env longitude latitude,
     let req := get (elevation_url this longitude latitude) (elevation_params this) in
     (forall j, j <= 3 -> retry_class (exchange env 0 req j) = true) ->
     exists error,
       settle req (exchange env 0 req 3) = inr error /\
       getElevation this env longitude latitude =
       ((Send 0 0 req :: retry_steps env 0 req 1 3)
        ++ [Log {| ev_level := LevelError;
                   ev_message := "Elevation fetch error: " ++ err_message error;
                   ev_meta := [("coordinates",
                                MetaString (Number_toString longitude ++ ", "
                                            ++ Number_toString latitude));
                               ("status", status_meta error)] |}],
        inr (Error "Failed to fetch elevation"))%list) /\
  (forall env points,
     2 <= length points ->
     let req := get (matrix_url this points) (matrix_params this) in
     (forall j, j <= 3 -> retry_class (exchange env 0 req j) = true) ->
     exists error,
       settle req (exchange env 0 req 3) = inr error /\
       getDistanceMatrix this env (ArrayOf points) =
       ((Send 0 0 req :: retry_steps env 0 req 1 3)
        ++ [Log {| ev_level := LevelError;
                   ev_message := "Distance matrix error: " ++ err_message error;
                   ev_meta := [("pointCount", MetaNumber (length points));
                               ("status", status_meta error)] |}],
        inr (Error "Failed to fetch distance matrix"))%list).
Proof.
  split; [ | split ].
  - intros env waypoints Hlen req Hall.
    destruct (axios_get_exhausted env 0 _ _ Hall) as (error & Hlast & Hrun).
    exists error. split; [ exact Hlast | ].
    rewrite getOptimizedRoute_run by exact Hlen. cbv zeta. unfold route_call.
    rewrite Hrun. reflexivity.
  - intros env longitude latitude req Hall.
    destruct (axios_get_exhausted env 0 _ _ Hall) as (error & Hlast & Hrun).
    exists error. split; [ exact Hlast | ].
    rewrite getElevation_run. cbv zeta. unfold elevation_call.
    rewrite Hrun. reflexivity.
  - intros env points Hlen req Hall.
    destruct (axios_get_exhausted env 0 _ _ Hall) as (error & Hlast & Hrun).
    exists error. split; [ exact Hlast | ].
    rewrite getDistanceMatrix_run by exact Hlen. cbv zeta. unfold matrix_call.
    rewrite Hrun. reflexivity.
Qed.

Lemma axios_get_first_try {B} (env : Environment B) (slot : nat)
    (url : string) (params : list (string * ParamValue)) (s : nat)
    (headers : Headers) (body : B) :
  exchange env slot (get url params) 0 = Response s headers body ->
  validateStatus s = true ->
  axios_get mapbox_retry env slot url params =
  ([Send slot 0 (get url params)], inl {| status := s; data := body |}).
Proof.
  intros Hfirst Hok. unfold axios_get. fold (get url params).
  cbn [mapbox_retry retries]. rewrite request_mapbox_retry, Hfirst.
  unfold settle. rewrite Hok, orb_true_r. reflexivity.
Qed.

(** X10. When the provider accepts the first attempt, a method costs one
    request: it sends exactly that request, logs no retry warning, waits for
    nothing and returns; [getOptimizedRoute] and [getDistanceMatrix] return
    the body as it came and log one info event with the number of
    coordinates. *)
Theorem first_attempt_success (this : MapboxService) (s : nat) :
  validateStatus s = true ->
  (forall env waypoints headers body,
     2 <= length waypoints ->
     exchange env 0 (get (route_url this waypoints) (route_params this)) 0 =
       Response s headers body ->
     getOptimizedRoute this env (ArrayOf waypoints) =
     ([Send 0 0 (get (route_url this waypoints) (route_params this));
       Log {| ev_level := LevelInfo;
              ev_message := "Route optimized for " ++ nat_to_string (length waypoints)
                            ++ " waypoints";
              ev_meta := [] |}],
      inl body)) /\
  (forall (env : Environment ElevationResponse) longitude latitude headers
          (body : ElevationResponse) feature rest,
     exchange env 0 (get (elevation_url this longitude latitude)
                       (elevation_params this)) 0 = Response s headers body ->
     features body = Some (feature :: rest) ->
     getElevation this env longitude latitude =
     ([Send 0 0 (get (elevation_url this longitude latitude) (elevation_params this))],
      inl (ele (properties feature)))) /\
  (forall env points headers body,
     2 <= length points ->
     exchange env 0 (get (matrix_url this points) (matrix_params this)) 0 =
       Response s headers body ->
     getDistanceMatrix this env (ArrayOf points) =
     ([Send 0 0 (get (matrix_url this points) (matrix_params this));
       Log {| ev_level := LevelInfo;
              ev_message := "Distance matrix calculated for "
                            ++ nat_to_string (length points) ++ " points";
              ev_meta := [] |}],
      inl body)).
Proof.
  intros Hok. split; [ | split ].
  - intros env waypoints headers body Hlen Hfirst.
    rewrite getOptimizedRoute_run by exact Hlen. cbv zeta. unfold route_call.
    rewrite (axios_get_first_try env 0 _ _ s headers body Hfirst Hok). reflexivity.
  - intros env longitude latitude headers body feature rest Hfirst Hfs.
    rewrite getElevation_run. cbv zeta. unfold elevation_call.
    rewrite (axios_get_first_try env 0 _ _ s headers body Hfirst Hok).
    cbn [outcome trace fst snd data]. rewrite Hfs. reflexivity.
  - intros env points headers body Hlen Hfirst.
    rewrite getDistanceMatrix_run by exact Hlen. cbv zeta. unfold matrix_call.
    rewrite (axios_get_first_try env 0 _ _ s headers body Hfirst Hok). reflexivity.
Qed.

Lemma total_wait_bound (r : nat -> Q) (e : nat -> JsError) (n : nat) :
  n <= 3 -> (forall k, (0 <= r k)%Q /\ (r k <= 1)%Q) ->
  (forall k, err_retry_after (e k) = None) ->
  (fold_right Qplus 0%Q (map (fun k => exponentialDelay (r k) k (e k)) (seq 1 n))
   <= 1680)%Q.
Proof.
  intros Hn Hr He.
  destruct (Hr 1) as [? ?], (Hr 2) as [? ?], (Hr 3) as [? ?].
  destruct n as [ | [ | [ | [ | n]]]]; [ | | | | lia ];
    cbn [seq map fold_right];
    rewrite ?exponentialDelay_None by apply He;
    cbn [Z.of_nat Pos.of_succ_nat Pos.succ Z.pow Z.pow_pos
         Pos.iter Z.mul Pos.mul Pos.add];
    unfold inject_Z; lra.
Qed.

Lemma rejection_no_retry_after {B} (env : Environment B) (slot : nat)
    (req : AxiosRequestConfig) (attempt : nat) :
  no_retry_after env ->
  err_retry_after (rejection req (exchange env slot req attempt)) = None.
Proof.
  intros Hno. unfold rejection.
  destruct (exchange env slot req attempt) as [code message | status headers body]
    eqn:Hanswer.
  - reflexivity.
  - exact (Hno _ _ _ _ _ _ Hanswer).
Qed.

Lemma total_wait_axios_get {B} (env : Environment B) (slot : nat)
    (url : string) (params : list (string * ParamValue)) :
  no_retry_after env ->
  (forall k, (0 <= Math_random env slot k)%Q /\ (Math_random env slot k <= 1)%Q) ->
  (total_wait (trace (axios_get mapbox_retry env slot url params)) <= 1680)%Q.
Proof.
  intros Hno Hr.
  destruct (axios_get_accounting env slot url params) as (n & Hn & _ & _ & Hw).
  unfold total_wait. cbv zeta in Hw. rewrite Hw.
  apply (total_wait_bound (Math_random env slot)
           (fun k => rejection (get url params)
                       (exchange env slot (get url params) (pred k))) n Hn Hr).
  intros k. apply rejection_no_retry_after. exact Hno.
Qed.

(** X11. The back-off of a call is bounded when the provider sends no
    [Retry-After] header: with the draws of [Math.random] in the unit
    interval, the waits that one call of [getOptimizedRoute], [getElevation]
    or [getDistanceMatrix] adds up to are then at most 1680 milliseconds
    (240 + 480 + 960, the three retries with full jitter).  A response with
    a [Retry-After] header lengthens the wait to what the header asks for,
    and no such budget holds. *)
Theorem backoff_budget (this : MapboxService) :
  (forall env arg,
     no_retry_after env ->
     (forall k, (0 <= Math_random env 0 k)%Q /\ (Math_random env 0 k <= 1)%Q) ->
     (total_wait (trace (getOptimizedRoute this env arg)) <= 1680)%Q) /\
  (forall env longitude latitude,
     no_retry_after env ->
     (forall k, (0 <= Math_random env 0 k)%Q /\ (Math_random env 0 k <= 1)%Q) ->
     (total_wait (trace (getElevation this env longitude latitude)) <= 1680)%Q) /\
  (forall env arg,
     no_retry_after env ->
     (forall k, (0 <= Math_random env 0 k)%Q /\ (Math_random env 0 k <= 1)%Q) ->
     (total_wait (trace (getDistanceMatrix this env arg)) <= 1680)%Q).
Proof.
  assert (Hzero : (total_wait [] <= 1680)%Q) by (cbn; lra).
  split; [ | split ].
  - intros env [ | waypoints] Hno Hr; [ exact Hzero | ].
    destruct (Nat.lt_ge_cases (length waypoints) 2) as [Hlt | Hge].
    + unfold getOptimizedRoute.
      destruct (Nat.ltb_spec (length waypoints) 2); [ exact Hzero | lia ].
    + rewrite getOptimizedRoute_run by exact Hge. cbv zeta. unfold route_call.
      pose proof (total_wait_axios_get env 0 (route_url this waypoints)
                    (route_params this) Hno Hr) as Hcall.
      destruct (outcome (axios_get mapbox_retry env 0 _ _)); cbn [trace fst];
        unfold total_wait in *; rewrite waits_log; exact Hcall.
  - intros env longitude latitude Hno Hr. rewrite getElevation_run. cbv zeta.
    unfold elevation_call.
    pose proof (total_wait_axios_get env 0 (elevation_url this longitude latitude)
                  (elevation_params this) Hno Hr) as Hcall.
    destruct (outcome (axios_get mapbox_retry env 0 _ _)) as [response | error];
      [ destruct (features (data response)) as [[ | feature fs] | ] | ];
      cbn [trace fst]; unfold total_wait in *; rewrite ?waits_log; exact Hcall.
  - intros env [ | points] Hno Hr; [ exact Hzero | ].
    destruct (Nat.lt_ge_cases (length points) 2) as [Hlt | Hge].
    + unfold getDistanceMatrix.
      destruct (Nat.ltb_spec (length points) 2); [ exact Hzero | lia ].
    + rewrite getDistanceMatrix_run by exact Hge. cbv zeta. unfold matrix_call.
      pose proof (total_wait_axios_get env 0 (matrix_url this points)
                    (matrix_params this) Hno Hr) as Hcall.
      destruct (outcome (axios_get mapbox_retry env 0 _ _)); cbn [trace fst];
        unfold total_wait in *; rewrite waits_log; exact Hcall.
Qed.

(** ** The constructed service *)

(** X12. A successful construction is silent and yields a service on the
    base URL [https://api.mapbox.com] holding the credential; every request
    that any method of such a service sends is a GET whose URL lies under
    that base.  A failed construction logs exactly one error-level event
    before it throws. *)
Theorem constructed_service (credential : option string) :
  (forall this,
     outcome (constructor credential) = inl this ->
     trace (constructor credential) = [] /\
     MAPBOX_BASE_URL this = "https://api.mapbox.com" /\
     credential = Some (accessToken this) /\
     forall req,
       ((exists env arg, In req (sent (trace (getOptimizedRoute this env arg)))) \/
        (exists env longitude latitude,
           In req (sent (trace (getElevation this env longitude latitude)))) \/
        (exists env arg, In req (sent (trace (batchGeocode this env arg)))) \/
        (exists env arg, In req (sent (trace (getDistanceMatrix this env arg))))) ->
       req_method req = "get" /\
       starts_with "https://api.mapbox.com/" (req_url req) = true) /\
  (forall e,
     outcome (constructor credential) = inr e ->
     trace (constructor credential) =
       [Log {| ev_level := LevelError;
               ev_message := "Mapbox access token not provided";
               ev_meta := [] |}]).
Proof.
  destruct credential as [token | ]; cbn [constructor];
    [ destruct (String.eqb_spec token "") as [-> | Hne] | ].
  - split; [ intros this; discriminate | intros e _; reflexivity ].
  - split; [ | intros e; discriminate ].
    intros this [= <-]. split; [ reflexivity | ]. split; [ reflexivity | ].
    split; [ reflexivity | ].
    set (this := {| MAPBOX_BASE_URL := "https://api.mapbox.com";
                    accessToken := token |}).
    intros req [(env & arg & Hin) | [(env & longitude & latitude & Hin)
                | [(env & arg & Hin) | (env & arg & Hin)]]].
    + destruct arg as [ | waypoints]; [ destruct Hin | ].
      destruct (Nat.lt_ge_cases (length waypoints) 2) as [Hlt | Hge].
      * unfold getOptimizedRoute in Hin.
        destruct (Nat.ltb_spec (length waypoints) 2); [ destruct Hin | lia ].
      * destruct (sent_getOptimizedRoute this env waypoints Hge) as (n & _ & Hsent).
        rewrite Hsent in Hin. apply repeat_spec in Hin. subst req.
        split; reflexivity.
    + destruct (sent_getElevation this env longitude latitude) as (n & _ & Hsent).
      rewrite Hsent in Hin. apply repeat_spec in Hin. subst req. split; reflexivity.
    + destruct (sent_batchGeocode this env arg req Hin) as (ls & l & _ & _ & ->).
      split; reflexivity.
    + destruct arg as [ | points]; [ destruct Hin | ].
      destruct (Nat.lt_ge_cases (length points) 2) as [Hlt | Hge].
      * unfold getDistanceMatrix in Hin.
        destruct (Nat.ltb_spec (length points) 2); [ destruct Hin | lia ].
      * destruct (sent_getDistanceMatrix this env points Hge) as (n & _ & Hsent).
        rewrite Hsent in Hin. apply repeat_spec in Hin. subst req.
        split; reflexivity.
  - split; [ intros this; discriminate | intros e _; reflexivity ].
Qed.

(** ** Serialisation is injective *)

Lemma map_Some_injective {A B} (f : A -> B) (l1 l2 : list A) :
  map (fun x => Some (f x)) l1 = map (fun x => Some (f x)) l2 ->
  map f l1 = map f l2.
Proof.
  revert l2. induction l1 as [ | x l1 IH]; intros [ | y l2]; cbn [map];
    try discriminate; [ reflexivity | ].
  intros [= Hhead Htail]. rewrite Hhead, (IH l2 Htail). reflexivity.
Qed.

(** X13. The path segment that [getOptimizedRoute] and [getDistanceMatrix]
    build determines the coordinates: two non-empty sequences whose numbers
    print without a separator get the same segment only if they have the same
    length and, position by position, the same longitude and latitude
    texts. *)
Theorem coordinates_path_injective (a b : list Coordinate) :
  a <> [] -> b <> [] ->
  forallb plain a = true -> forallb plain b = true ->
  coordinates_path a = coordinates_path b ->
  length a = length b /\ map lonlat_texts a = map lonlat_texts b.
Proof.
  intros Ha Hb Hpa Hpb Heq.
  rewrite !coordinates_path_lonlat_path in Heq.
  apply (f_equal parse_path) in Heq.
  rewrite (parse_path_lonlat_path a Ha Hpa), (parse_path_lonlat_path b Hb Hpb) in Heq.
  apply map_Some_injective in Heq. split; [ | exact Heq ].
  rewrite <- (length_map lonlat_texts a), <- (length_map lonlat_texts b), Heq.
  reflexivity.
Qed.

(** ** The credential stays in the requests *)

Lemma without_requests_app (t1 t2 : list Effect) :
  without_requests (t1 ++ t2) = (without_requests t1 ++ without_requests t2)%list.
Proof. apply filter_app. Qed.

Lemma settle_same_method {B} (req1 req2 : AxiosRequestConfig) (r : HttpResult B) :
  req_method req1 = req_method req2 -> settle req1 r = settle req2 r.
Proof.
  intros Hm. unfold settle, AxiosError_network, AxiosError_status.
  rewrite Hm. reflexivity.
Qed.

Lemma request_same_answers {B} (env : Environment B) (slot : nat)
    (req1 req2 : AxiosRequestConfig) :
  req_method req1 = req_method req2 ->
  (forall attempt, exchange env slot req1 attempt = exchange env slot req2 attempt) ->
  forall retries_left retryCount,
    without_requests (trace (request mapbox_retry env slot req1 retries_left retryCount)) =
    without_requests (trace (request mapbox_retry env slot req2 retries_left retryCount)) /\
    outcome (request mapbox_retry env slot req1 retries_left retryCount) =
    outcome (request mapbox_retry env slot req2 retries_left retryCount).
Proof.
  intros Hm Hx retries_left.
  induction retries_left as [ | retries_left' IH]; intros retryCount;
    rewrite (request_mapbox_retry env slot req1), (request_mapbox_retry env slot req2),
      (Hx retryCount), (settle_same_method req1 req2 _ Hm);
    destruct (settle req2 (exchange env slot req2 retryCount)) as [response | error];
    try (split; reflexivity).
  destruct (mapbox_retryCondition error); [ | split; reflexivity ].
  destruct (IH (S retryCount)) as [Ht Ho].
  cbn [trace outcome fst snd without_requests filter]. rewrite Ho.
  split; [ | reflexivity ].
  unfold without_requests in Ht. rewrite Ht. reflexivity.
Qed.

Lemma axios_get_same_answers {B} (env : Environment B) (slot : nat)
    (url : string) (params1 params2 : list (string * ParamValue)) :
  answers_by_url env ->
  without_requests (trace (axios_get mapbox_retry env slot url params1)) =
  without_requests (trace (axios_get mapbox_retry env slot url params2)) /\
  outcome (axios_get mapbox_retry env slot url params1) =
  outcome (axios_get mapbox_retry env slot url params2).
Proof.
  intros Henv. unfold axios_get.
  apply (request_same_answers env slot (get url params1) (get url params2) eq_refl).
  intros attempt. apply Henv; reflexivity.
Qed.

Lemma first_rejection_ext {A} (ps1 ps2 : list (Run A)) :
  map outcome ps1 = map outcome ps2 -> first_rejection ps1 = first_rejection ps2.
Proof.
  revert ps2. induction ps1 as [ | p1 ps1 IH]; intros [ | p2 ps2]; cbn [map];
    try discriminate; [ reflexivity | ].
  intros [= Hhead Htail]. cbn [first_rejection]. rewrite Hhead.
  destruct (outcome p2); [ apply IH; exact Htail | reflexivity ].
Qed.

Lemma fulfilled_values_ext {A} (ps1 ps2 : list (Run A)) :
  map outcome ps1 = map outcome ps2 -> fulfilled_values ps1 = fulfilled_values ps2.
Proof.
  revert ps2. induction ps1 as [ | p1 ps1 IH]; intros [ | p2 ps2]; cbn [map];
    try discriminate; [ reflexivity | ].
  intros [= Hhead Htail]. unfold fulfilled_values in *. cbn [flat_map].
  rewrite Hhead, (IH ps2 Htail). reflexivity.
Qed.

Lemma earliest_rejection_ext {A} (order : list nat) (ps1 ps2 : list (Run A)) :
  map outcome ps1 = map outcome ps2 ->
  earliest_rejection order ps1 = earliest_rejection order ps2.
Proof.
  intros Hps. induction order as [ | i order IH]; [ reflexivity | ].
  cbn [earliest_rejection].
  assert (Hi : option_map outcome (nth_error ps1 i) = option_map outcome (nth_error ps2 i))
    by (rewrite <- !nth_error_map, Hps; reflexivity).
  destruct (nth_error ps1 i) as [[t1 o1] | ], (nth_error ps2 i) as [[t2 o2] | ];
    cbn in Hi; try discriminate; [ | exact IH ].
  injection Hi as ->. destruct o2; [ exact IH | reflexivity ].
Qed.

Lemma Promise_all_outcome_ext {A} (order : list nat) (ps1 ps2 : list (Run A)) :
  map outcome ps1 = map outcome ps2 ->
  outcome (Promise_all order ps1) = outcome (Promise_all order ps2).
Proof.
  intros Hps. unfold Promise_all. cbn [outcome snd].
  rewrite (earliest_rejection_ext order ps1 ps2 Hps),
          (first_rejection_ext ps1 ps2 Hps), (fulfilled_values_ext ps1 ps2 Hps).
  reflexivity.
Qed.

Lemma geocode_promises_same (this1 this2 : MapboxService)
    (env : Environment GeocodeResponse) (locations : list string) (from : nat) :
  MAPBOX_BASE_URL this1 = MAPBOX_BASE_URL this2 ->
  answers_by_url env ->
  without_requests (concat (map trace (map_from (geocode_promise this1 env) from locations))) =
  without_requests (concat (map trace (map_from (geocode_promise this2 env) from locations))) /\
  map outcome (map_from (geocode_promise this1 env) from locations) =
  map outcome (map_from (geocode_promise this2 env) from locations).
Proof.
  intros Hbase Henv. revert from.
  induction locations as [ | location locations IH]; intros from;
    [ split; reflexivity | ].
  cbn [map_from map concat]. destruct (IH (S from)) as [Ht Ho].
  rewrite !without_requests_app, !trace_geocode_promise, !outcome_geocode_promise, Ht, Ho.
  unfold geocode_call, geocode_url. rewrite Hbase.
  destruct (axios_get_same_answers env from
              (MAPBOX_BASE_URL this2 ++ "/geocoding/v5/mapbox.places-permanent")
              (geocode_params this1 location) (geocode_params this2 location) Henv)
    as [Hcall_t Hcall_o].
  rewrite Hcall_t, Hcall_o. split; reflexivity.
Qed.

(** X14. The credential reaches the provider and nothing else.  Take two
    services on the same base URL that differ in their token, and a provider
    whose answers do not depend on the query parameters: every method then
    returns or throws the same and leaves the same log events and waits with
    either service; the runs differ only in the requests. *)
Theorem credential_only_in_requests (this1 this2 : MapboxService) :
  MAPBOX_BASE_URL this1 = MAPBOX_BASE_URL this2 ->
  (forall env arg,
     answers_by_url env ->
     without_requests (trace (getOptimizedRoute this1 env arg)) =
     without_requests (trace (getOptimizedRoute this2 env arg)) /\
     outcome (getOptimizedRoute this1 env arg) = outcome (getOptimizedRoute this2 env arg)) /\
  (forall env longitude latitude,
     answers_by_url env ->
     without_requests (trace (getElevation this1 env longitude latitude)) =
     without_requests (trace (getElevation this2 env longitude latitude)) /\
     outcome (getElevation this1 env longitude latitude) =
     outcome (getElevation this2 env longitude latitude)) /\
  (forall env arg,
     answers_by_url env ->
     without_requests (trace (batchGeocode this1 env arg)) =
     without_requests (trace (batchGeocode this2 env arg)) /\
     outcome (batchGeocode this1 env arg) = outcome (batchGeocode this2 env arg)) /\
  (forall env arg,
     answers_by_url env ->
     without_requests (trace (getDistanceMatrix this1 env arg)) =
     without_requests (trace (getDistanceMatrix this2 env arg)) /\
     outcome (getDistanceMatrix this1 env arg) = outcome (getDistanceMatrix this2 env arg)).
Proof.
  intros Hbase.
  assert (Hcall : forall B (env : Environment B) url1 url2 params1 params2,
            answers_by_url env -> url1 = url2 ->
            without_requests (trace (axios_get mapbox_retry env 0 url1 params1)) =
            without_requests (trace (axios_get mapbox_retry env 0 url2 params2)) /\
            outcome (axios_get mapbox_retry env 0 url1 params1) =
            outcome (axios_get mapbox_retry env 0 url2 params2)).
  { intros B env url1 url2 params1 params2 Henv <-.
    apply axios_get_same_answers. exact Henv. }
  split; [ | split; [ | split ] ].
  - intros env [ | waypoints] Henv; [ split; reflexivity | ].
    destruct (Nat.lt_ge_cases (length waypoints) 2) as [Hlt | Hge].
    + unfold getOptimizedRoute.
      destruct (Nat.ltb_spec (length waypoints) 2); [ split; reflexivity | lia ].
    + rewrite !getOptimizedRoute_run by exact Hge. cbv zeta. unfold route_call.
      destruct (Hcall _ env (route_url this1 waypoints) (route_url this2 waypoints)
                  (route_params this1) (route_params this2) Henv) as [Ht Ho].
      { unfold route_url. rewrite Hbase. reflexivity. }
      rewrite Ho.
      destruct (outcome (axios_get mapbox_retry env 0 (route_url this2 waypoints) _));
        cbn [trace outcome fst snd]; rewrite !without_requests_app, Ht;
        split; reflexivity.
  - intros env longitude latitude Henv.
    rewrite !getElevation_run. cbv zeta. unfold elevation_call.
    destruct (Hcall _ env (elevation_url this1 longitude latitude)
                (elevation_url this2 longitude latitude)
                (elevation_params this1) (elevation_params this2) Henv) as [Ht Ho].
    { unfold elevation_url. rewrite Hbase. reflexivity. }
    rewrite Ho.
    destruct (outcome (axios_get mapbox_retry env 0
                         (elevation_url this2 longitude latitude) _))
      as [response | error];
      [ destruct (features (data response)) as [[ | feature fs] | ] | ];
      cbn [trace outcome fst snd]; rewrite ?without_requests_app, Ht;
      split; reflexivity.
  - intros env [ | locations] Henv; [ split; reflexivity | ].
    destruct locations as [ | l0 ls] eqn:Hlocs; [ split; reflexivity | ].
    rewrite <- Hlocs. assert (Hne : locations <> []) by (subst; discriminate).
    rewrite !batchGeocode_run by exact Hne. cbv zeta.
    destruct (geocode_promises_same this1 this2 env locations 0 Hbase Henv) as [Ht Ho].
    rewrite (Promise_all_outcome_ext (settle_order env) _ _ Ho).
    destruct (outcome (Promise_all (settle_order env)
                (map_from (geocode_promise this2 env) 0 locations)));
      cbn [trace outcome fst snd Promise_all];
      rewrite !without_requests_app, Ht; split; reflexivity.
  - intros env [ | points] Henv; [ split; reflexivity | ].
    destruct (Nat.lt_ge_cases (length points) 2) as [Hlt | Hge].
    + unfold getDistanceMatrix.
      destruct (Nat.ltb_spec (length points) 2); [ split; reflexivity | lia ].
    + rewrite !getDistanceMatrix_run by exact Hge. cbv zeta. unfold matrix_call.
      destruct (Hcall _ env (matrix_url this1 points) (matrix_url this2 points)
                  (matrix_params this1) (matrix_params this2) Henv) as [Ht Ho].
      { unfold matrix_url. rewrite Hbase. reflexivity. }
      rewrite Ho.
      destruct (outcome (axios_get mapbox_retry env 0 (matrix_url this2 points) _));
        cbn [trace outcome fst snd]; rewrite !without_requests_app, Ht;
        split; reflexivity.
Qed.

(** ** The order in which concurrent calls settle *)

Lemma request_with_order {B} (env : Environment B) (order : list nat) (slot : nat)
    (req : AxiosRequestConfig) (retries_left retryCount : nat) :
  request mapbox_retry (with_order env order) slot req retries_left retryCount =
  request mapbox_retry env slot req retries_left retryCount.
Proof.
  revert retryCount. induction retries_left as [ | retries_left' IH]; intros retryCount;
    rewrite (request_mapbox_retry (with_order env order)), (request_mapbox_retry env);
    cbn [with_order exchange Math_random]; [ reflexivity | ].
  rewrite IH. reflexivity.
Qed.

Lemma map_from_ext {A B} (f g : nat -> A -> B) (l : list A) (from : nat) :
  (forall i x, f i x = g i x) -> map_from f from l = map_from g from l.
Proof.
  intros Hfg. revert from. induction l as [ | x l IH]; intros from; cbn [map_from];
    [ reflexivity | ].
  rewrite Hfg, IH. reflexivity.
Qed.

Lemma Promise_all_any_order {A} (order1 order2 : list nat) (ps : list (Run A)) :
  (exists values, outcome (Promise_all order1 ps) = inl values /\
                  outcome (Promise_all order2 ps) = inl values) \/
  (exists e1 e2, outcome (Promise_all order1 ps) = inr e1 /\
                 outcome (Promise_all order2 ps) = inr e2).
Proof.
  destruct (first_rejection ps) as [e | ] eqn:Hfirst.
  - destruct (first_rejection_Some ps e Hfirst) as (i & p & Hp & Ho).
    destruct (Promise_all_rejected order1 ps i p e Hp Ho) as (_ & _ & e1 & _ & _ & H1).
    destruct (Promise_all_rejected order2 ps i p e Hp Ho) as (_ & _ & e2 & _ & _ & H2).
    right. exists e1, e2. split; assumption.
  - pose proof (proj1 (first_rejection_None ps) Hfirst) as Hall.
    destruct (Promise_all_fulfilled order1 ps Hall) as (H1 & _).
    destruct (Promise_all_fulfilled order2 ps Hall) as (H2 & _).
    left. exists (fulfilled_values ps). split; assumption.
Qed.

(** X15. What [batchGeocode] returns or throws does not depend on the
    order in which its concurrent calls settle: the order decides which
    rejection [Promise.all] passes on, and the method throws the same fixed
    error for each of them. *)
Theorem batchGeocode_any_order (this : MapboxService)
    (env : Environment GeocodeResponse) (order : list nat) (arg : Arg string) :
  outcome (batchGeocode this (with_order env order) arg) =
  outcome (batchGeocode this env arg).
Proof.
  destruct arg as [ | locations]; [ reflexivity | ].
  destruct locations as [ | l0 ls] eqn:Hlocs; [ reflexivity | ].
  rewrite <- Hlocs. assert (Hne : locations <> []) by (subst; discriminate).
  rewrite !batchGeocode_run by exact Hne. cbv zeta.
  assert (Hps : map_from (geocode_promise this (with_order env order)) 0 locations =
                map_from (geocode_promise this env) 0 locations).
  { apply map_from_ext. intros i location.
    unfold geocode_promise, geocode_call, axios_get.
    rewrite request_with_order. reflexivity. }
  rewrite Hps. cbn [with_order settle_order].
  destruct (Promise_all_any_order order (settle_order env)
              (map_from (geocode_promise this env) 0 locations))
    as [(values & H1 & H2) | (e1 & e2 & H1 & H2)];
    rewrite H1, H2; reflexivity.
Qed.

End Properties.

(** * Concrete runs *)

Import Sample.

Lemma rate_limited_twice_sample {B} (body : B) (slot : nat) (req : AxiosRequestConfig) :
  rate_limited_twice (env_429_429_200 body) slot req {| status := 200; data := body |}.
Proof.
  split; [ exists no_headers, body; reflexivity | ].
  split; [ exists no_headers, body; reflexivity | ].
  split; [ exists no_headers; reflexivity | reflexivity ].
Qed.

Lemma retry_policy_witness :
  rate_limited_twice (env_429_429_200 sample_route) 0
    (get (route_url sample_service two_waypoints) (route_params sample_service))
    {| status := 200; data := sample_route |} /\
  outcome (getOptimizedRoute sample_service (env_429_429_200 sample_route)
             (ArrayOf two_waypoints)) = inl sample_route /\
  retry_events (trace (getOptimizedRoute sample_service (env_429_429_200 sample_route)
                         (ArrayOf two_waypoints))) =
    [retry_event 1; retry_event 2] /\
  trace (axios_get mapbox_retry (env_status 400 sample_route) 0 "u" []) =
    [Send 0 0 (get "u" [])] /\
  (exists error,
     outcome (axios_get mapbox_retry (env_status 400 sample_route) 0 "u" []) =
       inr error /\
     err_status error = Some 400 /\
     err_message error = "Request failed with status code 400") /\
  retried (get "u" []) (@NoResponse OptimizedRouteResponse (Some "ETIMEDOUT")
                          "connect ETIMEDOUT 151.101.0.1:443") = true /\
  (inject_Z 200
   <= exponentialDelay (1 # 2) 1 (AxiosError_status (get "u" []) 429 no_headers))%Q /\
  (exponentialDelay (1 # 2) 1 (AxiosError_status (get "u" []) 429 no_headers)
   <= inject_Z 240)%Q /\
  (retryAfter (AxiosError_status (get "u" []) 429
                 {| retry_after := Some (DelaySeconds 1) |})
   <= exponentialDelay (1 # 2) 1
        (AxiosError_status (get "u" []) 429
           {| retry_after := Some (DelaySeconds 1) |}))%Q.
Proof.
  assert (Hlimited : rate_limited_twice (env_429_429_200 sample_route) 0
            (get (route_url sample_service two_waypoints) (route_params sample_service))
            {| status := 200; data := sample_route |}).
  { apply rate_limited_twice_sample. }
  destruct retry_policy as (Hcall & Hdelay & Hroute & _).
  split; [ exact Hlimited | ].
  destruct (Hroute sample_service (env_429_429_200 sample_route) two_waypoints
              {| status := 200; data := sample_route |}) as [Hout Hevents].
  - cbn. lia.
  - exact Hlimited.
  - split; [ exact Hout | ]. split; [ exact Hevents | ].
    destruct (Hcall _ (env_status 400 sample_route) 0 "u" [])
      as (Hclass & _ & _ & Hstop).
    destruct (Hstop 400 no_headers sample_route) as [Htrace Herror];
      try reflexivity; [ discriminate | ].
    split; [ exact Htrace | ]. split; [ exact Herror | ].
    split; [ rewrite Hclass; reflexivity | ].
    destruct (Hdelay (1 # 2)%Q 1 (AxiosError_status (get "u" []) 429 no_headers))
      as (Hlower & _ & Hupper); [ discriminate | discriminate | ].
    split; [ exact Hlower | ].
    destruct (Hupper eq_refl) as [Hle _]. split; [ exact Hle | ].
    destruct (Hdelay (1 # 2)%Q 1
                (AxiosError_status (get "u" []) 429
                   {| retry_after := Some (DelaySeconds 1) |}))
      as (_ & Hheader & _); [ discriminate | discriminate | ].
    exact Hheader.
Defined.

(** A GET answered with 503 is retried, and one that ends without a
    response and with the code [ECONNABORTED] is not: the retry condition is
    not "network-level failure or status 429". *)
Lemma retry_policy_counterexample :
  spec_retry_class (Response 503 no_headers sample_route) = false /\
  retried (get (route_url sample_service two_waypoints) (route_params sample_service))
    (Response 503 no_headers sample_route) = true /\
  getOptimizedRoute sample_service (env_503_200 sample_route) (ArrayOf two_waypoints) =
    ([Send 0 0 (get (route_url sample_service two_waypoints)
                  (route_params sample_service));
      Log (retry_event 1);
      Sleep (exponentialDelay (1 # 2) 1
               (AxiosError_status
                  (get (route_url sample_service two_waypoints)
                     (route_params sample_service)) 503 no_headers));
      Send 0 1 (get (route_url sample_service two_waypoints)
                  (route_params sample_service));
      Log (info_event "Route optimized for 2 waypoints")],
     inl sample_route) /\
  spec_retry_class
    (@NoResponse OptimizedRouteResponse (Some "ECONNABORTED")
       "read ECONNABORTED") = true /\
  sent (trace (getOptimizedRoute sample_service env_aborted (ArrayOf two_waypoints))) =
    [get (route_url sample_service two_waypoints) (route_params sample_service)].
Proof.
  repeat split; reflexivity.
Qed.

(** A response with [Retry-After: 1] lengthens the wait before the retry
    from a fifth of a second to a second, jitter apart: with status 429 and
    that header twice, then 200, and draws of one half, the waits are 1100
    and 1100 milliseconds where they are 220 and 440 without the header. *)
Lemma retry_after_run :
  map Qred (waits (trace (getOptimizedRoute sample_service
                            (env_retry_after sample_route) (ArrayOf two_waypoints)))) =
    [1100; 1100]%Q /\
  map Qred (waits (trace (getOptimizedRoute sample_service
                            (env_429_429_200 sample_route) (ArrayOf two_waypoints)))) =
    [220; 440]%Q /\
  outcome (getOptimizedRoute sample_service (env_retry_after sample_route)
             (ArrayOf two_waypoints)) = inl sample_route.
Proof.
  repeat split; vm_compute; reflexivity.
Qed.

(** A connection that times out (Node's [ETIMEDOUT]) is retried. *)
Lemma timed_out_run :
  getOptimizedRoute sample_service (env_timed_out_200 sample_route)
    (ArrayOf two_waypoints) =
    ([Send 0 0 (get (route_url sample_service two_waypoints)
                  (route_params sample_service));
      Log (retry_event 1);
      Sleep (exponentialDelay (1 # 2) 1
               (AxiosError_network
                  (get (route_url sample_service two_waypoints)
                     (route_params sample_service))
                  (Some "ETIMEDOUT") "connect ETIMEDOUT 151.101.0.1:443"));
      Send 0 1 (get (route_url sample_service two_waypoints)
                  (route_params sample_service));
      Log (info_event "Route optimized for 2 waypoints")],
     inl sample_route).
Proof.
  reflexivity.
Qed.

Lemma batchGeocode_all_or_nothing_witness :
  ["Paris"; "Nowhere"] <> [] /\
  nth_error ["Paris"; "Nowhere"] 1 = Some "Nowhere" /\
  outcome (geocode_call sample_service env_second_fails 1 "Nowhere") =
    inr (AxiosError_status
           (get (geocode_url sample_service) (geocode_params sample_service "Nowhere"))
           404 no_headers) /\
  outcome (batchGeocode sample_service env_second_fails (ArrayOf ["Paris"; "Nowhere"])) =
    inr (Error "Failed to geocode locations").
Proof.
  assert (Hne : ["Paris"; "Nowhere"] <> []) by discriminate.
  split; [ exact Hne | ]. split; [ reflexivity | ]. split; [ reflexivity | ].
  apply (batchGeocode_all_or_nothing sample_service env_second_fails
           ["Paris"; "Nowhere"] 1 "Nowhere"
           (AxiosError_status
              (get (geocode_url sample_service)
                 (geocode_params sample_service "Nowhere")) 404 no_headers)).
  - exact Hne.
  - reflexivity.
  - reflexivity.
Defined.

(** The failure event of [getElevation] carries the coordinate pair itself,
    and that of [getOptimizedRoute] the whole list of waypoints: neither is a
    count. *)
Lemma failure_reporting_counterexample :
  logged (trace (getElevation sample_service
                   (env_status 404 {| features := None |}) sample_longitude sample_latitude)) =
    [{| ev_level := LevelError;
        ev_message := "Elevation fetch error: Request failed with status code 404";
        ev_meta := [("coordinates", MetaString "2, 49");
                    ("status", MetaNumber 404)] |}] /\
  summary_is_count
    {| ev_level := LevelError;
       ev_message := "Elevation fetch error: Request failed with status code 404";
       ev_meta := [("coordinates", MetaString "2, 49");
                   ("status", MetaNumber 404)] |} = false /\
  logged (trace (getOptimizedRoute sample_service (env_status 404 sample_route)
                   (ArrayOf two_waypoints))) =
    [{| ev_level := LevelError;
        ev_message := "Route optimization error: Request failed with status code 404";
        ev_meta := [("waypoints", MetaCoordinates two_waypoints);
                    ("status", MetaNumber 404)] |}] /\
  summary_is_count
    {| ev_level := LevelError;
       ev_message := "Route optimization error: Request failed with status code 404";
       ev_meta := [("waypoints", MetaCoordinates two_waypoints);
                   ("status", MetaNumber 404)] |} = false.
Proof.
  repeat split; reflexivity.
Qed.

Lemma failure_reporting_witness :
  outcome (matrix_call sample_service (env_status 404 sample_matrix) two_waypoints) =
    inr (AxiosError_status
           (get (matrix_url sample_service two_waypoints) (matrix_params sample_service))
           404 no_headers) /\
  outcome (getDistanceMatrix sample_service (env_status 404 sample_matrix)
             (ArrayOf two_waypoints)) =
    inr (Error "Failed to fetch distance matrix") /\
  logged (trace (getDistanceMatrix sample_service (env_status 404 sample_matrix)
                   (ArrayOf two_waypoints))) =
    [{| ev_level := LevelError;
        ev_message := "Distance matrix error: Request failed with status code 404";
        ev_meta := [("pointCount", MetaNumber 2); ("status", MetaNumber 404)] |}].
Proof.
  split; [ reflexivity | ].
  destruct (failure_reporting sample_service) as (_ & _ & _ & Hmatrix).
  destruct (Hmatrix (env_status 404 sample_matrix) two_waypoints
              (AxiosError_status
                 (get (matrix_url sample_service two_waypoints)
                    (matrix_params sample_service)) 404 no_headers))
    as [Hthrown Htrace].
  - cbn. lia.
  - reflexivity.
  - split; [ exact Hthrown | ]. rewrite Htrace. reflexivity.
Defined.

Lemma getElevation_features_witness :
  outcome (elevation_call sample_service
             (env_status 200 {| features := Some [] |}) sample_longitude sample_latitude) =
    inl {| status := 200; data := {| features := Some [] |} |} /\
  outcome (getElevation sample_service
             (env_status 200 {| features := Some [] |}) sample_longitude sample_latitude) = inl (0%Z : @number integers) /\
  logged (trace (getElevation sample_service
                   (env_status 200 {| features := Some [] |}) sample_longitude sample_latitude)) =
    [{| ev_level := LevelWarn;
        ev_message := "No elevation data for coordinates: 2, 49";
        ev_meta := [] |}] /\
  outcome (getElevation sample_service
             (env_status 200 {| features := Some [sample_feature] |}) sample_longitude sample_latitude) =
    inl (120%Z : @number integers).
Proof.
  split; [ reflexivity | ].
  destruct (getElevation_features sample_service
              (env_status 200 {| features := Some [] |}) sample_longitude sample_latitude
              {| status := 200; data := {| features := Some [] |} |} eq_refl)
    as [Hempty _].
  destruct (Hempty eq_refl) as [Hzero Htrace].
  split; [ exact Hzero | ]. split; [ rewrite Htrace; reflexivity | ].
  destruct (getElevation_features sample_service
              (env_status 200 {| features := Some [sample_feature] |}) sample_longitude sample_latitude
              {| status := 200; data := {| features := Some [sample_feature] |} |}
              eq_refl)
    as [_ Hfirst].
  exact (Hfirst sample_feature [] eq_refl).
Defined.

Lemma getElevation_missing_features_witness :
  outcome (elevation_call sample_service
             (env_status 200 {| features := None |}) sample_longitude sample_latitude) =
    inl {| status := 200; data := {| features := None |} |} /\
  outcome (getElevation sample_service
             (env_status 200 {| features := None |}) sample_longitude sample_latitude) =
    inr (Error "Failed to fetch elevation").
Proof.
  split; [ reflexivity | ].
  exact (proj1 (getElevation_missing_features sample_service
                  (env_status 200 {| features := None |}) sample_longitude sample_latitude
                  {| status := 200; data := {| features := None |} |}
                  eq_refl eq_refl)).
Defined.

Lemma batchGeocode_positional_witness :
  outcome (batchGeocode sample_service env_paris
             (ArrayOf ["Paris"; "Nonexistent__Place_X"])) =
    inl [Some paris; None].
Proof.
  destruct (batchGeocode_positional sample_service env_paris
              ["Paris"; "Nonexistent__Place_X"])
    as (results & Hout & Hlen & Hnth).
  - discriminate.
  - intros [ | [ | i]] location Hi; cbn in Hi.
    + injection Hi as <-. eexists. exists [paris]. split; reflexivity.
    + injection Hi as <-. eexists. exists []. split; reflexivity.
    + destruct i; discriminate.
  - rewrite Hout. f_equal.
    pose proof (Hnth 0 "Paris" _ [paris] eq_refl eq_refl eq_refl) as H0'.
    pose proof (Hnth 1 "Nonexistent__Place_X" _ [] eq_refl eq_refl eq_refl) as H1'.
    destruct results as [ | r0 [ | r1 [ | r2 results]]]; try discriminate.
    cbn in H0', H1'. congruence.
Defined.

Lemma coordinates_validation_witness :
  shorter_than 2 (ArrayOf one_waypoint) /\
  getOptimizedRoute sample_service (env_status 200 sample_route) (ArrayOf one_waypoint) =
    ([], inr (Error "Invalid waypoints. Minimum 2 coordinates required.")) /\
  getDistanceMatrix sample_service (env_status 200 sample_matrix) NotArray =
    ([], inr (Error "Invalid points. Minimum 2 coordinates required.")).
Proof.
  assert (Hshort : shorter_than 2 (ArrayOf one_waypoint)) by (cbn; lia).
  split; [ exact Hshort | ]. split.
  - exact (proj1 (coordinates_validation sample_service (env_status 200 sample_route)
                    (env_status 200 sample_matrix) (ArrayOf one_waypoint) Hshort)).
  - exact (proj2 (coordinates_validation sample_service (env_status 200 sample_route)
                    (env_status 200 sample_matrix) NotArray I)).
Defined.

Lemma locations_validation_witness :
  shorter_than 1 (@ArrayOf string []) /\
  batchGeocode sample_service env_paris (ArrayOf []) =
    ([], inr (Error "Invalid locations. Non-empty array required.")).
Proof.
  assert (Hshort : shorter_than 1 (@ArrayOf string [])) by (cbn; lia).
  split; [ exact Hshort | ].
  exact (locations_validation sample_service env_paris (ArrayOf []) Hshort).
Defined.

Lemma coordinates_serialisation_witness :
  2 <= length two_waypoints /\
  forallb plain two_waypoints = true /\
  sent (trace (getOptimizedRoute sample_service (env_status 200 sample_route)
                 (ArrayOf two_waypoints))) =
    [get "https://api.mapbox.com/optimized-trips/v1/mapbox/driving/2,49;-3,40"
       (route_params sample_service)] /\
  parse_path "2,49;-3,40" = [Some ("2", "49"); Some ("-3", "40")].
Proof.
  assert (Hlen : 2 <= length two_waypoints) by (cbn; lia).
  split; [ exact Hlen | ]. split; [ reflexivity | ].
  destruct (coordinates_serialisation sample_service (env_status 200 sample_route)
              (env_status 200 sample_matrix) two_waypoints Hlen)
    as ((n & Hn & Hsent) & _ & Hparse).
  split.
  - reflexivity.
  - exact (Hparse eq_refl).
Defined.

Lemma credential_required_witness :
  outcome (constructor (Some "")) = inr (Error "Mapbox access token is required") /\
  outcome (constructor None) = inr (Error "Mapbox access token is required") /\
  exists this,
    outcome (constructor (Some "pk.sample")) = inl this /\
    accessToken this = "pk.sample" /\
    forall req,
      In req (sent (trace (getElevation this
                             (env_503_200 {| features := Some [] |}) sample_longitude sample_latitude))) ->
      param "access_token" req = Some (PString "pk.sample").
Proof.
  split; [ | split ].
  - apply (proj1 (credential_required (Some ""))). right. reflexivity.
  - apply (proj1 (credential_required None)). left. reflexivity.
  - destruct (proj2 (credential_required (Some "pk.sample")) "pk.sample" eq_refl)
      as (this & Hthis & Htoken & _ & Helevation & _).
    + discriminate.
    + exists this. split; [ exact Hthis | ]. split; [ exact Htoken | ].
      apply Helevation.
Defined.

Lemma error_surface_witness :
  shorter_than 2 (ArrayOf one_waypoint) /\
  outcome (getOptimizedRoute sample_service (env_status 200 sample_route)
             (ArrayOf one_waypoint)) =
    inr (Error "Invalid waypoints. Minimum 2 coordinates required.") /\
  2 <= length [@NoJoin integers; NoJoin] /\
  typed [@NoJoin integers; NoJoin] = inr (TypeError_not_a_function "coord.join") /\
  getOptimizedRoute_untyped sample_service (env_status 200 sample_route)
    [NoJoin; NoJoin] =
    ([], inr (mkJsError "TypeError" "coord.join is not a function"
                None None None None)).
Proof.
  assert (Hshort : shorter_than 2 (ArrayOf one_waypoint)) by (cbn; lia).
  assert (Hlen : 2 <= length [@NoJoin integers; NoJoin]) by (cbn; lia).
  destruct (error_surface sample_service) as (Hroute & _ & _ & _ & Huntyped & _).
  split; [ exact Hshort | ]. split.
  - exact (proj2 (proj1 (Hroute (env_status 200 sample_route) (ArrayOf one_waypoint)))
             Hshort).
  - split; [ exact Hlen | ]. split; [ reflexivity | ].
    destruct (Huntyped (env_status 200 sample_route) [NoJoin; NoJoin])
      as (_ & Hthrows & _).
    exact (proj1 (Hthrows (TypeError_not_a_function "coord.join") Hlen eq_refl)).
Defined.

Lemma failure_logged_once_witness :
  outcome (getDistanceMatrix sample_service (env_status 404 sample_matrix)
             (ArrayOf two_waypoints)) =
    inr (Error "Failed to fetch distance matrix") /\
  length (errors_logged (trace (getDistanceMatrix sample_service
                                  (env_status 404 sample_matrix)
                                  (ArrayOf two_waypoints)))) = 1.
Proof.
  split; [ reflexivity | ].
  destruct (failure_logged_once sample_service) as (_ & _ & _ & Hmatrix).
  exact (proj1 (proj1 (Hmatrix (env_status 404 sample_matrix) (ArrayOf two_waypoints)))
           eq_refl).
Defined.

Lemma attempts_accounting_witness :
  2 <= length two_waypoints /\
  length (retry_events (trace (getOptimizedRoute sample_service
                                 (env_429_429_200 sample_route)
                                 (ArrayOf two_waypoints)))) + 1 =
  length (sent (trace (getOptimizedRoute sample_service (env_429_429_200 sample_route)
                         (ArrayOf two_waypoints)))).
Proof.
  assert (Hlen : 2 <= length two_waypoints) by (cbn; lia).
  split; [ exact Hlen | ].
  destruct (attempts_accounting sample_service) as (Hroute & _).
  exact (proj1 (proj2 (Hroute (env_429_429_200 sample_route) two_waypoints Hlen))).
Defined.

Lemma getElevation_requests_witness :
  sent (trace (getElevation sample_service (env_status 404 {| features := None |})
                 sample_longitude sample_latitude)) <> [].
Proof.
  exact (proj1 (getElevation_requests sample_service
                  (env_status 404 {| features := None |})
                  sample_longitude sample_latitude)).
Defined.

Lemma batchGeocode_missing_features_witness :
  nth_error ["Paris"; "Nowhere"] 1 = Some "Nowhere" /\
  outcome (geocode_call sample_service env_missing_features 1 "Nowhere") =
    inl {| status := 200; data := {| features := None |} |} /\
  outcome (batchGeocode sample_service env_missing_features
             (ArrayOf ["Paris"; "Nowhere"])) =
    inr (Error "Failed to geocode locations").
Proof.
  split; [ reflexivity | ]. split; [ reflexivity | ].
  exact (batchGeocode_missing_features sample_service env_missing_features
           ["Paris"; "Nowhere"] 1 "Nowhere"
           {| status := 200; data := {| features := None |} |}
           eq_refl eq_refl eq_refl).
Defined.

Lemma batchGeocode_reports_the_failure_witness :
  nth_error ["Paris"; "Nowhere"] 1 = Some "Nowhere" /\
  exists t,
    trace (batchGeocode sample_service env_second_fails (ArrayOf ["Paris"; "Nowhere"])) =
    (t ++ [Log {| ev_level := LevelError;
                  ev_message := "Batch geocoding error: Request failed with status code 404";
                  ev_meta := [("locationCount", MetaNumber 2);
                              ("status", MetaNumber 404)] |}])%list.
Proof.
  split; [ reflexivity | ].
  apply (batchGeocode_reports_the_failure sample_service env_second_fails
           ["Paris"; "Nowhere"] 1 "Nowhere"
           (AxiosError_status
              (get (geocode_url sample_service)
                 (geocode_params sample_service "Nowhere")) 404 no_headers)).
  - reflexivity.
  - reflexivity.
  - intros [ | [ | j]] location' Hneq Hj; cbn in Hj.
    + injection Hj as <-. eexists. reflexivity.
    + contradiction.
    + destruct j; discriminate.
Defined.

Lemma batchGeocode_succeeds_iff_witness :
  ["Paris"; "Nonexistent__Place_X"] <> [] /\
  exists results,
    outcome (batchGeocode sample_service env_paris
               (ArrayOf ["Paris"; "Nonexistent__Place_X"])) = inl results.
Proof.
  assert (Hne : ["Paris"; "Nonexistent__Place_X"] <> []) by discriminate.
  split; [ exact Hne | ].
  apply (proj2 (proj1 (batchGeocode_succeeds_iff sample_service env_paris
                         ["Paris"; "Nonexistent__Place_X"] Hne))).
  intros [ | [ | i]] location Hi; cbn in Hi.
  - injection Hi as <-. eexists. exists [paris]. split; reflexivity.
  - injection Hi as <-. eexists. exists []. split; reflexivity.
  - destruct i; discriminate.
Defined.

Lemma batchGeocode_requests_witness :
  ["Paris"; "Paris"] <> [] /\
  length ["Paris"; "Paris"] <=
  length (sent (trace (batchGeocode sample_service env_paris (ArrayOf ["Paris"; "Paris"]))))
  <= 4 * length ["Paris"; "Paris"].
Proof.
  assert (Hne : ["Paris"; "Paris"] <> []) by discriminate.
  split; [ exact Hne | ].
  exact (proj1 (proj2 (proj2 (batchGeocode_requests sample_service env_paris
                                ["Paris"; "Paris"] Hne)))).
Defined.

Lemma retries_exhausted_witness :
  2 <= length two_waypoints /\
  (forall j, j <= 3 ->
   retry_class (exchange (env_status 503 sample_matrix) 0
                  (get (matrix_url sample_service two_waypoints)
                     (matrix_params sample_service)) j) = true) /\
  exists error,
    outcome (getDistanceMatrix sample_service (env_status 503 sample_matrix)
               (ArrayOf two_waypoints)) = inr (Error "Failed to fetch distance matrix") /\
    err_status error = Some 503.
Proof.
  assert (Hlen : 2 <= length two_waypoints) by (cbn; lia).
  assert (Hall : forall j, j <= 3 ->
            retry_class (exchange (env_status 503 sample_matrix) 0
                           (get (matrix_url sample_service two_waypoints)
                              (matrix_params sample_service)) j) = true)
    by (intros j _; reflexivity).
  split; [ exact Hlen | ]. split; [ exact Hall | ].
  destruct (retries_exhausted sample_service) as (_ & _ & Hmatrix).
  destruct (Hmatrix (env_status 503 sample_matrix) two_waypoints Hlen Hall)
    as (error & Hlast & Hrun).
  exists error. split.
  - rewrite Hrun. reflexivity.
  - cbn in Hlast. injection Hlast as <-. reflexivity.
Defined.

Lemma first_attempt_success_witness :
  validateStatus 200 = true /\
  getOptimizedRoute sample_service (env_status 200 sample_route) (ArrayOf two_waypoints) =
    ([Send 0 0 (get (route_url sample_service two_waypoints)
                  (route_params sample_service));
      Log {| ev_level := LevelInfo;
             ev_message := "Route optimized for 2 waypoints";
             ev_meta := [] |}],
     inl sample_route).
Proof.
  split; [ reflexivity | ].
  destruct (first_attempt_success sample_service 200 eq_refl) as (Hroute & _).
  assert (Hlen : 2 <= length two_waypoints) by (cbn; lia).
  exact (Hroute (env_status 200 sample_route) two_waypoints no_headers sample_route
           Hlen eq_refl).
Defined.

Lemma backoff_budget_witness :
  no_retry_after (env_status 503 sample_route) /\
  (forall k, (0 <= Math_random (env_status 503 sample_route) 0 k)%Q /\
             (Math_random (env_status 503 sample_route) 0 k <= 1)%Q) /\
  (total_wait (trace (getOptimizedRoute sample_service (env_status 503 sample_route)
                        (ArrayOf two_waypoints))) <= 1680)%Q.
Proof.
  assert (Hr : forall k, (0 <= Math_random (env_status 503 sample_route) 0 k)%Q /\
                         (Math_random (env_status 503 sample_route) 0 k <= 1)%Q)
    by (intros k; cbn; split; lra).
  assert (Hno : no_retry_after (env_status 503 sample_route))
    by (intros slot req attempt status headers body [= _ <- _]; reflexivity).
  split; [ exact Hno | ]. split; [ exact Hr | ].
  destruct (backoff_budget sample_service) as (Hroute & _).
  exact (Hroute (env_status 503 sample_route) (ArrayOf two_waypoints) Hno Hr).
Defined.

Lemma constructed_service_witness :
  outcome (constructor (Some "pk.sample")) = inl sample_service /\
  trace (constructor (Some "pk.sample")) = [] /\
  MAPBOX_BASE_URL sample_service = "https://api.mapbox.com".
Proof.
  split; [ reflexivity | ].
  destruct (proj1 (constructed_service (Some "pk.sample")) sample_service eq_refl)
    as (Hsilent & Hbase & _).
  split; [ exact Hsilent | exact Hbase ].
Defined.

Lemma coordinates_path_injective_witness :
  two_waypoints <> [] /\
  forallb plain two_waypoints = true /\
  coordinates_path two_waypoints = coordinates_path two_waypoints /\
  length two_waypoints = length two_waypoints /\
  map lonlat_texts two_waypoints = map lonlat_texts two_waypoints.
Proof.
  assert (Hne : two_waypoints <> []) by discriminate.
  split; [ exact Hne | ]. split; [ reflexivity | ]. split; [ reflexivity | ].
  exact (coordinates_path_injective two_waypoints two_waypoints
           Hne Hne eq_refl eq_refl eq_refl).
Defined.

Lemma credential_only_in_requests_witness :
  MAPBOX_BASE_URL sample_service = MAPBOX_BASE_URL other_service /\
  answers_by_url (env_status 404 {| features := @None (list ElevationFeature) |}) /\
  without_requests (trace (getElevation sample_service
                             (env_status 404 {| features := None |})
                             sample_longitude sample_latitude)) =
  without_requests (trace (getElevation other_service
                             (env_status 404 {| features := None |})
                             sample_longitude sample_latitude)).
Proof.
  assert (Henv : answers_by_url
                   (env_status 404 {| features := @None (list ElevationFeature) |}))
    by (intros slot req req' attempt _ _; reflexivity).
  split; [ reflexivity | ]. split; [ exact Henv | ].
  destruct (credential_only_in_requests sample_service other_service eq_refl)
    as (_ & Helevation & _).
  exact (proj1 (Helevation (env_status 404 {| features := None |})
                  sample_longitude sample_latitude Henv)).
Defined.

Lemma batchGeocode_any_order_witness :
  outcome (batchGeocode sample_service (with_order env_second_fails [0; 1])
             (ArrayOf ["Paris"; "Nowhere"])) =
  outcome (batchGeocode sample_service env_second_fails (ArrayOf ["Paris"; "Nowhere"])).
Proof.
  exact (batchGeocode_any_order sample_service env_second_fails [0; 1]
           (ArrayOf ["Paris"; "Nowhere"])).
Defined.
